(** * Atendimentos: a shallow embedding of the CRUD application

    The development follows the JavaScript sources of the repository:

    - [src/backend/services/atendimentoService.js]   (module [Service])
    - [src/backend/controllers/atendimentoController.js] (module [Controller])
    - [server-postgres.js]                            (module [RawPg])
    - the in-memory standalone server                 (module [Mock])
    - [src/frontend/js/api.js] and the frontend filters
      (modules [APICache], [StringUtils], [AtendimentoFilters])

    JavaScript strings are sequences of UTF-16 code units, JSON values are
    a small inductive type, a thrown exception is an explicit result, the
    database is an interface of typed queries, and the mutable state of the
    mock server is passed explicitly. *)

From Stdlib Require Import ZArith NArith List Bool Ascii String Lia.
From Stdlib Require Import DecimalString.
From stdpp Require Import base option list gmap.

Open Scope Z_scope.

(** ** JavaScript strings *)

Module JS.

(** A string is the list of its UTF-16 code units. *)
Abbreviation jsstring := (list N).

(** ASCII literals; other characters are written as code units. *)
Fixpoint str (s : string) : jsstring :=
  match s with
  | EmptyString => []
  | String a r => N_of_ascii a :: str r
  end.

Arguments str : simpl never.

(** WhiteSpace and LineTerminator code points of ECMAScript, the set
    stripped by [String.prototype.trim] and skipped by [parseInt]. *)
Definition isWhiteSpace (c : N) : bool :=
  ((9 <=? c) && (c <=? 13) || (c =? 32) || (c =? 160) || (c =? 5760)
   || (8192 <=? c) && (c <=? 8202) || (c =? 8232) || (c =? 8233)
   || (c =? 8239) || (c =? 8287) || (c =? 12288) || (c =? 65279))%N.

Fixpoint trimStart (s : jsstring) : jsstring :=
  match s with
  | [] => []
  | c :: r => if isWhiteSpace c then trimStart r else s
  end.

Definition trimEnd (s : jsstring) : jsstring := rev (trimStart (rev s)).

(** [String.prototype.trim] *)
Definition trim (s : jsstring) : jsstring := trimEnd (trimStart s).

Fixpoint startsWith (s p : jsstring) {struct p} : bool :=
  match p, s with
  | [], _ => true
  | _ :: _, [] => false
  | a :: p', b :: s' => (a =? b)%N && startsWith s' p'
  end.

(** [String.prototype.includes]: [p] occurs in [s] as a substring. *)
Fixpoint includes (s p : jsstring) : bool :=
  startsWith s p ||
  match s with
  | [] => false
  | _ :: s' => includes s' p
  end.

Definition jsstring_eqb (a b : jsstring) : bool := bool_decide (a = b).

(** [Array.prototype.join] *)
Fixpoint join (sep : jsstring) (l : list jsstring) : jsstring :=
  match l with
  | [] => []
  | [x] => x
  | x :: r => x ++ sep ++ join sep r
  end.

(** ** Numbers

    A number is NaN or an integer; the code under study reads numbers only
    as record ids, time values and truth values, so integers are kept exact
    (a double is exact up to 2^53). *)
Inductive number := NaN | Int (z : Z).

Definition isNaN (n : number) : bool :=
  match n with NaN => true | Int _ => false end.

(** Strict equality of numbers: NaN differs from everything. *)
Definition number_eqb (a b : number) : bool :=
  match a, b with
  | Int x, Int y => x =? y
  | _, _ => false
  end.

(** Value of a digit or letter in [parseInt]. *)
Definition digitValue (c : N) : option Z :=
  if ((48 <=? c) && (c <=? 57))%N then Some (Z.of_N c - 48)
  else if ((97 <=? c) && (c <=? 122))%N then Some (Z.of_N c - 87)
  else if ((65 <=? c) && (c <=? 90))%N then Some (Z.of_N c - 55)
  else None.

(** The longest prefix of digits of the radix, read as a number; [acc] is
    [None] until a first digit is seen. *)
Fixpoint parseDigits (radix : Z) (acc : option Z) (s : jsstring) : option Z :=
  match s with
  | [] => acc
  | c :: r =>
      match digitValue c with
      | Some d =>
          if d <? radix
          then parseDigits radix (Some (default 0 acc * radix + d)) r
          else acc
      | None => acc
      end
  end.

(** [parseInt(s)] with no radix argument: leading white space is skipped,
    a sign is read, a [0x] or [0X] prefix selects radix 16, and the result
    is NaN when no digit follows. *)
Definition parseInt (s : jsstring) : number :=
  let s1 := trimStart s in
  let '(sign, s2) :=
    match s1 with
    | c :: r => if (c =? 45)%N then (-1, r)
                else if (c =? 43)%N then (1, r) else (1, s1)
    | [] => (1, [])
    end in
  let '(radix, s3) :=
    match s2 with
    | c0 :: c1 :: r =>
        if ((c0 =? 48) && ((c1 =? 120) || (c1 =? 88)))%N
        then (16, r) else (10, s2)
    | _ => (10, s2)
    end in
  match parseDigits radix None s3 with
  | Some z => Int (sign * z)
  | None => NaN
  end.

(** ** JSON values of a request body *)

Inductive value :=
| VUndefined
| VNull
| VBool (b : bool)
| VNumber (n : number)
| VString (s : jsstring)
| VObject (primitive : option jsstring).
    (* an object or an array: truthy, no methods; [primitive] is the
       string its conversion to a primitive gives, [None] when that
       conversion throws (an own [toString] that is not a function) *)

(** ToBoolean *)
Definition truthy (v : value) : bool :=
  match v with
  | VUndefined | VNull => false
  | VBool b => b
  | VNumber NaN => false
  | VNumber (Int z) => negb (z =? 0)
  | VString s => negb (jsstring_eqb s [])
  | VObject _ => true
  end.

(** ** Exceptions *)

Inductive exn :=
| TypeError                       (* raised by the engine *)
| Error (message : jsstring).     (* [new Error(message)] *)

Inductive outcome (A : Type) :=
| Ok (a : A)
| Raise (e : exn).
Arguments Ok {A} a.
Arguments Raise {A} e.

#[export] Instance outcome_ret : MRet outcome := @Ok.
#[export] Instance outcome_bind : MBind outcome := fun A B f m =>
  match m with
  | Ok a => f a
  | Raise e => Raise e
  end.

#[export] Instance outcome_fmap : FMap outcome := fun A B f m =>
  match m with
  | Ok a => Ok (f a)
  | Raise e => Raise e
  end.

(** [v.trim()]: only a string has the method. *)
Definition call_trim (v : value) : outcome jsstring :=
  match v with
  | VString s => Ok (trim s)
  | _ => Raise TypeError
  end.

(** [v?.trim()]: [undefined] for a nullish receiver. *)
Definition optcall_trim (v : value) : outcome value :=
  match v with
  | VUndefined | VNull => Ok VUndefined
  | _ => VString <$> call_trim v
  end.

(** ToPrimitive, as [+] with a string and [new Date(v)] apply it: an
    object gives the string it converts to, or throws. *)
Definition toPrimitive (v : value) : outcome value :=
  match v with
  | VObject (Some s) => Ok (VString s)
  | VObject None => Raise TypeError
  | _ => Ok v
  end.

(** [s.length] *)
Definition jslength (s : jsstring) : Z := Z.of_nat (length s).

(** ** The host environment

    Built-ins of the engine whose results are not computed here: the clock
    and the Date constructor on the server, Unicode case mapping and
    normalisation in the browser. *)
Class Host := {
  (** time value of [new Date()] *)
  now : Z;
  (** time value of [new Date(v)] for a primitive [v] or a date read from
      the database, NaN for an invalid date *)
  timeValue : value -> number;
  (** [new Date(v).toLocaleDateString('pt-BR')], for such a [v] *)
  toLocaleDateString : value -> jsstring;
  (** ToString of a primitive that is not a string *)
  toStringValue : value -> jsstring;
  (** [String.prototype.toLowerCase] *)
  toLowerCase : jsstring -> jsstring;
  (** [s.normalize('NFD')] *)
  normalizeNFD : jsstring -> jsstring
}.

(** [a > b] on numbers: false as soon as one side is NaN. *)
Definition number_gtb (a b : number) : bool :=
  match a, b with
  | Int x, Int y => y <? x
  | _, _ => false
  end.

End JS.
Import JS.

(** ** The record of a request body and the three kinds of service *)

(** [req.body]: the five fields read by every server; a missing field is
    [VUndefined]. *)
Record atendimento := {
  nome : value;
  profissional : value;
  data : value;
  tipo : value;
  observacoes : value
}.

Definition Psicologico : jsstring := str "Psicol" ++ [243%N] ++ str "gico".
Definition Pedagogico : jsstring := str "Pedag" ++ [243%N] ++ str "gico".
Definition AssistenciaSocial : jsstring :=
  str "Assist" ++ [234%N] ++ str "ncia Social".

Definition tiposValidos : list jsstring :=
  [Psicologico; Pedagogico; AssistenciaSocial].

(** [tiposValidos.includes(tipo)] *)
Definition array_includes (l : list jsstring) (v : value) : bool :=
  match v with
  | VString s => existsb (jsstring_eqb s) l
  | _ => false
  end.

Definition msg_nome : jsstring := str "Nome deve ter pelo menos 2 caracteres".
Definition msg_profissional : jsstring :=
  str "Profissional deve ter pelo menos 2 caracteres".
Definition msg_data : jsstring :=
  str "Data " ++ [233%N] ++ str " obrigat" ++ [243%N] ++ str "ria".
Definition msg_futura : jsstring :=
  str "Data n" ++ [227%N] ++ str "o pode ser futura".
Definition msg_tipo : jsstring :=
  str "Tipo deve ser: " ++ Psicologico ++ str ", " ++ Pedagogico
  ++ str " ou " ++ AssistenciaSocial.
Definition dados_invalidos : jsstring :=
  str "Dados inv" ++ [225%N] ++ str "lidos".
Definition msg_nao_encontrado : jsstring :=
  str "Atendimento n" ++ [227%N] ++ str "o encontrado".
Definition msg_id_invalido : jsstring := str "ID inv" ++ [225%N] ++ str "lido".
Definition msg_erro_interno : jsstring := str "Erro interno do servidor".

(** [!v || v.trim().length < 2], the test of nome and profissional. *)
Definition too_short (v : value) : outcome bool :=
  if negb (truthy v) then Ok true
  else s ← call_trim v; Ok (jslength s <? 2).

(** ** The database interface

    [db.query(text, values)] and [pool.query(text, values)]: one constructor
    per SQL statement of the sources, indexed by the shape of [result.rows]
    ([INSERT ... RETURNING *] yields the inserted row). *)
Module Db.

(** A row as the driver returns it: the columns are primitives, and a
    date column is a Date, which the host reads and formats; converting
    them never throws. *)
Record dbrow := {
  row_id : Z;
  row_nome : value;
  row_profissional : value;
  row_data : value;
  row_tipo : value;
  row_observacoes : value;
  row_created_at : value;
  row_updated_at : value
}.

Inductive query : Type -> Type :=
| SelectAll : query (list dbrow)
| SelectById (id : number) : query (list dbrow)
| Insert (nome profissional data tipo observacoes : value) : query dbrow
| Update (nome profissional data tipo observacoes : value) (id : number)
    : query (list dbrow)
| Delete (id : number) : query (list Z).

(** An asynchronous handler: it returns, throws, or awaits one query and
    continues with the rows, or with the message of the rejection. *)
Inductive prog (A : Type) : Type :=
| Ret (a : A)
| Throw (e : exn)
| Await {X : Type} (q : query X) (k : jsstring + X -> prog A).
Arguments Ret {A} a.
Arguments Throw {A} e.
Arguments Await {A X} q k.

Fixpoint bind {A B} (p : prog A) (f : A -> prog B) : prog B :=
  match p with
  | Ret a => f a
  | Throw e => Throw e
  | Await q k => Await q (fun r => bind (k r) f)
  end.

(** [try { p } catch (error) { h error }] *)
Fixpoint catch {A} (p : prog A) (h : exn -> prog A) : prog A :=
  match p with
  | Ret a => Ret a
  | Throw e => h e
  | Await q k => Await q (fun r => catch (k r) h)
  end.

#[export] Instance prog_ret : MRet prog := @Ret.
#[export] Instance prog_bind : MBind prog := fun A B f p => bind p f.

(** The handler issues no SQL statement. *)
Definition no_query {A} (p : prog A) : bool :=
  match p with
  | Await _ _ => false
  | _ => true
  end.

(** Running a handler against a database: [exec] answers each statement
    and gives the next state of the tables. *)
Section Run.
Context {S : Type}.
Variable exec : forall X, query X -> S -> S * (jsstring + X).

Fixpoint run {A} (p : prog A) (s : S) : S * outcome A :=
  match p with
  | Ret a => (s, Ok a)
  | Throw e => (s, Raise e)
  | Await q k => let '(s', r) := exec _ q s in run (k r) s'
  end.
End Run.

End Db.
Import Db.

(** ** HTTP responses: [res.status(n).json({success, data, message, error})] *)
Record response (D : Type) := {
  status : Z;
  success : bool;
  payload : option D;
  message : option jsstring;
  error : option exn          (* the error whose message is reported *)
}.
Arguments status {D} r.
Arguments success {D} r.
Arguments payload {D} r.
Arguments message {D} r.
Arguments error {D} r.

Definition respond {D} (st : Z) (ok : bool) (d : option D)
    (m : option jsstring) (e : option exn) : response D :=
  {| status := st; success := ok; payload := d; message := m; error := e |}.

(** ** src/backend/services/atendimentoService.js *)
Module Service.
Section WithHost.
Context `{Host}.

Record validation := { isValid : bool; errors : list jsstring }.

Definition validateAtendimento (a : atendimento) : outcome validation :=
  short_nome ← too_short (nome a);
  let errors1 := if (short_nome : bool) then [msg_nome] else [] in
  short_prof ← too_short (profissional a);
  let errors2 := errors1 ++ (if (short_prof : bool) then [msg_profissional] else []) in
  data_errors ←
    (if negb (truthy (data a)) then Ok [msg_data]
     else
       dataAtendimento ← toPrimitive (data a);
       Ok (if number_gtb (timeValue dataAtendimento) (Int now)
           then [msg_futura] else []));
  let errors3 := errors2 ++ data_errors in
  let errors4 := errors3 ++
    (if negb (truthy (tipo a)) || negb (array_includes tiposValidos (tipo a))
     then [msg_tipo] else []) in
  Ok {| isValid := (length errors4 =? 0)%nat; errors := errors4 |}.

Definition sanitizeAtendimento (a : atendimento) : outcome atendimento :=
  nome' ← optcall_trim (nome a);
  profissional' ← optcall_trim (profissional a);
  tipo' ← optcall_trim (tipo a);
  observacoes' ← optcall_trim (observacoes a);
  Ok {| nome := nome';
        profissional := profissional';
        data := data a;
        tipo := tipo';
        observacoes := if truthy observacoes' then observacoes' else VString [] |}.

Definition formatDate (dataISO : value) : jsstring :=
  if negb (truthy dataISO) then [] else toLocaleDateString dataISO.

Record api_record := {
  r_id : Z;
  r_nome : value;
  r_profissional : value;
  r_data : jsstring;
  r_dataISO : value;
  r_tipo : value;
  r_observacoes : value;
  r_createdAt : value;
  r_updatedAt : value
}.

Definition mapAtendimentoToResponse (atendimentoDB : dbrow) : api_record :=
  {| r_id := row_id atendimentoDB;
     r_nome := row_nome atendimentoDB;
     r_profissional := row_profissional atendimentoDB;
     r_data := formatDate (row_data atendimentoDB);
     r_dataISO := row_data atendimentoDB;
     r_tipo := row_tipo atendimentoDB;
     r_observacoes := row_observacoes atendimentoDB;
     r_createdAt := row_created_at atendimentoDB;
     r_updatedAt := row_updated_at atendimentoDB |}.

Definition findAll : prog (list api_record) :=
  Await SelectAll (fun result : jsstring + list dbrow =>
    match result with
    | inl m => Throw (Error (str "Erro ao buscar atendimentos: " ++ m))
    | inr rows => Ret (map mapAtendimentoToResponse rows)
    end).

Definition findById (id : number) : prog (option api_record) :=
  Await (SelectById id) (fun result : jsstring + list dbrow =>
    match result with
    | inl m => Throw (Error (str "Erro ao buscar atendimento: " ++ m))
    | inr [] => Ret None
    | inr (row :: _) => Ret (Some (mapAtendimentoToResponse row))
    end).

(** The message of the error thrown on invalid data. *)
Definition invalid_message (v : validation) : jsstring :=
  dados_invalidos ++ str ": " ++ join (str ", ") (errors v).

(** The first lines of [create] and [update]: sanitize, validate, throw. *)
Definition checked (atendimentoData : atendimento) : outcome atendimento :=
  sanitized ← sanitizeAtendimento atendimentoData;
  validation ← validateAtendimento sanitized;
  if negb (isValid validation)
  then Raise (Error (invalid_message validation))
  else Ok sanitized.

Definition create (atendimentoData : atendimento) : prog api_record :=
  match checked atendimentoData with
  | Raise e => Throw e
  | Ok sanitized =>
      Await (Insert (nome sanitized) (profissional sanitized) (data sanitized)
               (tipo sanitized) (observacoes sanitized))
        (fun result : jsstring + dbrow =>
           match result with
           | inl m => Throw (Error (str "Erro ao criar atendimento: " ++ m))
           | inr row => Ret (mapAtendimentoToResponse row)
           end)
  end.

Definition update (id : number) (atendimentoData : atendimento)
    : prog (option api_record) :=
  match checked atendimentoData with
  | Raise e => Throw e
  | Ok sanitized =>
      Await (Update (nome sanitized) (profissional sanitized) (data sanitized)
               (tipo sanitized) (observacoes sanitized) id)
        (fun result : jsstring + list dbrow =>
           match result with
           | inl m => Throw (Error (str "Erro ao atualizar atendimento: " ++ m))
           | inr [] => Ret None
           | inr (row :: _) => Ret (Some (mapAtendimentoToResponse row))
           end)
  end.

Definition delete (id : number) : prog bool :=
  Await (Delete id) (fun result : jsstring + list Z =>
    match result with
    | inl m => Throw (Error (str "Erro ao deletar atendimento: " ++ m))
    | inr rows => Ret (0 <? length rows)%nat
    end).

End WithHost.
End Service.

(** ** src/backend/controllers/atendimentoController.js *)
Module Controller.
Section WithHost.
Context `{Host}.
Import Service.

(** [error.message.includes('Dados inválidos')], with the message when the
    test succeeds.  The message of an engine [TypeError] names the
    expression that failed and does not contain that text. *)
Definition invalid_data (e : exn) : option jsstring :=
  match e with
  | Error m => if includes m dados_invalidos then Some m else None
  | TypeError => None
  end.

Definition bad_request {D} (m : jsstring) : response D :=
  respond 400 false None (Some m) None.
Definition not_found {D} : response D :=
  respond 404 false None (Some msg_nao_encontrado) None.
Definition internal_error {D} (e : exn) : response D :=
  respond 500 false None (Some msg_erro_interno) (Some e).

(** [!id || isNaN(parseInt(id))] on the path parameter *)
Definition invalid_id (id : jsstring) : bool :=
  negb (truthy (VString id)) || isNaN (parseInt id).

Definition index : prog (response (list api_record)) :=
  catch
    (atendimentos ← findAll;
     Ret (respond 200 true (Some atendimentos)
            (Some (str "Atendimentos listados com sucesso")) None))
    (fun error => Ret (internal_error error)).

Definition show (id : jsstring) : prog (response api_record) :=
  catch
    (if invalid_id id then Ret (bad_request msg_id_invalido)
     else
       atendimento ← findById (parseInt id);
       match atendimento with
       | None => Ret not_found
       | Some a =>
           Ret (respond 200 true (Some a)
                  (Some (str "Atendimento encontrado com sucesso")) None)
       end)
    (fun error => Ret (internal_error error)).

Definition store (body : atendimento) : prog (response api_record) :=
  catch
    (novoAtendimento ← create body;
     Ret (respond 201 true (Some novoAtendimento)
            (Some (str "Atendimento criado com sucesso")) None))
    (fun error =>
       match invalid_data error with
       | Some m => Ret (bad_request m)
       | None => Ret (internal_error error)
       end).

Definition update (id : jsstring) (body : atendimento)
    : prog (response api_record) :=
  catch
    (if invalid_id id then Ret (bad_request msg_id_invalido)
     else
       atendimentoAtualizado ← Service.update (parseInt id) body;
       match atendimentoAtualizado with
       | None => Ret not_found
       | Some a =>
           Ret (respond 200 true (Some a)
                  (Some (str "Atendimento atualizado com sucesso")) None)
       end)
    (fun error =>
       match invalid_data error with
       | Some m => Ret (bad_request m)
       | None => Ret (internal_error error)
       end).

Definition destroy (id : jsstring) : prog (response api_record) :=
  catch
    (if invalid_id id then Ret (bad_request msg_id_invalido)
     else
       deletado ← delete (parseInt id);
       if (deletado : bool)
       then Ret (respond 200 true None
                   (Some (str "Atendimento deletado com sucesso")) None)
       else Ret not_found)
    (fun error => Ret (internal_error error)).

End WithHost.
End Controller.

(** ** server-postgres.js: the POST handler *)
Module RawPg.
Section WithHost.
Context `{Host}.

Definition post (body : atendimento) : prog (response dbrow) :=
  Await (Insert (nome body) (profissional body) (data body) (tipo body)
           (if truthy (observacoes body) then observacoes body
            else VString []))
    (fun result : jsstring + dbrow =>
       match result with
       | inl m =>
           Ret (respond 500 false None
                  (Some (str "Erro interno do servidor: " ++ m)) None)
       | inr novoAtendimento =>
           Ret (respond 201 true
                  (Some {| row_id := row_id novoAtendimento;
                           row_nome := row_nome novoAtendimento;
                           row_profissional := row_profissional novoAtendimento;
                           row_data := VString (toLocaleDateString
                                                  (row_data novoAtendimento));
                           row_tipo := row_tipo novoAtendimento;
                           row_observacoes := row_observacoes novoAtendimento;
                           row_created_at := row_created_at novoAtendimento;
                           row_updated_at := row_updated_at novoAtendimento |})
                  (Some (str "Atendimento criado com sucesso")) None)
       end).

End WithHost.
End RawPg.

(** ** The in-memory standalone server *)
Module Mock.

Record record := {
  id : number;
  m_nome : jsstring;
  m_profissional : jsstring;
  m_data : value;
  m_dataISO : value;
  m_tipo : jsstring;
  m_observacoes : jsstring
}.

(** The two module-level variables [atendimentos] and [nextId]. *)
Record store := { atendimentos : list record; nextId : Z }.

Definition initial : store :=
  {| atendimentos :=
       [ {| id := Int 1;
            m_nome := str "Maria Silva";
            m_profissional := str "Dr. Jo" ++ [227%N] ++ str "o Santos";
            m_data := VString (str "2024-01-15");
            m_dataISO := VString (str "2024-01-15");
            m_tipo := Psicologico;
            m_observacoes := str "Primeira consulta - ansiedade" |};
         {| id := Int 2;
            m_nome := str "Pedro Oliveira";
            m_profissional := str "Ana Costa";
            m_data := VString (str "2024-01-16");
            m_dataISO := VString (str "2024-01-16");
            m_tipo := AssistenciaSocial;
            m_observacoes :=
              str "Orienta" ++ [231%N; 227%N] ++ str "o sobre benef"
              ++ [237%N] ++ str "cios sociais" |};
         {| id := Int 3;
            m_nome := str "Carla Souza";
            m_profissional := str "Prof. Rita Lima";
            m_data := VString (str "2024-01-17");
            m_dataISO := VString (str "2024-01-17");
            m_tipo := Pedagogico;
            m_observacoes := str "Dificuldades de aprendizagem" |} ];
     nextId := 4 |}.

(** A handler reads and writes the store and may throw. *)
Definition M (A : Type) : Type := store -> store * outcome A.

#[export] Instance M_ret : MRet M := fun A a st => (st, Ok a).
#[export] Instance M_bind : MBind M := fun A B f m st =>
  match m st with
  | (st', Ok a) => f a st'
  | (st', Raise e) => (st', Raise e)
  end.

Definition lift {A} (o : outcome A) : M A := fun st => (st, o).
Definition read : M store := fun st => (st, Ok st).
Definition write (st' : store) : M unit := fun _ => (st', Ok tt).

(** [try { m } catch (error) { h error }]: the store keeps what [m] did
    before it threw. *)
Definition try_catch {A} (m : M A) (h : exn -> M A) : M A := fun st =>
  match m st with
  | (st', Ok a) => (st', Ok a)
  | (st', Raise e) => h e st'
  end.

(** [nextId++] *)
Definition post_increment : M number :=
  st ← read;
  _ ← write {| atendimentos := atendimentos st; nextId := nextId st + 1 |};
  mret (Int (nextId st)).

(** [atendimentos.push(r)] *)
Definition push (r : record) : M unit :=
  st ← read;
  write {| atendimentos := atendimentos st ++ [r]; nextId := nextId st |}.

(** [atendimentos.findIndex(a => a.id === id)], [None] for -1 *)
Fixpoint findIndex (id' : number) (l : list record) : option nat :=
  match l with
  | [] => None
  | a :: r => if number_eqb (id a) id' then Some 0%nat
              else S <$> findIndex id' r
  end.

Section WithHost.
Context `{Host}.

(** [dateISO + 'T00:00:00']: the left operand is converted to a
    primitive, which throws for some objects, and then to a string. *)
Definition at_midnight (dateISO : value) : outcome value :=
  p ← toPrimitive dateISO;
  Ok (VString (match p with
               | VString s => s
               | v => toStringValue v
               end ++ str "T00:00:00")).

Definition formatDate (dateISO : value) : outcome jsstring :=
  if negb (truthy dateISO) then Ok []
  else
    date ← at_midnight dateISO;
    Ok (toLocaleDateString date).

(** [{...a, data: formatDate(a.dataISO)}] *)
Definition formatted (a : record) : outcome record :=
  data' ← formatDate (m_dataISO a);
  Ok {| id := id a;
        m_nome := m_nome a;
        m_profissional := m_profissional a;
        m_data := VString data';
        m_dataISO := m_dataISO a;
        m_tipo := m_tipo a;
        m_observacoes := m_observacoes a |}.

(** [atendimentos.map(a => ({...a, data: formatDate(a.dataISO)}))]: the
    records are formatted in order, up to the first that throws. *)
Fixpoint formatted_all (l : list record) : outcome (list record) :=
  match l with
  | [] => Ok []
  | a :: r =>
      a' ← formatted a;
      r' ← formatted_all r;
      Ok (a' :: r')
  end.

Definition bad_request (m : jsstring) : response record :=
  respond 400 false None (Some m) None.
Definition not_found : response record :=
  respond 404 false None (Some msg_nao_encontrado) None.
Definition internal_error : response record :=
  respond 500 false None (Some msg_erro_interno) None.

(** GET /api/atendimentos *)
Definition list_all : M (response (list record)) :=
  st ← read;
  formattedAtendimentos ← lift (formatted_all (atendimentos st));
  mret (respond 200 true (Some formattedAtendimentos) None None).

(** GET /api/atendimento/:id *)
Definition get (id_param : jsstring) : M (response record) :=
  let id' := parseInt id_param in
  st ← read;
  match find (fun a => number_eqb (id a) id') (atendimentos st) with
  | None => mret not_found
  | Some atendimento =>
      shown ← lift (formatted atendimento);
      mret (respond 200 true (Some shown) None None)
  end.

(** The object literal built by POST and PUT, after validation. *)
Definition build (id' : number) (body : atendimento) : outcome record :=
  nome' ← call_trim (nome body);
  profissional' ← call_trim (profissional body);
  tipo' ← call_trim (tipo body);
  observacoes' ← (if truthy (observacoes body)
                  then call_trim (observacoes body) else Ok []);
  Ok {| id := id';
        m_nome := nome';
        m_profissional := profissional';
        m_data := data body;
        m_dataISO := data body;
        m_tipo := tipo';
        m_observacoes := observacoes' |}.

(** The four field checks of POST and PUT; [Some m] is the message of the
    400 response. *)
Definition check (body : atendimento) : outcome (option jsstring) :=
  short_nome ← too_short (nome body);
  if (short_nome : bool) then Ok (Some msg_nome) else
  short_prof ← too_short (profissional body);
  if (short_prof : bool) then Ok (Some msg_profissional) else
  if negb (truthy (data body)) then Ok (Some msg_data) else
  if negb (truthy (tipo body))
     || negb (array_includes tiposValidos (tipo body))
  then Ok (Some msg_tipo)
  else Ok None.

(** POST /api/atendimento *)
Definition post (body : atendimento) : M (response record) :=
  try_catch
    (failed ← lift (check body);
     match failed with
     | Some m => mret (bad_request m)
     | None =>
         id' ← post_increment;
         novoAtendimento ← lift (build id' body);
         _ ← push novoAtendimento;
         shown ← lift (formatted novoAtendimento);
         mret (respond 201 true (Some shown)
                 (Some (str "Atendimento criado com sucesso")) None)
     end)
    (fun _ => mret internal_error).

(** PUT /api/atendimento/:id *)
Definition put (id_param : jsstring) (body : atendimento)
    : M (response record) :=
  try_catch
    (let id' := parseInt id_param in
     st ← read;
     match findIndex id' (atendimentos st) with
     | None => mret not_found
     | Some index =>
         failed ← lift (check body);
         match failed with
         | Some m => mret (bad_request m)
         | None =>
             atualizado ← lift (build id' body);
             _ ← write {| atendimentos := <[index := atualizado]> (atendimentos st);
                          nextId := nextId st |};
             shown ← lift (formatted atualizado);
             mret (respond 200 true (Some shown)
                     (Some (str "Atendimento atualizado com sucesso")) None)
         end
     end)
    (fun _ => mret internal_error).

(** DELETE /api/atendimento/:id *)
Definition delete (id_param : jsstring) : M (response record) :=
  try_catch
    (let id' := parseInt id_param in
     st ← read;
     match findIndex id' (atendimentos st) with
     | None => mret not_found
     | Some index =>
         _ ← write {| atendimentos := base.delete index (atendimentos st);
                      nextId := nextId st |};
         mret (respond 200 true None
                 (Some (str "Atendimento deletado com sucesso")) None)
     end)
    (fun _ => mret internal_error).

(** The requests of the API. *)
Inductive request :=
| GetAll
| Get (id_param : jsstring)
| Post (body : atendimento)
| Put (id_param : jsstring) (body : atendimento)
| Delete (id_param : jsstring).

(** One request served: the next store and the status of the response. *)
Definition serve (rq : request) (st : store) : store * Z :=
  let status_of {D} (r : store * outcome (response D)) : store * Z :=
    (r.1, match r.2 with Ok resp => status resp | Raise _ => 500 end) in
  match rq with
  | GetAll => status_of (list_all st)
  | Get i => status_of (get i st)
  | Post b => status_of (post b st)
  | Put i b => status_of (put i b st)
  | Delete i => status_of (delete i st)
  end.

End WithHost.
End Mock.

(** ** src/frontend/js/api.js: the cache of API responses *)
Module APICache.
Section Cache.
(** The cached data: whatever the API returned. *)
Context {D : Type}.

Record item := { item_data : D; expiry : Z }.

(** [ttl: 5 * 60 * 1000] *)
Definition ttl : Z := 5 * 60 * 1000.

(** [get(key)] when [Date.now()] reads [t]: the cache afterwards and the
    result, [None] for [null]. *)
Definition get (t : Z) (key : jsstring) (cache : gmap jsstring item)
    : gmap jsstring item * option D :=
  match cache !! key with
  | None => (cache, None)
  | Some it =>
      if expiry it <? t then (base.delete key cache, None)
      else (cache, Some (item_data it))
  end.

(** [set(key, data)] when [Date.now()] reads [t] *)
Definition set (t : Z) (key : jsstring) (d : D) (cache : gmap jsstring item)
    : gmap jsstring item :=
  <[key := {| item_data := d; expiry := t + ttl |}]> cache.

Definition clear (cache : gmap jsstring item) : gmap jsstring item := ∅.

(** [for (const key of this.cache.keys()) if (key.includes(pattern))
    this.cache.delete(key)] *)
Definition invalidate (pattern : jsstring) (cache : gmap jsstring item)
    : gmap jsstring item :=
  foldl (fun c key => if includes key pattern then base.delete key c else c)
        cache (map_to_list cache).*1.

End Cache.
Arguments item D : clear implicits.
End APICache.

(** ** src/frontend/js/api.js: StringUtils *)
Module StringUtils.
Section WithHost.
Context `{Host}.

(** A combining mark of the block U+0300..U+036F *)
Definition isCombining (c : N) : bool := ((768 <=? c) && (c <=? 879))%N.

(** [!str || typeof str !== 'string'] *)
Definition not_a_text (v : value) : bool :=
  negb (truthy v) || negb (match v with VString _ => true | _ => false end).

Definition removeAccents (v : value) : jsstring :=
  match v with
  | VString s =>
      if not_a_text v then []
      else List.filter (fun c => negb (isCombining c)) (normalizeNFD s)
  | _ => []
  end.

Definition sanitizeForSearch (v : value) : jsstring :=
  match v with
  | VString s =>
      if not_a_text v then []
      else removeAccents (VString (trim (toLowerCase s)))
  | _ => []
  end.

Definition containsSearchTerm (text searchTerm : value) : bool :=
  if negb (truthy text) || negb (truthy searchTerm) then false
  else includes (sanitizeForSearch text) (sanitizeForSearch searchTerm).

End WithHost.
End StringUtils.

(** ** The frontend filters over the list received from the API *)
Module AtendimentoFilters.
Section WithHost.
Context `{Host}.
Import Service StringUtils.

(** [this.currentFilters]: both fields are strings, empty when unset. *)
Record filters := { search : jsstring; f_tipo : jsstring }.

(** [a === b] between a field and a string *)
Definition strict_eq_string (v : value) (s : jsstring) : bool :=
  match v with
  | VString t => jsstring_eqb t s
  | _ => false
  end.

(** [v || ''] *)
Definition or_empty (v : value) : value :=
  if truthy v then v else VString [].

Definition filterBySearch (atendimentos : list api_record)
    (searchTerm : jsstring) : list api_record :=
  if negb (truthy (VString searchTerm)) then atendimentos
  else
    List.filter (fun atendimento =>
      containsSearchTerm (r_nome atendimento) (VString searchTerm)
      || containsSearchTerm (r_profissional atendimento) (VString searchTerm)
      || containsSearchTerm (or_empty (r_observacoes atendimento))
           (VString searchTerm)) atendimentos.

Definition filterByTipo (atendimentos : list api_record) (tipo : jsstring)
    : list api_record :=
  if negb (truthy (VString tipo)) then atendimentos
  else List.filter (fun atendimento =>
         strict_eq_string (r_tipo atendimento) tipo) atendimentos.

Definition applyFilters (atendimentos : list api_record) (f : filters)
    : list api_record :=
  let filtered := atendimentos in
  let filtered :=
    if truthy (VString (search f)) then filterBySearch filtered (search f)
    else filtered in
  let filtered :=
    if truthy (VString (f_tipo f)) then filterByTipo filtered (f_tipo f)
    else filtered in
  filtered.

End WithHost.
End AtendimentoFilters.

(** ** A host for the examples

    An instance of [Host] that computes: dates are read in the form
    YYYY-MM-DD (UTC midnight, as [new Date] reads a date-only string), every
    other argument is an invalid date; case mapping and canonical
    decomposition cover Basic Latin and Latin-1.  The clock reads
    2026-01-01T00:00:00Z. *)
Module ExampleHost.

Definition digit (c : N) : option Z :=
  if ((48 <=? c) && (c <=? 57))%N then Some (Z.of_N c - 48) else None.

Fixpoint decimal (acc : Z) (s : jsstring) : option Z :=
  match s with
  | [] => Some acc
  | c :: r => d ← digit c; decimal (acc * 10 + d) r
  end.

(** Days from 1970-01-01 to the civil date [y-m-d]. *)
Definition days_from_civil (y m d : Z) : Z :=
  let y' := if m <=? 2 then y - 1 else y in
  let era := y' / 400 in
  let yoe := y' - era * 400 in
  let doy := (153 * (if 2 <? m then m - 3 else m + 9) + 2) / 5 + d - 1 in
  let doe := yoe * 365 + yoe / 4 - yoe / 100 + doy in
  era * 146097 + doe - 719468.

(** The fields of a string YYYY-MM-DD. *)
Definition iso_fields (s : jsstring) : option (Z * Z * Z) :=
  match s with
  | [y1; y2; y3; y4; h1; m1; m2; h2; d1; d2] =>
      if ((h1 =? 45) && (h2 =? 45))%N then
        y ← decimal 0 [y1; y2; y3; y4];
        m ← decimal 0 [m1; m2];
        d ← decimal 0 [d1; d2];
        if (1 <=? m) && (m <=? 12) && (1 <=? d) && (d <=? 31)
        then Some (y, m, d) else None
      else None
  | _ => None
  end.

Definition iso_time (v : value) : number :=
  match v with
  | VString s =>
      match iso_fields s with
      | Some (y, m, d) => Int (days_from_civil y m d * 86400000)
      | None => NaN
      end
  | _ => NaN
  end.

(** dd/mm/yyyy from the first ten code units of the argument *)
Definition local_date (v : value) : jsstring :=
  match v with
  | VString s =>
      match iso_fields (take 10 s) with
      | Some _ => take 2 (drop 8 s) ++ str "/" ++ take 2 (drop 5 s)
                  ++ str "/" ++ take 4 s
      | None => str "Invalid Date"
      end
  | _ => str "Invalid Date"
  end.

Definition to_string (v : value) : jsstring :=
  match v with
  | VUndefined => str "undefined"
  | VNull => str "null"
  | VBool true => str "true"
  | VBool false => str "false"
  | VNumber NaN => str "NaN"
  | VNumber (Int z) => str (NilZero.string_of_int (Z.to_int z))
  | VString s => s
  | VObject _ => str "[object Object]"
  end.

Definition lower (c : N) : N :=
  if ((65 <=? c) && (c <=? 90)
      || (192 <=? c) && (c <=? 222) && negb (c =? 215))%N
  then (c + 32)%N else c.

(** Base letter and combining mark of a capital letter of Latin-1. *)
Definition capital_parts (c : N) : option (N * N) :=
  let mark (k : N) : N :=
    match k with
    | 0 => 768 | 1 => 769 | 2 => 770 | 3 => 771 | 4 => 776 | _ => 778
    end%N in
  if ((192 <=? c) && (c <=? 197))%N then Some (65, mark (c - 192))%N
  else if (c =? 199)%N then Some (67, 807)%N
  else if ((200 <=? c) && (c <=? 203))%N
       then Some (69, mark (if (c =? 203)%N then 4 else c - 200))%N
  else if ((204 <=? c) && (c <=? 207))%N
       then Some (73, mark (if (c =? 207)%N then 4 else c - 204))%N
  else if (c =? 209)%N then Some (78, 771)%N
  else if ((210 <=? c) && (c <=? 214))%N then Some (79, mark (c - 210))%N
  else if ((217 <=? c) && (c <=? 220))%N
       then Some (85, mark (if (c =? 220)%N then 4 else c - 217))%N
  else if (c =? 221)%N then Some (89, 769)%N
  else None.

Definition decompose (c : N) : jsstring :=
  if (c =? 255)%N then [121; 776]%N
  else if ((224 <=? c) && (c <=? 253))%N then
    match capital_parts (c - 32) with
    | Some (b, m) => [b + 32; m]%N
    | None => [c]
    end
  else
    match capital_parts c with
    | Some (b, m) => [b; m]
    | None => [c]
    end.

#[export] Instance host : Host := {|
  now := 1767225600000;
  timeValue := iso_time;
  toLocaleDateString := local_date;
  toStringValue := to_string;
  toLowerCase := map lower;
  normalizeNFD := fun s => s ≫= decompose
|}.

End ExampleHost.

(** ** The validation of a record, as the servers decide it *)
Module Validation.
Section WithHost.
Context `{Host}.

(** [sanitizeAtendimento] followed by [validateAtendimento]: the reported
    [isValid]. *)
Definition reported (a : atendimento) : outcome bool :=
  sanitized ← Service.sanitizeAtendimento a;
  validation ← Service.validateAtendimento sanitized;
  Ok (Service.isValid validation).

(** The verdict of the service, field by field. *)
Definition verdict (a : atendimento) : outcome bool :=
  n ← optcall_trim (nome a);
  p ← optcall_trim (profissional a);
  t ← optcall_trim (tipo a);
  o ← optcall_trim (observacoes a);
  short_nome ← too_short n;
  short_prof ← too_short p;
  future ← (if negb (truthy (data a)) then Ok false
            else d ← toPrimitive (data a);
                 Ok (number_gtb (timeValue d) (Int now)));
  Ok (negb short_nome && negb short_prof
      && truthy (data a) && negb future
      && truthy t && array_includes tiposValidos t).

(** A string whose trim has at least two code units. *)
Definition long_enough (v : value) : Prop :=
  exists s, v = VString s /\ (2 <= length (trim s))%nat.

(** Present, and not later than the clock: the date is that of the
    primitive the value converts to, and a value whose conversion throws
    has none. *)
Definition present_not_future (v : value) : Prop :=
  truthy v = true
  /\ exists d, toPrimitive v = Ok d
              /\ number_gtb (timeValue d) (Int now) = false.

(** One of the three tipos. *)
Definition tipo_valid (v : value) : Prop :=
  exists s, v = VString s /\ In s tiposValidos.

(** One of the three tipos once trimmed. *)
Definition trimmed_tipo_valid (v : value) : Prop :=
  exists s, v = VString s /\ In (trim s) tiposValidos.

(** At most 500 code units when present. *)
Definition short_observacoes (v : value) : Prop :=
  forall s, v = VString s -> (length s <= 500)%nat.

(** Absent, null or a string. *)
Definition string_or_absent (v : value) : Prop :=
  v = VUndefined \/ v = VNull \/ exists s, v = VString s.

(** The record fields as the specification lists them. *)
Definition stated_valid (a : atendimento) : Prop :=
  long_enough (nome a) /\ long_enough (profissional a) /\
  present_not_future (data a) /\ tipo_valid (tipo a) /\
  short_observacoes (observacoes a).

(** The records the service accepts. *)
Definition accepted (a : atendimento) : Prop :=
  long_enough (nome a) /\ long_enough (profissional a) /\
  present_not_future (data a) /\ trimmed_tipo_valid (tipo a) /\
  string_or_absent (observacoes a).

End WithHost.

(** A record with every field in order and 501 code units of notes. *)
Definition long_notes : atendimento :=
  {| nome := VString (str "Maria Silva");
     profissional := VString (str "Ana Costa");
     data := VString (str "2024-01-15");
     tipo := VString Psicologico;
     observacoes := VString (repeat 120%N 501) |}.

End Validation.

(** ** Acceptance of a body by the three servers on create *)
Module Variants.
Import Validation.
Section WithHost.
Context `{Host}.

(** The pooled service goes on to the INSERT. *)
Definition service_accepts (b : atendimento) : bool :=
  negb (no_query (Service.create b)).

(** The raw server goes on to the INSERT. *)
Definition raw_accepts (b : atendimento) : bool :=
  negb (no_query (RawPg.post b)).

(** The mock server answers 201. *)
Definition mock_accepts (st : Mock.store) (b : atendimento) : bool :=
  match (Mock.post b st).2 with
  | Ok r => status r =? 201
  | Raise _ => false
  end.

(** Falsy, or a string. *)
Definition falsy_or_string (v : value) : Prop :=
  truthy v = false \/ exists s, v = VString s.

(** The conversion to a primitive does not throw. *)
Definition converts (v : value) : Prop := exists d, toPrimitive v = Ok d.

(** The bodies the mock server stores and answers 201: the data is
    converted when the stored record is formatted for the response. *)
Definition mock_accepted (b : atendimento) : Prop :=
  long_enough (nome b) /\ long_enough (profissional b) /\
  truthy (data b) = true /\ tipo_valid (tipo b) /\
  falsy_or_string (observacoes b) /\ converts (data b).

(** Not later than the clock, when there is a date to compare. *)
Definition not_future (v : value) : Prop :=
  forall d, toPrimitive v = Ok d ->
            number_gtb (timeValue d) (Int now) = false.

(** The INSERT of server-postgres.js for a body: the fields as they were
    received, an empty string for a falsy observacoes. *)
Definition raw_insert (b : atendimento) : query dbrow :=
  Insert (nome b) (profissional b) (data b) (tipo b)
    (if truthy (observacoes b) then observacoes b else VString []).

(** The code units of a string value. *)
Definition text (v : value) : jsstring :=
  match v with
  | VString s => s
  | _ => []
  end.

End WithHost.

(** A body with an empty nome and every other field in order. *)
Definition empty_nome : atendimento :=
  {| nome := VString [];
     profissional := VString (str "Ana Costa");
     data := VString (str "2024-01-15");
     tipo := VString Psicologico;
     observacoes := VString [] |}.

(** A body in order. *)
Definition in_order : atendimento :=
  {| nome := VString (str "Maria Silva");
     profissional := VString (str "Ana Costa");
     data := VString (str "2024-01-15");
     tipo := VString Psicologico;
     observacoes := VUndefined |}.

End Variants.

(** ** The responses of POST /api/atendimento *)
Module Create.
Section WithHost.
Context `{Host}.

(** The INSERT issued for a sanitized record. *)
Definition insert_of (sane : atendimento) : query dbrow :=
  Insert (nome sane) (profissional sane) (data sane) (tipo sane)
    (observacoes sane).

(** The 201 response of the controller for the inserted row. *)
Definition created (row : dbrow) : response Service.api_record :=
  respond 201 true (Some (Service.mapAtendimentoToResponse row))
    (Some (str "Atendimento criado com sucesso")) None.

(** The response of the controller when the INSERT is rejected with
    message [m]. *)
Definition insert_failed (m : jsstring) : response Service.api_record :=
  let e := Error (str "Erro ao criar atendimento: " ++ m) in
  match Controller.invalid_data e with
  | Some m' => Controller.bad_request m'
  | None => Controller.internal_error e
  end.

(** The store of the mock server after [novo] was pushed. *)
Definition mock_stored (st : Mock.store) (novo : Mock.record) : Mock.store :=
  {| Mock.atendimentos := Mock.atendimentos st ++ [novo];
     Mock.nextId := Mock.nextId st + 1 |}.

(** The store of the mock server after [nextId++] alone. *)
Definition mock_bumped (st : Mock.store) : Mock.store :=
  {| Mock.atendimentos := Mock.atendimentos st;
     Mock.nextId := Mock.nextId st + 1 |}.

(** The 201 response of the mock server, with the pushed record as it
    is formatted. *)
Definition mock_created (shown : Mock.record) : response Mock.record :=
  respond 201 true (Some shown)
    (Some (str "Atendimento criado com sucesso")) None.

End WithHost.

(** A database that rejects every statement. *)
Definition down (X : Type) (q : query X) (s : unit)
    : unit * (jsstring + X) :=
  (s, inl (str "connect ECONNREFUSED 127.0.0.1:5432")).

(** A body that passes the four checks, with a number as observacoes. *)
Definition numeric_notes : atendimento :=
  {| nome := VString (str "Maria Silva");
     profissional := VString (str "Ana Costa");
     data := VString (str "2024-01-15");
     tipo := VString Psicologico;
     observacoes := VNumber (Int 5) |}.

(** A body that passes the four checks of the mock server, whose data is
    an object with an own [toString] that is not a function, as the JSON
    text [{"toString": null}] is parsed. *)
Definition unconvertible_data : atendimento :=
  {| nome := VString (str "Maria Silva");
     profissional := VString (str "Ana Costa");
     data := VObject None;
     tipo := VString Psicologico;
     observacoes := VUndefined |}.

End Create.

(** ** Requests that name a record by its id *)
Module ById.

Definition isDigit (c : N) : bool := ((48 <=? c) && (c <=? 57))%N.

(** The number written by a string of decimal digits. *)
Definition decimal_value (ds : jsstring) : Z :=
  fold_left (fun acc c => acc * 10 + (Z.of_N c - 48)) ds 0.

Definition starts_with_digit (rest : jsstring) : bool :=
  match rest with
  | c :: _ => isDigit c
  | [] => false
  end.

(** The digits are a lone [0] and an [x] or [X] follows. *)
Definition hex_prefix (ds rest : jsstring) : bool :=
  match ds, rest with
  | [c0], c1 :: _ => ((c0 =? 48) && ((c1 =? 120) || (c1 =? 88)))%N
  | _, _ => false
  end.

Definition nonempty (s : jsstring) : bool :=
  match s with [] => false | _ :: _ => true end.

(** A leading integer [ds] followed by characters [rest] that are not
    digits. *)
Definition stated_leading (ds rest : jsstring) : bool :=
  nonempty ds && forallb isDigit ds
  && nonempty rest && forallb (fun c => negb (isDigit c)) rest.

(** A leading decimal integer [ds]: what follows does not start with a
    digit, and the string does not start with [0x] or [0X]. *)
Definition leading_integer (ds rest : jsstring) : bool :=
  nonempty ds && forallb isDigit ds
  && negb (starts_with_digit rest) && negb (hex_prefix ds rest).

Section WithHost.
Context `{Host}.

(** The responses of the controller. *)
Definition bad_id : response Service.api_record :=
  Controller.bad_request msg_id_invalido.

Definition found (row : dbrow) : response Service.api_record :=
  respond 200 true (Some (Service.mapAtendimentoToResponse row))
    (Some (str "Atendimento encontrado com sucesso")) None.

Definition deleted : response Service.api_record :=
  respond 200 true None (Some (str "Atendimento deletado com sucesso")) None.

Definition select_failed (m : jsstring) : response Service.api_record :=
  Controller.internal_error (Error (str "Erro ao buscar atendimento: " ++ m)).

Definition delete_failed (m : jsstring) : response Service.api_record :=
  Controller.internal_error (Error (str "Erro ao deletar atendimento: " ++ m)).

(** The responses of the mock server. *)
Definition mock_found (shown : Mock.record) : response Mock.record :=
  respond 200 true (Some shown) None None.

Definition mock_deleted : response Mock.record :=
  respond 200 true None (Some (str "Atendimento deletado com sucesso")) None.

(** The records of the store whose id is not [i]. *)
Definition without (i : number) (st : Mock.store) : Mock.store :=
  {| Mock.atendimentos :=
       List.filter (fun a => negb (number_eqb (Mock.id a) i))
         (Mock.atendimentos st);
     Mock.nextId := Mock.nextId st |}.

End WithHost.
End ById.

(** ** The invariant of the mock server *)
Module MockInvariant.

(** The ids of the array, in order. *)
Definition ids (st : Mock.store) : list number :=
  map Mock.id (Mock.atendimentos st).

(** [nextId] is greater than every id of the array, and the ids of the
    array are pairwise distinct. *)
Definition invariant (st : Mock.store) : Prop :=
  NoDup (ids st)
  /\ Forall (fun i => exists z, i = Int z /\ z < Mock.nextId st) (ids st).

End MockInvariant.

(** ** Sequences of operations on the cache *)
Module CacheTrace.
Section Trace.
Context {D : Type}.

Inductive op :=
| DoGet (t : Z) (key : jsstring)
| DoSet (t : Z) (key : jsstring) (d : D)
| DoInvalidate (pattern : jsstring)
| DoClear.

(** The cache after one operation. *)
Definition apply (o : op) (cache : gmap jsstring (APICache.item D))
    : gmap jsstring (APICache.item D) :=
  match o with
  | DoGet t key => (APICache.get t key cache).1
  | DoSet t key d => APICache.set t key d cache
  | DoInvalidate pattern => APICache.invalidate pattern cache
  | DoClear => APICache.clear cache
  end.

Definition run (ops : list op) (cache : gmap jsstring (APICache.item D))
    : gmap jsstring (APICache.item D) :=
  foldl (fun c o => apply o c) cache ops.

(** The operation is no later [set] of [key], no [clear], no [invalidate]
    of a pattern found in [key], and no [get] of [key] after the expiry
    [e]. *)
Definition keeps (key : jsstring) (e : Z) (o : op) : bool :=
  match o with
  | DoGet t k => negb (jsstring_eqb k key) || (t <=? e)
  | DoSet _ k _ => negb (jsstring_eqb k key)
  | DoInvalidate pattern => negb (includes key pattern)
  | DoClear => false
  end.

(** The operation is no [set] of [key]. *)
Definition sets_not (key : jsstring) (o : op) : bool :=
  match o with
  | DoSet _ k _ => negb (jsstring_eqb k key)
  | _ => true
  end.

End Trace.
Arguments op D : clear implicits.
End CacheTrace.

(** ** The records kept by the filters *)
Module FilterSpec.
Import Service StringUtils AtendimentoFilters ById.
Section WithHost.
Context `{Host}.

(** Lower case without accents: a comparison that ignores case and
    accents, and nothing else. *)
Definition fold_case (s : jsstring) : jsstring :=
  List.filter (fun c => negb (isCombining c)) (normalizeNFD (toLowerCase s)).

(** The field contains the term, both in lower case without accents. *)
Definition stated_contains (v : value) (term : jsstring) : bool :=
  match v with
  | VString s => includes (fold_case s) (fold_case term)
  | _ => false
  end.

(** The records kept when the term is compared without trimming. *)
Definition stated_keep (f : filters) (a : api_record) : bool :=
  (negb (nonempty (f_tipo f)) || strict_eq_string (r_tipo a) (f_tipo f))
  && (negb (nonempty (search f))
      || stated_contains (r_nome a) (search f)
      || stated_contains (r_profissional a) (search f)
      || stated_contains (r_observacoes a) (search f)).

(** Lower case, trimmed, without accents; empty when the string or its
    trim is empty. *)
Definition clean (s : jsstring) : jsstring :=
  let t := trim (toLowerCase s) in
  if nonempty s && nonempty t
  then List.filter (fun c => negb (isCombining c)) (normalizeNFD t)
  else [].

(** The clean text of a field; a field that is not a string has none. *)
Definition cleaned (v : value) : jsstring :=
  match v with
  | VString s => clean s
  | _ => []
  end.

(** The field is truthy and its clean text contains the clean term. *)
Definition matches (v : value) (term : jsstring) : bool :=
  truthy v && includes (cleaned v) (clean term).

(** The records the filters keep. *)
Definition keep (f : filters) (a : api_record) : bool :=
  (negb (nonempty (f_tipo f)) || strict_eq_string (r_tipo a) (f_tipo f))
  && (negb (nonempty (search f))
      || matches (r_nome a) (search f)
      || matches (r_profissional a) (search f)
      || matches (r_observacoes a) (search f)).

End WithHost.

(** A record of the list, and a search term with a space after it. *)
Definition ana : api_record :=
  {| r_id := 1;
     r_nome := VString (str "Ana");
     r_profissional := VString (str "Bia");
     r_data := str "15/01/2024";
     r_dataISO := VString (str "2024-01-15");
     r_tipo := VString Psicologico;
     r_observacoes := VString [];
     r_createdAt := VNull;
     r_updatedAt := VNull |}.

Definition ana_space : filters := {| search := str "ana "; f_tipo := [] |}.

Definition by_tipo : filters := {| search := []; f_tipo := Psicologico |}.

End FilterSpec.

(** ** The records and the runs of the mock server *)
Module MockStore.
Import MockInvariant.

(** A record as POST and PUT write it: nome, profissional, tipo and
    observacoes trimmed, nome and profissional of two code units at least,
    a tipo of the list, a data that is present and copied to dataISO. *)
Definition well_formed (a : Mock.record) : Prop :=
  (2 <= length (Mock.m_nome a))%nat
  /\ trim (Mock.m_nome a) = Mock.m_nome a
  /\ (2 <= length (Mock.m_profissional a))%nat
  /\ trim (Mock.m_profissional a) = Mock.m_profissional a
  /\ truthy (Mock.m_data a) = true
  /\ Mock.m_dataISO a = Mock.m_data a
  /\ In (Mock.m_tipo a) tiposValidos
  /\ trim (Mock.m_observacoes a) = Mock.m_observacoes a.

Section WithHost.
Context `{Host}.

(** The store after a sequence of requests. *)
Definition serve_all (rqs : list Mock.request) (st : Mock.store)
    : Mock.store :=
  foldl (fun s rq => (Mock.serve rq s).1) st rqs.

(** The 200 response of PUT, with the new record as it is formatted. *)
Definition mock_updated (shown : Mock.record) : response Mock.record :=
  respond 200 true (Some shown)
    (Some (str "Atendimento atualizado com sucesso")) None.

(** The 200 response of the listing. *)
Definition mock_listed (shown : list Mock.record)
    : response (list Mock.record) :=
  respond 200 true (Some shown) None None.

End WithHost.
End MockStore.

(** ** What the layered server sends to the database *)
Module Layered.
Section WithHost.
Context `{Host}.

(** A field as [sanitizeAtendimento] leaves it: undefined, or a trimmed
    string. *)
Definition clean_field (v : value) : Prop :=
  v = VUndefined \/ exists s, v = VString s /\ trim s = s.

(** The UPDATE issued for a sanitized record. *)
Definition update_of (sane : atendimento) (id : number)
    : query (list dbrow) :=
  Update (nome sane) (profissional sane) (data sane) (tipo sane)
    (observacoes sane) id.

(** The responses of the controller to a PUT. *)
Definition updated (row : dbrow) : response Service.api_record :=
  respond 200 true (Some (Service.mapAtendimentoToResponse row))
    (Some (str "Atendimento atualizado com sucesso")) None.

Definition update_failed (m : jsstring) : response Service.api_record :=
  let e := Error (str "Erro ao atualizar atendimento: " ++ m) in
  match Controller.invalid_data e with
  | Some m' => Controller.bad_request m'
  | None => Controller.internal_error e
  end.

(** The responses of the controller to the listing. *)
Definition listed (rows : list dbrow)
    : response (list Service.api_record) :=
  respond 200 true (Some (map Service.mapAtendimentoToResponse rows))
    (Some (str "Atendimentos listados com sucesso")) None.

Definition list_failed (m : jsstring) : response (list Service.api_record) :=
  Controller.internal_error
    (Error (str "Erro ao buscar atendimentos: " ++ m)).

End WithHost.

(** The statement reads and does not write. *)
Definition is_select {X} (q : query X) : bool :=
  match q with
  | SelectAll | SelectById _ => true
  | _ => false
  end.

(** The handler sends one statement at most. *)
Definition one_statement {A} (p : prog A) : Prop :=
  match p with
  | Await _ k => forall r, no_query (k r) = true
  | _ => True
  end.

(** The handler sends one statement at most, and only a SELECT. *)
Definition reads_only {A} (p : prog A) : Prop :=
  match p with
  | Await q k => is_select q = true /\ forall r, no_query (k r) = true
  | _ => True
  end.

(** A body whose nome is a number. *)
Definition numeric_nome : atendimento :=
  {| nome := VNumber (Int 5);
     profissional := VString (str "Ana Costa");
     data := VString (str "2024-01-15");
     tipo := VString Psicologico;
     observacoes := VUndefined |}.

(** A body with white space around its fields. *)
Definition padded : atendimento :=
  {| nome := VString (str "  Maria Silva ");
     profissional := VString (str " Ana Costa");
     data := VString (str "2024-01-15");
     tipo := VString (str " " ++ Psicologico ++ str "  ");
     observacoes := VString (str "   ") |}.

End Layered.

(** ** server-postgres.js: the PUT handler *)
Module RawPgPut.
Section WithHost.
Context `{Host}.

(** [{...row, data: new Date(row.data).toLocaleDateString('pt-BR')}] *)
Definition formatted (row : dbrow) : dbrow :=
  {| row_id := row_id row;
     row_nome := row_nome row;
     row_profissional := row_profissional row;
     row_data := VString (toLocaleDateString (row_data row));
     row_tipo := row_tipo row;
     row_observacoes := row_observacoes row;
     row_created_at := row_created_at row;
     row_updated_at := row_updated_at row |}.

Definition put (id_param : jsstring) (body : atendimento)
    : prog (response dbrow) :=
  let id := parseInt id_param in
  Await (Update (nome body) (profissional body) (data body) (tipo body)
           (if truthy (observacoes body) then observacoes body
            else VString []) id)
    (fun result : jsstring + list dbrow =>
       match result with
       | inl m =>
           Ret (respond 500 false None (Some msg_erro_interno) None)
       | inr [] =>
           Ret (respond 404 false None (Some msg_nao_encontrado) None)
       | inr (atendimentoAtualizado :: _) =>
           Ret (respond 200 true (Some (formatted atendimentoAtualizado))
                  (Some (str "Atendimento atualizado com sucesso")) None)
       end).

End WithHost.
End RawPgPut.

(** ** src/frontend/js/api.js: the API behind the cache *)
Module CachedAPI.
Section WithHost.
Context `{Host}.
(** What [AtendimentoAPI] returns, and its ToBoolean. *)
Context {D : Type}.
Variable truthyD : D -> bool.

(** [APICache.generateKey(method, url)] *)
Definition generateKey (method url : jsstring) : jsstring :=
  toLowerCase method ++ str "_" ++ url.

(** The methods of [AtendimentoAPI] that the wrapper awaits; an id stands
    in the URL as its string. *)
Inductive call :=
| GetAll
| GetById (id : jsstring)
| Create (atendimentoData : atendimento)
| Update (id : jsstring) (atendimentoData : atendimento)
| Delete (id : jsstring).

(** A method of the wrapper: it has returned, with the cache as it left it,
    or it awaits a call and goes on with the outcome of the call, the
    cache as it is by then and the reading of the clock by then. *)
Inductive io :=
| Done (cache : gmap jsstring (APICache.item D)) (r : outcome D)
| Awaiting (cache : gmap jsstring (APICache.item D)) (c : call)
    (k : outcome D -> gmap jsstring (APICache.item D) -> Z ->
         gmap jsstring (APICache.item D) * outcome D).

(** [if (cached) return cached], else the call, [APICache.set] and the
    data. *)
Definition through_cache (cacheKey : jsstring) (c : call) (t : Z)
    (cache : gmap jsstring (APICache.item D)) : io :=
  let '(cache1, cached) := APICache.get t cacheKey cache in
  let fetch :=
    Awaiting cache1 c (fun answer cache2 t2 =>
      match answer with
      | Ok data => (APICache.set t2 cacheKey data cache2, Ok data)
      | Raise e => (cache2, Raise e)
      end) in
  match cached with
  | Some d => if truthyD d then Done cache1 (Ok d) else fetch
  | None => fetch
  end.

Definition getAll (t : Z) (cache : gmap jsstring (APICache.item D)) : io :=
  through_cache (generateKey (str "GET") (str "atendimentos")) GetAll t cache.

Definition getById (id : jsstring) (t : Z)
    (cache : gmap jsstring (APICache.item D)) : io :=
  through_cache (generateKey (str "GET") (str "atendimento/" ++ id))
    (GetById id) t cache.

(** The call, then [APICache.invalidate(pattern)] and the data. *)
Definition then_invalidate (pattern : jsstring) (c : call)
    (cache : gmap jsstring (APICache.item D)) : io :=
  Awaiting cache c (fun answer cache2 _ =>
    match answer with
    | Ok data => (APICache.invalidate pattern cache2, Ok data)
    | Raise e => (cache2, Raise e)
    end).

Definition create (atendimentoData : atendimento)
    (cache : gmap jsstring (APICache.item D)) : io :=
  then_invalidate (str "atendimentos") (Create atendimentoData) cache.

Definition update (id : jsstring) (atendimentoData : atendimento)
    (cache : gmap jsstring (APICache.item D)) : io :=
  then_invalidate (str "atendimento") (Update id atendimentoData) cache.

Definition delete (id : jsstring)
    (cache : gmap jsstring (APICache.item D)) : io :=
  then_invalidate (str "atendimento") (Delete id) cache.

(** The cache and the result once the awaited call has answered. *)
Definition resume (p : io) (answer : outcome D)
    (cache : gmap jsstring (APICache.item D)) (t : Z)
    : gmap jsstring (APICache.item D) * outcome D :=
  match p with
  | Done c r => (c, r)
  | Awaiting _ _ k => k answer cache t
  end.

(** The wrapper returned without a call. *)
Definition without_call (p : io) : bool :=
  match p with
  | Done _ _ => true
  | Awaiting _ _ _ => false
  end.

End WithHost.
Arguments io D : clear implicits.
End CachedAPI.

(** ** The dates of the frontend *)
Module DateUtils.
Section WithHost.
Context `{Host}.

(** Time value of [today] after [today.setHours(0, 0, 0, 0)]: the start of
    the current day in local time. *)
Variable today : Z.

(** A field of the form data: a string, or [undefined] when the form has
    no such entry. *)
Definition field (v : option jsstring) : value :=
  match v with
  | Some s => VString s
  | None => VUndefined
  end.

Definition isValidDate (date : option jsstring) : bool :=
  match date with
  | Some s =>
      if negb (truthy (VString s)) then false
      else negb (isNaN (timeValue (VString s)))
  | None => false
  end.

(** [dateObj > today] compares the two time values. *)
Definition isFutureDate (date : option jsstring) : bool :=
  if negb (isValidDate date) then false
  else
    match date with
    | Some s => number_gtb (timeValue (VString s)) (Int today)
    | None => false
    end.

End WithHost.
End DateUtils.

(** ** The frontend validation of the form *)
Module ValidationUtils.
Import DateUtils.

Record result := { valid : bool; message : jsstring }.

Definition passed : result := {| valid := true; message := [] |}.
Definition failed (m : jsstring) : result := {| valid := false; message := m |}.

Definition obrigatorio : jsstring :=
  [233%N] ++ str " obrigat" ++ [243%N] ++ str "rio".
Definition nome_obrigatorio : jsstring := str "Nome " ++ obrigatorio.
Definition nome_maximo : jsstring :=
  str "Nome deve ter no m" ++ [225%N] ++ str "ximo 100 caracteres".
Definition profissional_obrigatorio : jsstring :=
  str "Profissional " ++ obrigatorio.
Definition profissional_minimo : jsstring :=
  str "Nome do profissional deve ter pelo menos 2 caracteres".
Definition profissional_maximo : jsstring :=
  str "Nome do profissional deve ter no m" ++ [225%N]
  ++ str "ximo 100 caracteres".
Definition data_invalida : jsstring :=
  str "Data inv" ++ [225%N] ++ str "lida".
Definition tipo_obrigatorio : jsstring :=
  str "Tipo de atendimento " ++ obrigatorio.
Definition observacoes_maximo : jsstring :=
  str "Observa" ++ [231%N; 245%N] ++ str "es devem ter no m" ++ [225%N]
  ++ str "ximo 500 caracteres".

(** [formData] as [FormManager.getFormData] builds it: the entries of the
    form, each a string. *)
Record form := {
  form_nome : option jsstring;
  form_profissional : option jsstring;
  form_data : option jsstring;
  form_tipo : option jsstring;
  form_observacoes : option jsstring
}.

(** [{ isValid, errors }]: the keys of [errors] in the order they are
    set. *)
Record form_validation := {
  isValid : bool;
  errors : list (jsstring * jsstring)
}.

Section WithHost.
Context `{Host}.
Variable today : Z.

Definition validateNome (nome : option jsstring) : result :=
  match nome with
  | Some s =>
      if negb (truthy (VString s)) then failed nome_obrigatorio
      else
        let trimmedNome := trim s in
        if jslength trimmedNome <? 2 then failed msg_nome
        else if 100 <? jslength trimmedNome then failed nome_maximo
        else passed
  | None => failed nome_obrigatorio
  end.

Definition validateProfissional (profissional : option jsstring) : result :=
  match profissional with
  | Some s =>
      if negb (truthy (VString s)) then failed profissional_obrigatorio
      else
        let trimmedProf := trim s in
        if jslength trimmedProf <? 2 then failed profissional_minimo
        else if 100 <? jslength trimmedProf then failed profissional_maximo
        else passed
  | None => failed profissional_obrigatorio
  end.

Definition validateData (data : option jsstring) : result :=
  if negb (truthy (field data)) then failed msg_data
  else if negb (isValidDate data) then failed data_invalida
  else if isFutureDate today data then failed msg_futura
  else passed.

Definition validateTipo (tipo : option jsstring) : result :=
  if negb (truthy (field tipo)) then failed tipo_obrigatorio
  else if negb (array_includes tiposValidos (field tipo)) then failed msg_tipo
  else passed.

Definition validateObservacoes (observacoes : option jsstring) : result :=
  match observacoes with
  | Some s =>
      if truthy (VString s) && (500 <? jslength s)
      then failed observacoes_maximo
      else passed
  | None => passed
  end.

(** One step of [validateForm]: on a failed validation the message is set
    under the key of the field and [isValid] becomes false. *)
Definition noted (key : jsstring) (r : result) (acc : form_validation)
    : form_validation :=
  if negb (valid r)
  then {| isValid := false; errors := errors acc ++ [(key, message r)] |}
  else acc.

Definition validateForm (formData : form) : form_validation :=
  let acc := {| isValid := true; errors := [] |} in
  let acc := noted (str "nome") (validateNome (form_nome formData)) acc in
  let acc :=
    noted (str "profissional")
      (validateProfissional (form_profissional formData)) acc in
  let acc := noted (str "data") (validateData (form_data formData)) acc in
  let acc := noted (str "tipo") (validateTipo (form_tipo formData)) acc in
  let acc :=
    noted (str "observacoes")
      (validateObservacoes (form_observacoes formData)) acc in
  acc.

End WithHost.

(** The body the server reads after [JSON.stringify(formData)]: the
    strings as they are, a missing entry missing. *)
Definition request_body (formData : form) : atendimento :=
  {| nome := field (form_nome formData);
     profissional := field (form_profissional formData);
     data := field (form_data formData);
     tipo := field (form_tipo formData);
     observacoes := field (form_observacoes formData) |}.

(** The form in order: the fields are strings, nome and profissional have
    2 to 100 code units once trimmed, data is a date not later than the
    start of the day, tipo is one of the three, and observacoes has at
    most 500 code units. *)
Definition name_in_order (v : option jsstring) : Prop :=
  exists s, v = Some s /\ 2 <= jslength (trim s) <= 100.

Definition form_in_order `{Host} (today : Z) (formData : form) : Prop :=
  name_in_order (form_nome formData)
  /\ name_in_order (form_profissional formData)
  /\ (exists s z, form_data formData = Some s /\ s <> []
        /\ timeValue (VString s) = Int z /\ z <= today)
  /\ (exists s, form_tipo formData = Some s /\ In s tiposValidos)
  /\ (forall s, form_observacoes formData = Some s -> jslength s <= 500).

(** A form filled in. *)
Definition filled : form :=
  {| form_nome := Some (str "Maria Silva");
     form_profissional := Some (str "Ana Costa");
     form_data := Some (str "2024-01-15");
     form_tipo := Some Psicologico;
     form_observacoes := Some [] |}.

End ValidationUtils.

(** ** The text of a card *)
Module Cards.
Import StringUtils.

(** [s.substring(0, end)] for an integer [end]. *)
Definition substring_to (s : jsstring) (end' : Z) : jsstring :=
  firstn (Z.to_nat end') s.

(** [StringUtils.truncate(str, length)] for an integer [length]. *)
Definition truncate (v : value) (len : Z) : jsstring :=
  match v with
  | VString s =>
      if not_a_text v then []
      else if jslength s <=? len then s
      else trim (substring_to s len) ++ str "..."
  | _ => []
  end.

End Cards.

(** * Properties *)

(** ** Strings *)
Module JSFacts.

(** Distinct ids of a list written out. *)
Ltac distinct_ids :=
  repeat (apply NoDup_cons_2;
          [rewrite ?elem_of_cons, elem_of_nil; intuition discriminate|]);
  apply NoDup_nil_2.


Lemma trimStart_head s c r :
  trimStart s = c :: r -> isWhiteSpace c = false.
Proof.
  induction s as [|a s IH]; simpl; [discriminate|].
  destruct (isWhiteSpace a) eqn:Ha; [exact IH|].
  intros [= <- <-]. exact Ha.
Qed.

Lemma trimStart_cons c r :
  isWhiteSpace c = false -> trimStart (c :: r) = c :: r.
Proof. intros Hc. simpl. by rewrite Hc. Qed.

Lemma trimStart_idem s : trimStart (trimStart s) = trimStart s.
Proof.
  destruct (trimStart s) as [|c r] eqn:E; [reflexivity|].
  apply trimStart_cons. eauto using trimStart_head.
Qed.

Lemma trimStart_snoc l c :
  isWhiteSpace c = false -> trimStart (l ++ [c]) = trimStart l ++ [c].
Proof.
  intros Hc. induction l as [|a l IH]; simpl.
  - by rewrite Hc.
  - destruct (isWhiteSpace a); [exact IH | reflexivity].
Qed.

Lemma trimEnd_cons c r :
  isWhiteSpace c = false -> trimEnd (c :: r) = c :: trimEnd r.
Proof.
  intros Hc. unfold trimEnd. simpl rev.
  rewrite trimStart_snoc by exact Hc.
  by rewrite rev_app_distr.
Qed.

Lemma trimEnd_idem s : trimEnd (trimEnd s) = trimEnd s.
Proof.
  unfold trimEnd. by rewrite rev_involutive, trimStart_idem.
Qed.

Lemma trimStart_trim s : trimStart (trim s) = trim s.
Proof.
  unfold trim. destruct (trimStart s) as [|c r] eqn:E; [reflexivity|].
  pose proof (trimStart_head _ _ _ E) as Hc.
  rewrite trimEnd_cons by exact Hc. by apply trimStart_cons.
Qed.

(** [trim] is idempotent: a sanitized field is validated unchanged. *)
Lemma trim_idem s : trim (trim s) = trim s.
Proof.
  unfold trim at 1. rewrite trimStart_trim.
  unfold trim. apply trimEnd_idem.
Qed.

Lemma startsWith_app p r : startsWith (p ++ r) p = true.
Proof.
  induction p as [|a p IH]; [reflexivity|].
  simpl. by rewrite N.eqb_refl.
Qed.

Lemma startsWith_spec s p : startsWith s p = true <-> exists r, s = p ++ r.
Proof.
  split.
  - revert s. induction p as [|a p IH]; intros s Hs.
    + by exists s.
    + destruct s as [|b s]; simpl in Hs; [discriminate|].
      apply andb_prop in Hs as [Hab Hs]. apply N.eqb_eq in Hab as ->.
      destruct (IH _ Hs) as [r ->]. by exists r.
  - intros [r ->]. apply startsWith_app.
Qed.

Lemma includes_startsWith s p : startsWith s p = true -> includes s p = true.
Proof. intros Hs. destruct s; simpl; by rewrite Hs. Qed.

(** [includes] decides the substring relation. *)
Lemma includes_spec s p :
  includes s p = true <-> exists a b, s = a ++ p ++ b.
Proof.
  split.
  - induction s as [|c s IH]; simpl; intros Hs.
    + rewrite orb_false_r in Hs. apply startsWith_spec in Hs as [r Hr].
      by exists [], r.
    + apply orb_prop in Hs as [Hs|Hs].
      * apply startsWith_spec in Hs as [r Hr]. by exists [], r.
      * destruct (IH Hs) as (a & b & ->). by exists (c :: a), b.
  - intros (a & b & ->). induction a as [|c a IH].
    + change (includes (p ++ b) p = true).
      apply includes_startsWith, startsWith_app.
    + simpl. simpl in IH. rewrite IH. apply orb_true_r.
Qed.

Lemma includes_app_l p r : includes (p ++ r) p = true.
Proof. apply includes_spec. by exists [], r. Qed.

Lemma jsstring_eqb_eq a b : jsstring_eqb a b = true <-> a = b.
Proof. unfold jsstring_eqb. apply bool_decide_eq_true. Qed.

Lemma truthy_string s : truthy (VString s) = negb (jsstring_eqb s []).
Proof. reflexivity. Qed.

Lemma truthy_string_false s : truthy (VString s) = false <-> s = [].
Proof.
  rewrite truthy_string, negb_false_iff. apply jsstring_eqb_eq.
Qed.

End JSFacts.

(** ** The validation of the service *)
Module ValidationFacts.
Import JSFacts Validation.
Section WithHost.
Context `{Host}.

Lemma optcall_trim_inv v v' :
  optcall_trim v = Ok v' ->
  (v' = VUndefined /\ (v = VUndefined \/ v = VNull))
  \/ exists s, v = VString s /\ v' = VString (trim s).
Proof.
  destruct v; simpl; intros [= <-]; eauto.
Qed.

Lemma too_short_undefined : too_short VUndefined = Ok true.
Proof. reflexivity. Qed.

(** On a trimmed string the test reads the length of the trim. *)
Lemma too_short_trimmed s :
  too_short (VString (trim s)) = Ok (jslength (trim s) <? 2).
Proof.
  unfold too_short. rewrite truthy_string.
  destruct (jsstring_eqb (trim s) []) eqn:E; simpl.
  - apply jsstring_eqb_eq in E. by rewrite E.
  - by rewrite trim_idem.
Qed.

Lemma long_enough_length s :
  (jslength (trim s) <? 2) = false <-> (2 <= length (trim s))%nat.
Proof. unfold jslength. rewrite Z.ltb_ge. lia. Qed.

Lemma bind_Ok_inv {A B} (m : outcome A) (f : A -> outcome B) b :
  m ≫= f = Ok b -> exists a, m = Ok a /\ f a = Ok b.
Proof. destruct m as [a|e]; simpl; [eauto | discriminate]. Qed.

Lemma array_includes_In l s :
  array_includes l (VString s) = true <-> In s l.
Proof.
  simpl. rewrite existsb_exists. split.
  - intros (x & Hx & E). apply jsstring_eqb_eq in E. by subst.
  - intros Hs. exists s. split; [done | by apply jsstring_eqb_eq].
Qed.

Lemma reported_verdict a : reported a = verdict a.
Proof.
  unfold reported, verdict, Service.sanitizeAtendimento,
    Service.validateAtendimento.
  destruct (optcall_trim (nome a)) as [n|]; simpl; [|done].
  destruct (optcall_trim (profissional a)) as [p|]; simpl; [|done].
  destruct (optcall_trim (tipo a)) as [t|]; simpl; [|done].
  destruct (optcall_trim (observacoes a)) as [o|]; simpl; [|done].
  destruct (too_short n) as [[]|]; simpl; [| |done];
    (destruct (too_short p) as [[]|]; simpl; [| |done]);
    destruct (truthy (data a)); simpl;
    try (destruct (toPrimitive (data a)) as [d|]; simpl; [|done]);
    try match goal with
        | |- context [number_gtb ?x ?y] => destruct (number_gtb x y)
        end; simpl;
    destruct (truthy t); simpl;
    try destruct (array_includes tiposValidos t); reflexivity.
Qed.

Lemma tipos_nonempty s : In s tiposValidos -> s <> [].
Proof.
  intros Hs ->. simpl in Hs.
  destruct Hs as [E|[E|[E|[]]]]; discriminate E.
Qed.

Lemma verdict_accepted a : verdict a = Ok true <-> accepted a.
Proof.
  unfold verdict. split.
  - intros Hv.
    apply bind_Ok_inv in Hv as (n & Hn & Hv).
    apply bind_Ok_inv in Hv as (p & Hp & Hv).
    apply bind_Ok_inv in Hv as (t & Ht & Hv).
    apply bind_Ok_inv in Hv as (o & Ho & Hv).
    apply bind_Ok_inv in Hv as (sn & Hsn & Hv).
    apply bind_Ok_inv in Hv as (sp & Hsp & Hv).
    apply bind_Ok_inv in Hv as (future & Hfuture & Hv).
    injection Hv as Hv.
    repeat (apply andb_prop in Hv as [Hv ?]).
    apply negb_true_iff in Hv as ->.
    match goal with X : negb sp = true |- _ =>
      apply negb_true_iff in X as -> end.
    match goal with X : negb future = true |- _ =>
      apply negb_true_iff in X as -> end.
    match goal with X : truthy (data a) = true |- _ =>
      rewrite X in Hfuture end.
    apply bind_Ok_inv in Hfuture as (d & Hd & [= Hfuture]).
    unfold accepted.
    split; [|split; [|split; [split; [assumption | by exists d]|split]]].
    + apply optcall_trim_inv in Hn as [[-> _]|(s & E & ->)].
      * discriminate Hsn.
      * rewrite too_short_trimmed in Hsn. injection Hsn as Hsn.
        exists s. split; [done | by apply long_enough_length].
    + apply optcall_trim_inv in Hp as [[-> _]|(s & E & ->)].
      * discriminate Hsp.
      * rewrite too_short_trimmed in Hsp. injection Hsp as Hsp.
        exists s. split; [done | by apply long_enough_length].
    + apply optcall_trim_inv in Ht as [[-> _]|(s & E & ->)].
      * discriminate.
      * exists s. split; [done | by apply array_includes_In].
    + apply optcall_trim_inv in Ho as [[_ [E|E]]|(s & E & _)];
        unfold string_or_absent; eauto.
  - intros ((s1 & E1 & L1) & (s2 & E2 & L2) & (Hd & d & Hp & Hf)
            & (s3 & E3 & L3) & Ho).
    rewrite E1, E2, E3. simpl.
    assert (exists o, optcall_trim (observacoes a) = Ok o) as [o ->].
    { destruct Ho as [->|[->|[s ->]]]; simpl; eauto. }
    simpl. rewrite !too_short_trimmed. simpl.
    apply long_enough_length in L1 as ->. apply long_enough_length in L2 as ->.
    rewrite Hd. simpl. rewrite Hp. simpl. rewrite Hf. simpl.
    destruct (jsstring_eqb (trim s3) []) eqn:E.
    + apply jsstring_eqb_eq in E. by apply tipos_nonempty in L3.
    + simpl. f_equal. apply (array_includes_In tiposValidos (trim s3)), L3.
Qed.

Lemma reported_accepted a : reported a = Ok true <-> accepted a.
Proof. rewrite reported_verdict. apply verdict_accepted. Qed.

Lemma call_trim_TypeError v e : call_trim v = Raise e -> e = TypeError.
Proof. destruct v; simpl; congruence. Qed.

Lemma optcall_trim_TypeError v e : optcall_trim v = Raise e -> e = TypeError.
Proof. destruct v; simpl; congruence. Qed.

Lemma too_short_TypeError v e : too_short v = Raise e -> e = TypeError.
Proof.
  unfold too_short. destruct (truthy v); [|discriminate].
  destruct (call_trim v) as [s|e'] eqn:E; simpl; [discriminate|].
  intros [= <-]. by apply call_trim_TypeError in E.
Qed.

Lemma toPrimitive_TypeError v e : toPrimitive v = Raise e -> e = TypeError.
Proof. destruct v as [| | | | |[s|]]; simpl; congruence. Qed.

(** What sanitisation and validation throw is a TypeError of the engine:
    [trim] called on a value that is not a string, or a data whose
    conversion throws. *)
Lemma reported_TypeError a e : reported a = Raise e -> e = TypeError.
Proof.
  rewrite reported_verdict. unfold verdict.
  destruct (optcall_trim (nome a)) as [n|e1] eqn:E1; simpl;
    [|intros [= <-]; by apply optcall_trim_TypeError in E1].
  destruct (optcall_trim (profissional a)) as [p|e2] eqn:E2; simpl;
    [|intros [= <-]; by apply optcall_trim_TypeError in E2].
  destruct (optcall_trim (tipo a)) as [t|e3] eqn:E3; simpl;
    [|intros [= <-]; by apply optcall_trim_TypeError in E3].
  destruct (optcall_trim (observacoes a)) as [o|e4] eqn:E4; simpl;
    [|intros [= <-]; by apply optcall_trim_TypeError in E4].
  destruct (too_short n) as [sn|e5] eqn:E5; simpl;
    [|intros [= <-]; by apply too_short_TypeError in E5].
  destruct (too_short p) as [sp|e6] eqn:E6; simpl;
    [|intros [= <-]; by apply too_short_TypeError in E6].
  destruct (truthy (data a)); simpl; [|discriminate].
  destruct (toPrimitive (data a)) as [d|e7] eqn:E7; simpl; [discriminate|].
  intros [= <-]. by apply toPrimitive_TypeError in E7.
Qed.

End WithHost.

(** C1, as stated, fails: the service reports a record with 501 code units
    of observacoes valid, and the stated bound of 500 excludes it. *)
Lemma C1_counterexample :
  reported (H := ExampleHost.host) long_notes = Ok true
  /\ ~ stated_valid (H := ExampleHost.host) long_notes.
Proof.
  split; [vm_compute; reflexivity|].
  intros (_ & _ & _ & _ & Hobs).
  specialize (Hobs _ eq_refl). rewrite repeat_length in Hobs. lia.
Qed.

(** C1, amended: the service reports [isValid = true] exactly for the
    records whose nome and profissional are strings with a trim of at least
    two code units, whose data is present and not later than the clock,
    whose tipo is a string that is one of the three tipos once trimmed, and
    whose observacoes is absent, null or a string of any length. *)
Theorem C1_reported_valid `{Host} (a : atendimento) :
  reported a = Ok true <-> accepted a.
Proof.
  rewrite reported_verdict. split.
  - by intros Hv%verdict_accepted.
  - intros Ha. by apply verdict_accepted.
Qed.

End ValidationFacts.

(** ** The mock server, handler by handler *)
Module MockFacts.
Import JSFacts Validation ValidationFacts Variants.
(** Unfolds the state-and-exception monad of a handler. *)
Ltac run_handler :=
  cbv [Mock.post Mock.put Mock.delete Mock.get Mock.list_all
       Mock.try_catch mbind Mock.M_bind mret Mock.M_ret Mock.lift
       Mock.post_increment Mock.push Mock.read Mock.write].

Section WithHost.
Context `{Host}.

Lemma trim_nil : trim [] = [].
Proof. reflexivity. Qed.

Lemma too_short_false v : too_short v = Ok false <-> long_enough v.
Proof.
  unfold too_short, long_enough. split.
  - destruct (truthy v) eqn:Tv; simpl; [|discriminate].
    destruct v; simpl; try discriminate.
    intros [= E]. exists s. split; [done | by apply long_enough_length].
  - intros (s & -> & Hs). rewrite truthy_string.
    destruct (jsstring_eqb s []) eqn:E; simpl.
    + apply jsstring_eqb_eq in E. subst s. rewrite trim_nil in Hs.
      simpl in Hs. lia.
    + f_equal. by apply long_enough_length.
Qed.

Lemma tipo_valid_includes v :
  truthy v && array_includes tiposValidos v = true <-> tipo_valid v.
Proof.
  unfold tipo_valid. split.
  - intros Hv. apply andb_prop in Hv as [_ Hv].
    destruct v; try discriminate.
    exists s. split; [done | by apply array_includes_In].
  - intros (s & -> & Hs). apply andb_true_intro. split.
    + rewrite truthy_string. apply negb_true_iff.
      destruct (jsstring_eqb s []) eqn:E; [|done].
      apply jsstring_eqb_eq in E. by apply tipos_nonempty in Hs.
    + by apply array_includes_In.
Qed.

(** The four checks pass exactly on these bodies. *)
Lemma check_None b :
  Mock.check b = Ok None <->
  long_enough (nome b) /\ long_enough (profissional b) /\
  truthy (data b) = true /\ tipo_valid (tipo b).
Proof.
  unfold Mock.check. rewrite <- !too_short_false, <- tipo_valid_includes.
  destruct (too_short (nome b)) as [[]|]; simpl;
    [intuition discriminate| |intuition discriminate].
  destruct (too_short (profissional b)) as [[]|]; simpl;
    [intuition discriminate| |intuition discriminate].
  destruct (truthy (data b)); simpl; [|intuition discriminate].
  destruct (truthy (tipo b)); simpl; [|intuition discriminate].
  destruct (array_includes tiposValidos (tipo b)); simpl;
    intuition discriminate.
Qed.

(** What POST does, by the outcome of the checks and of the literal. *)
Lemma post_eq b st :
  Mock.post b st =
  match Mock.check b with
  | Raise _ => (st, Ok Mock.internal_error)
  | Ok (Some m) => (st, Ok (Mock.bad_request m))
  | Ok None =>
      match Mock.build (Int (Mock.nextId st)) b with
      | Raise _ =>
          ({| Mock.atendimentos := Mock.atendimentos st;
              Mock.nextId := Mock.nextId st + 1 |}, Ok Mock.internal_error)
      | Ok novo =>
          ({| Mock.atendimentos := Mock.atendimentos st ++ [novo];
              Mock.nextId := Mock.nextId st + 1 |},
           Ok match Mock.formatted novo with
              | Ok shown =>
                  respond 201 true (Some shown)
                    (Some (str "Atendimento criado com sucesso")) None
              | Raise _ => Mock.internal_error
              end)
      end
  end.
Proof.
  run_handler.
  destruct (Mock.check b) as [[m|]|e]; try reflexivity.
  destruct (Mock.build _ b) as [novo|]; [|reflexivity].
  by destruct (Mock.formatted novo).
Qed.

(** The listing formats every record and changes nothing. *)
Lemma list_all_eq st :
  Mock.list_all st =
  (st, match Mock.formatted_all (Mock.atendimentos st) with
       | Ok shown => Ok (respond 200 true (Some shown) None None)
       | Raise e => Raise e
       end).
Proof. run_handler. by destruct (Mock.formatted_all _). Qed.

(** A record is formatted unless the conversion of its dataISO throws. *)
Lemma formatted_converts a :
  (exists shown, Mock.formatted a = Ok shown)
  <-> converts (Mock.m_dataISO a).
Proof.
  unfold Mock.formatted, Mock.formatDate, Mock.at_midnight, converts.
  destruct (Mock.m_dataISO a) as [| |[]|[|z]|s|[s|]]; simpl;
    try destruct (z =? 0); try destruct (jsstring_eqb s []); simpl;
    split; eauto; by intros [d [=]].
Qed.

Lemma build_dataISO i b r :
  Mock.build i b = Ok r -> Mock.m_dataISO r = data b.
Proof.
  unfold Mock.build. intros Hb.
  apply bind_Ok_inv in Hb as (n & _ & Hb).
  apply bind_Ok_inv in Hb as (p & _ & Hb).
  apply bind_Ok_inv in Hb as (t & _ & Hb).
  apply bind_Ok_inv in Hb as (o & _ & Hb).
  by injection Hb as <-.
Qed.

(** After the checks the literal is built unless observacoes is a truthy
    value without [trim]. *)
Lemma build_checked i b :
  Mock.check b = Ok None ->
  Mock.build i b =
  (o ← (if truthy (observacoes b)
        then call_trim (observacoes b) else Ok []);
   Ok {| Mock.id := i;
         Mock.m_nome := trim (text (nome b));
         Mock.m_profissional := trim (text (profissional b));
         Mock.m_data := data b;
         Mock.m_dataISO := data b;
         Mock.m_tipo := trim (text (tipo b));
         Mock.m_observacoes := o |}).
Proof.
  intros Hc. apply check_None in Hc
    as ((s1 & E1 & _) & (s2 & E2 & _) & _ & (s3 & E3 & _)).
  unfold Mock.build. by rewrite E1, E2, E3.
Qed.

Lemma trimmed_observacoes v :
  (exists o, (if truthy v then call_trim v else Ok []) = Ok o)
  <-> falsy_or_string v.
Proof.
  unfold falsy_or_string. destruct (truthy v) eqn:T.
  - split.
    + intros [o Ho]. destruct v; try discriminate. right. eauto.
    + intros [[=]|[s ->]]. simpl. eauto.
  - split; [by left | eauto].
Qed.

Lemma build_Ok_obs i b :
  Mock.check b = Ok None ->
  (exists r, Mock.build i b = Ok r) <-> falsy_or_string (observacoes b).
Proof.
  intros Hc. rewrite (build_checked _ _ Hc), <- trimmed_observacoes.
  destruct (if truthy (observacoes b) then _ else _) as [o|e]; simpl.
  - split; eauto.
  - split; intros [x [=]].
Qed.

Lemma mock_accepts_accepted st b :
  mock_accepts st b = true <-> mock_accepted b.
Proof.
  unfold mock_accepts, mock_accepted. rewrite post_eq.
  destruct (Mock.check b) as [[m|]|e] eqn:Hc; simpl.
  - split; [discriminate|]. intros (H1 & H2 & H3 & H4 & _).
    assert (Mock.check b = Ok None) as E by (by apply check_None).
    congruence.
  - pose proof (proj1 (check_None b) Hc) as (H1 & H2 & H3 & H4).
    pose proof (build_Ok_obs (Int (Mock.nextId st)) b Hc) as Hb.
    destruct (Mock.build _ b) as [r|e] eqn:Er; simpl.
    + pose proof (formatted_converts r) as Hf.
      rewrite (build_dataISO _ _ _ Er) in Hf.
      destruct (Mock.formatted r) as [shown|e]; simpl.
      * split; [intros _|done].
        split; [|split; [|split; [|split; [|split]]]]; try assumption.
        -- apply Hb. eauto.
        -- apply Hf. eauto.
      * split; [discriminate|]. intros (_ & _ & _ & _ & _ & Hd).
        apply Hf in Hd as [x [=]].
    + split; [discriminate|]. intros (_ & _ & _ & _ & Ho & _).
      apply Hb in Ho as [r [=]].
  - split; [discriminate|]. intros (H1 & H2 & H3 & H4 & _).
    assert (Mock.check b = Ok None) as E by (by apply check_None).
    congruence.
Qed.

End WithHost.
End MockFacts.

(** ** The pooled service and the comparison of the three servers *)
Module VariantFacts.
Import JSFacts Validation ValidationFacts Variants MockFacts.
Section WithHost.
Context `{Host}.

(** The first lines of [create] and [update], by the reported verdict. *)
Lemma checked_cases a :
  (reported a = Ok true /\ exists s, Service.checked a = Ok s)
  \/ (reported a = Ok false /\
      exists v, Service.checked a = Raise (Error (Service.invalid_message v)))
  \/ (exists e, reported a = Raise e /\ Service.checked a = Raise e).
Proof.
  unfold reported, Service.checked.
  destruct (Service.sanitizeAtendimento a) as [s|e]; simpl; [|eauto].
  destruct (Service.validateAtendimento s) as [v|e]; simpl; [|eauto].
  destruct (Service.isValid v); simpl; eauto.
Qed.

Lemma service_accepts_reported b :
  service_accepts b = true <-> reported b = Ok true.
Proof.
  unfold service_accepts, Service.create.
  destruct (checked_cases b) as [[-> [s ->]]|[[-> [v ->]]|[e [-> ->]]]];
    simpl; split; done.
Qed.

Lemma raw_always_accepts b : raw_accepts b = true.
Proof. reflexivity. Qed.

Lemma tipos_trimmed s : In s tiposValidos -> trim s = s.
Proof.
  simpl. intros [<-|[<-|[<-|[]]]]; reflexivity.
Qed.

Lemma present_is_not_future v : present_not_future v -> not_future v.
Proof. intros (_ & d & Hd & Hf) d' Hd'. congruence. Qed.

Lemma accepted_mock_accepted b :
  not_future (data b) ->
  (forall s, tipo b = VString s -> trim s = s) ->
  string_or_absent (observacoes b) ->
  accepted b <-> mock_accepted b.
Proof.
  intros Hf Ht Ho. unfold accepted, mock_accepted. split.
  - intros (H1 & H2 & (H3 & d & Hd & _) & (s & Es & Hs) & _).
    split; [|split; [|split; [|split; [|split]]]]; try assumption.
    + exists s. split; [done|]. by rewrite <- (Ht s Es).
    + destruct Ho as [->|[->|Ho]]; [by left | by left | by right].
    + by exists d.
  - intros (H1 & H2 & H3 & (s & Es & Hs) & _ & (d & Hd)).
    split; [|split; [|split; [|split]]]; try assumption.
    + split; [assumption|]. exists d. split; [done | by apply Hf].
    + exists s. split; [done|]. by rewrite (Ht s Es).
Qed.

(** server-postgres.js: whatever the body, the handler sends the INSERT
    with the fields as received and answers by the answer of the
    database. *)
Lemma raw_post_run b {S} (exec : forall X, query X -> S -> S * (jsstring + X)) s :
  exists s' ans r,
    exec _ (raw_insert b) s = (s', ans)
    /\ Db.run exec (RawPg.post b) s = (s', Ok r)
    /\ status r = match ans with inl _ => 500 | inr _ => 201 end.
Proof.
  unfold RawPg.post, raw_insert. cbn [Db.run].
  destruct (exec _ _ s) as [s' [m|row]]; cbn [Db.run];
    eexists _, _, _; (split; [reflexivity|split; reflexivity]).
Qed.

End WithHost.

(** C2, as stated, fails: a body with an empty nome is rejected by the
    pooled service and by the mock server, and the raw server sends it to
    the INSERT. *)
Lemma C2_counterexample :
  service_accepts (H := ExampleHost.host) empty_nome = false
  /\ mock_accepts (H := ExampleHost.host) Mock.initial empty_nome = false
  /\ raw_accepts (H := ExampleHost.host) empty_nome = true
  /\ exists k,
       RawPg.post (H := ExampleHost.host) empty_nome
       = Await (raw_insert empty_nome) k.
Proof.
  split; [|split; [|split]]; try (vm_compute; reflexivity).
  eexists. reflexivity.
Qed.

(** C2, amended: the raw-PostgreSQL handler validates nothing: for every
    body, under every database, it sends the INSERT that carries nome,
    profissional, data and tipo as received and observacoes (an empty
    string when falsy), and answers 201 when the database accepts it and
    500 when it does not.  The pooled service and the mock server accept
    the same bodies among those whose data is not later than the clock,
    whose tipo has no white space around it and whose observacoes is absent,
    null or a string. *)
Theorem C2_create_validation `{Host} (b : atendimento) (st : Mock.store) :
  (forall S (exec : forall X, query X -> S -> S * (jsstring + X)) (s : S),
     exists s' ans r,
       exec _ (raw_insert b) s = (s', ans)
       /\ Db.run exec (RawPg.post b) s = (s', Ok r)
       /\ status r = match ans with inl _ => 500 | inr _ => 201 end)
  /\ raw_accepts b = true
  /\ (not_future (data b) ->
      (forall s, tipo b = VString s -> trim s = s) ->
      string_or_absent (observacoes b) ->
      service_accepts b = mock_accepts st b).
Proof.
  split; [|split; [apply raw_always_accepts|]].
  - intros S exec s. apply raw_post_run.
  - intros Hf Ht Ho. apply eq_true_iff_eq.
    rewrite service_accepts_reported, reported_accepted,
      mock_accepts_accepted.
    by apply accepted_mock_accepted.
Qed.

Lemma C2_create_validation_witness :
  service_accepts (H := ExampleHost.host) in_order
  = mock_accepts (H := ExampleHost.host) Mock.initial in_order.
Proof.
  apply (proj2 (proj2 (C2_create_validation (H := ExampleHost.host)
                         in_order Mock.initial))).
  - intros d [= <-]. reflexivity.
  - intros s [= <-]. reflexivity.
  - left. reflexivity.
Defined.

End VariantFacts.

(** ** POST /api/atendimento *)
Module CreateFacts.
Import JSFacts Validation ValidationFacts Variants MockFacts VariantFacts.
Import Create.

(** Runs the binds and catches of an asynchronous handler. *)
Ltac run_prog :=
  cbn [Db.catch Db.bind mbind Db.prog_bind mret Db.prog_ret Db.run
       Db.no_query JS.isNaN].

Section WithHost.
Context `{Host}.

Lemma invalid_message_marked v :
  Controller.invalid_data (Error (Service.invalid_message v))
  = Some (Service.invalid_message v).
Proof.
  unfold Controller.invalid_data, Service.invalid_message.
  by rewrite includes_app_l.
Qed.

(** A reported failure is thrown with the marked message. *)
Lemma checked_invalid a :
  reported a = Ok false ->
  exists v, Service.checked a = Raise (Error (Service.invalid_message v)).
Proof.
  intros Hr.
  destruct (checked_cases a) as [[E _]|[[_ Hv]|[e [E _]]]];
    [congruence | exact Hv | congruence].
Qed.

Lemma checked_valid a sane :
  Service.checked a = Ok sane -> reported a = Ok true.
Proof.
  intros Hc.
  destruct (checked_cases a) as [[E _]|[[_ [v Hv]]|[e [_ E]]]];
    [exact E | congruence | congruence].
Qed.

(** The controller on a body that passed validation: one INSERT, and the
    response by its answer. *)
Lemma store_checked a sane {S} (exec : forall X, query X -> S -> S * (jsstring + X)) s :
  Service.checked a = Ok sane ->
  run exec (Controller.store a) s =
  let '(s', r) := exec _ (insert_of sane) s in
  (s', Ok match r with
          | inr row => created row
          | inl m => insert_failed m
          end).
Proof.
  intros Hc. unfold Controller.store, Service.create. rewrite Hc.
  run_prog. unfold insert_of. destruct (exec _ _ s) as [s' [m|row]]; run_prog.
  - unfold insert_failed.
    by destruct (Controller.invalid_data _).
  - reflexivity.
Qed.

Lemma store_invalid a :
  reported a = Ok false ->
  exists m, Controller.store a = Ret (Controller.bad_request m).
Proof.
  intros [v Hv]%checked_invalid. exists (Service.invalid_message v).
  unfold Controller.store, Service.create. rewrite Hv. run_prog.
  by rewrite invalid_message_marked.
Qed.

Lemma insert_failed_status m :
  status (insert_failed m) = 400 \/ status (insert_failed m) = 500.
Proof.
  unfold insert_failed. destruct (Controller.invalid_data _); simpl; eauto.
Qed.

Lemma post_rejected b st m :
  Mock.check b = Ok (Some m) ->
  Mock.post b st = (st, Ok (Mock.bad_request m)).
Proof. intros Hc. by rewrite post_eq, Hc. Qed.

Lemma post_created b st novo shown :
  Mock.check b = Ok None ->
  Mock.build (Int (Mock.nextId st)) b = Ok novo ->
  Mock.formatted novo = Ok shown ->
  Mock.post b st = (mock_stored st novo, Ok (mock_created shown)).
Proof. intros Hc Hb Hf. by rewrite post_eq, Hc, Hb, Hf. Qed.

(** The record is pushed before it is formatted for the response. *)
Lemma post_unformatted b st novo e :
  Mock.check b = Ok None ->
  Mock.build (Int (Mock.nextId st)) b = Ok novo ->
  Mock.formatted novo = Raise e ->
  Mock.post b st = (mock_stored st novo, Ok Mock.internal_error).
Proof. intros Hc Hb Hf. by rewrite post_eq, Hc, Hb, Hf. Qed.

(** Validation that throws is answered 500, and no statement is sent. *)
Lemma store_thrown a e :
  reported a = Raise e ->
  e = TypeError
  /\ Controller.store a = Ret (Controller.internal_error TypeError).
Proof.
  intros Hr. pose proof (reported_TypeError a e Hr) as ->.
  split; [done|].
  destruct (checked_cases a) as [[E _]|[[E _]|[e [E Hc]]]];
    [congruence | congruence |].
  assert (e = TypeError) as -> by congruence.
  unfold Controller.store, Service.create. by rewrite Hc.
Qed.

Lemma post_crashed b st e :
  Mock.check b = Ok None ->
  Mock.build (Int (Mock.nextId st)) b = Raise e ->
  Mock.post b st = (mock_bumped st, Ok Mock.internal_error).
Proof. intros Hc Hb. by rewrite post_eq, Hc, Hb. Qed.

End WithHost.

(** C3, as stated, fails: a body that passes validation is answered 500
    when the INSERT is rejected. *)
Lemma C3_counterexample :
  reported (H := ExampleHost.host) in_order = Ok true
  /\ exists r,
       run down (Controller.store (H := ExampleHost.host) in_order) tt
       = (tt, Ok r)
       /\ status r = 500.
Proof.
  split; [vm_compute; reflexivity|].
  eexists. split; [vm_compute; reflexivity | reflexivity].
Qed.

(** In the mock server a body can pass the four checks and be answered 500:
    [trim] is then called on a number. *)
Lemma numeric_notes_crash :
  Mock.check numeric_notes = Ok None
  /\ Mock.post (H := ExampleHost.host) numeric_notes Mock.initial
     = (mock_bumped Mock.initial, Ok Mock.internal_error).
Proof. split; vm_compute; reflexivity. Qed.

(** In the mock server a body whose data cannot be converted passes the
    four checks and is pushed; formatting it for the response throws, the
    answer is 500, and the record stays: a GET of its id and the listing
    throw from then on.  The service throws on the same body while it
    validates. *)
Lemma unconvertible_data_crash :
  Mock.check unconvertible_data = Ok None
  /\ exists novo,
       Mock.post (H := ExampleHost.host) unconvertible_data Mock.initial
       = (mock_stored Mock.initial novo, Ok Mock.internal_error)
       /\ Mock.get (H := ExampleHost.host) (str "4")
            (mock_stored Mock.initial novo)
          = (mock_stored Mock.initial novo, Raise TypeError)
       /\ Mock.list_all (H := ExampleHost.host)
            (mock_stored Mock.initial novo)
          = (mock_stored Mock.initial novo, Raise TypeError)
       /\ reported (H := ExampleHost.host) unconvertible_data
          = Raise TypeError.
Proof.
  split; [vm_compute; reflexivity|]. eexists.
  split; [vm_compute; reflexivity|]. repeat split; vm_compute; reflexivity.
Qed.

(** C3, amended: POST /api/atendimento answers 400 when field validation
    reports a failure.  When validation passes, the controller issues one
    INSERT and answers 201 with the inserted row if the database accepts it
    and 500 (400 if the message of the database contains the marker of
    invalid data) if it does not; when validation itself throws, it
    answers 500 and issues nothing.  The mock server answers 201 with the
    pushed record, formatted, when the record can be built and its data
    converted to a string; it answers 500 when [trim] is called on an
    observacoes that is not a string, and 500 with the record left in the
    array when the conversion of the data throws. *)
Theorem C3_post_status `{Host} (b : atendimento) :
  (reported b = Ok true ->
   exists sane,
     Service.checked b = Ok sane /\
     forall S (exec : forall X, query X -> S -> S * (jsstring + X)) (s : S),
       run exec (Controller.store b) s =
       let '(s', r) := exec _ (insert_of sane) s in
       (s', Ok match r with
               | inr row => created row
               | inl m => insert_failed m
               end))
  /\ (forall m, status (insert_failed m) = 400
               \/ status (insert_failed m) = 500)
  /\ (reported b = Ok false ->
      exists m, Controller.store b = Ret (Controller.bad_request m))
  /\ (forall st m,
        Mock.check b = Ok (Some m) ->
        Mock.post b st = (st, Ok (Mock.bad_request m)))
  /\ (forall st novo shown,
        Mock.check b = Ok None ->
        Mock.build (Int (Mock.nextId st)) b = Ok novo ->
        Mock.formatted novo = Ok shown ->
        Mock.post b st = (mock_stored st novo, Ok (mock_created shown)))
  /\ (forall st e,
        Mock.check b = Ok None ->
        Mock.build (Int (Mock.nextId st)) b = Raise e ->
        Mock.post b st = (mock_bumped st, Ok Mock.internal_error))
  /\ (forall st novo e,
        Mock.check b = Ok None ->
        Mock.build (Int (Mock.nextId st)) b = Ok novo ->
        Mock.formatted novo = Raise e ->
        Mock.post b st = (mock_stored st novo, Ok Mock.internal_error))
  /\ (forall e,
        reported b = Raise e ->
        e = TypeError
        /\ Controller.store b = Ret (Controller.internal_error TypeError))
  /\ (forall i novo,
        Mock.build i b = Ok novo ->
        (exists shown, Mock.formatted novo = Ok shown) <-> converts (data b)).
Proof.
  split; [|split; [|split; [|split; [|split; [|split; [|split; [|split]]]]]]].
  - intros Hr.
    destruct (checked_cases b) as [[_ [sane Hs]]|[[E _]|[e [E _]]]];
      [|congruence|congruence].
    exists sane. split; [exact Hs|]. intros S exec s.
    by apply store_checked.
  - apply insert_failed_status.
  - apply store_invalid.
  - intros st m. apply post_rejected.
  - intros st novo shown. apply post_created.
  - intros st e. apply post_crashed.
  - intros st novo e. apply post_unformatted.
  - intros e. apply store_thrown.
  - intros i novo Hb. rewrite formatted_converts.
    by rewrite (build_dataISO _ _ _ Hb).
Qed.

Lemma C3_post_status_witness :
  exists novo shown,
    Mock.post (H := ExampleHost.host) in_order Mock.initial
    = (mock_stored Mock.initial novo, Ok (mock_created shown)).
Proof.
  eexists _, _.
  apply (proj1 (proj2 (proj2 (proj2 (proj2
           (C3_post_status (H := ExampleHost.host) in_order)))))).
  - vm_compute. reflexivity.
  - vm_compute. reflexivity.
  - vm_compute. reflexivity.
Defined.

End CreateFacts.

(** ** parseInt on a path parameter *)
Module ParseIntFacts.
Import JSFacts ById.

Lemma digit_not_space c : isDigit c = true -> isWhiteSpace c = false.
Proof.
  unfold isDigit, isWhiteSpace. intros Hc.
  apply andb_prop in Hc as [H1%N.leb_le H2%N.leb_le].
  rewrite !orb_false_iff, !andb_false_iff, !N.eqb_neq, !N.leb_gt. lia.
Qed.

Lemma digit_value c :
  isDigit c = true ->
  digitValue c = Some (Z.of_N c - 48) /\ Z.of_N c - 48 < 10.
Proof.
  unfold isDigit, digitValue. intros Hc. rewrite Hc.
  apply andb_prop in Hc as [H1%N.leb_le H2%N.leb_le]. split; [done | lia].
Qed.

(** In radix 10 a character that is not a decimal digit stops the scan. *)
Lemma non_digit_stops c :
  isDigit c = false ->
  match digitValue c with Some d => d <? 10 | None => false end = false.
Proof.
  unfold isDigit, digitValue. intros ->.
  destruct ((97 <=? c) && (c <=? 122))%N eqn:E1.
  - apply andb_prop in E1 as [H1%N.leb_le H2%N.leb_le]. apply Z.ltb_ge. lia.
  - destruct ((65 <=? c) && (c <=? 90))%N eqn:E2; [|done].
    apply andb_prop in E2 as [H1%N.leb_le H2%N.leb_le]. apply Z.ltb_ge. lia.
Qed.

Lemma parseDigits_stop acc rest :
  starts_with_digit rest = false -> parseDigits 10 acc rest = acc.
Proof.
  destruct rest as [|c r]; [done|]. simpl. intros Hc%non_digit_stops.
  destruct (digitValue c) as [d|]; [|done]. by rewrite Hc.
Qed.

Lemma parseDigits_digits ds : forall acc rest,
  forallb isDigit ds = true ->
  starts_with_digit rest = false ->
  parseDigits 10 (Some acc) (ds ++ rest)
  = Some (fold_left (fun a c => a * 10 + (Z.of_N c - 48)) ds acc).
Proof.
  induction ds as [|c ds IH]; intros acc rest Hds Hrest.
  - by apply parseDigits_stop.
  - simpl in Hds. apply andb_prop in Hds as [Hc Hds].
    destruct (digit_value c Hc) as [Hv Hlt]. simpl. rewrite Hv.
    apply Z.ltb_lt in Hlt. rewrite Hlt. by apply IH.
Qed.

(** A leading decimal integer is what [parseInt] returns. *)
Lemma parseInt_leading ds rest :
  leading_integer ds rest = true ->
  parseInt (ds ++ rest) = Int (decimal_value ds).
Proof.
  unfold leading_integer. intros Hl.
  apply andb_prop in Hl as [Hl Hhex]. apply andb_prop in Hl as [Hl Hrest].
  apply andb_prop in Hl as [Hne Hds].
  apply negb_true_iff in Hrest, Hhex.
  destruct ds as [|c ds]; [discriminate|].
  simpl in Hds. apply andb_prop in Hds as [Hc Hds].
  pose proof (digit_not_space c Hc) as Hws.
  pose proof (digit_value c Hc) as [Hv Hlt].
  assert ((c =? 45)%N = false /\ (c =? 43)%N = false) as [E45 E43].
  { unfold isDigit in Hc. apply andb_prop in Hc as [H1%N.leb_le _].
    split; apply N.eqb_neq; lia. }
  unfold parseInt. rewrite <- app_comm_cons, trimStart_cons by exact Hws.
  rewrite E45, E43.
  assert (match ds ++ rest with
          | c1 :: r =>
              if ((c =? 48) && ((c1 =? 120) || (c1 =? 88)))%N
              then (16, r) else (10, c :: ds ++ rest)
          | [] => (10, c :: ds ++ rest)
          end = (10, c :: ds ++ rest)) as ->.
  { destruct ds as [|c1 ds]; simpl.
    - destruct rest as [|c1 r]; [done|]. simpl in Hhex. by rewrite Hhex.
    - simpl in Hds. apply andb_prop in Hds as [Hc1 _].
      unfold isDigit in Hc1. apply andb_prop in Hc1 as [_ H2%N.leb_le].
      assert ((c1 =? 120)%N = false) as -> by (apply N.eqb_neq; lia).
      assert ((c1 =? 88)%N = false) as -> by (apply N.eqb_neq; lia).
      by rewrite andb_false_r. }
  simpl parseDigits. rewrite Hv. apply Z.ltb_lt in Hlt. rewrite Hlt.
  rewrite parseDigits_digits by assumption.
  unfold decimal_value. simpl fold_left. f_equal.
  destruct (fold_left _ ds _); reflexivity.
Qed.

Lemma parseInt_nil : parseInt [] = NaN.
Proof. reflexivity. Qed.

End ParseIntFacts.

(** ** GET and DELETE /api/atendimento/:id *)
Module ByIdFacts.
Import JSFacts ById ParseIntFacts CreateFacts MockFacts.
Section WithHost.
Context `{Host}.

(** The test of the controller is the NaN test alone: the empty string
    parses to NaN. *)
Lemma invalid_id_isNaN id : Controller.invalid_id id = isNaN (parseInt id).
Proof.
  unfold Controller.invalid_id. destruct id as [|c r]; [reflexivity|].
  rewrite truthy_string. unfold jsstring_eqb.
  by rewrite bool_decide_eq_false_2.
Qed.

Lemma show_bad_id id : parseInt id = NaN -> Controller.show id = Ret bad_id.
Proof.
  intros Hn. unfold Controller.show. rewrite invalid_id_isNaN, Hn.
  reflexivity.
Qed.

Lemma show_run id n {S} (exec : forall X, query X -> S -> S * (jsstring + X)) s :
  parseInt id = Int n ->
  run exec (Controller.show id) s =
  let '(s', r) := exec _ (SelectById (Int n)) s in
  (s', Ok match r with
          | inl m => select_failed m
          | inr [] => Controller.not_found
          | inr (row :: _) => found row
          end).
Proof.
  intros Hn. unfold Controller.show. rewrite invalid_id_isNaN, Hn.
  unfold Service.findById. run_prog.
  destruct (exec _ _ s) as [s' [m|[|row rows]]]; run_prog; reflexivity.
Qed.

Lemma destroy_bad_id id :
  parseInt id = NaN -> Controller.destroy id = Ret bad_id.
Proof.
  intros Hn. unfold Controller.destroy. rewrite invalid_id_isNaN, Hn.
  reflexivity.
Qed.

Lemma destroy_run id n {S} (exec : forall X, query X -> S -> S * (jsstring + X)) s :
  parseInt id = Int n ->
  run exec (Controller.destroy id) s =
  let '(s', r) := exec _ (Delete (Int n)) s in
  (s', Ok match r with
          | inl m => delete_failed m
          | inr [] => Controller.not_found
          | inr (_ :: _) => deleted
          end).
Proof.
  intros Hn. unfold Controller.destroy. rewrite invalid_id_isNaN, Hn.
  unfold Service.delete. run_prog.
  destruct (exec _ _ s) as [s' [m|[|row rows]]]; run_prog; reflexivity.
Qed.

Lemma number_eqb_eq a n : number_eqb a (Int n) = true <-> a = Int n.
Proof.
  destruct a as [|z]; simpl; [split; discriminate|].
  rewrite Z.eqb_eq. split; congruence.
Qed.

Lemma number_eqb_NaN a : number_eqb a NaN = false.
Proof. by destruct a. Qed.

Lemma get_eq id st :
  Mock.get id st =
  (st, match find (fun a => number_eqb (Mock.id a) (parseInt id))
               (Mock.atendimentos st) with
       | Some a => mock_found <$> Mock.formatted a
       | None => Ok Mock.not_found
       end).
Proof.
  run_handler. destruct (find _ _) as [a|]; [|reflexivity].
  by destruct (Mock.formatted a).
Qed.

Lemma find_absent i (l : list Mock.record) :
  (forall a, In a l -> Mock.id a <> i) ->
  find (fun a => number_eqb (Mock.id a) i) l = None.
Proof.
  intros Hl. destruct (find _ l) as [a|] eqn:E; [|done].
  apply find_some in E as [Ha Hi]. destruct i as [|n].
  - by rewrite number_eqb_NaN in Hi.
  - apply number_eqb_eq in Hi. by apply Hl in Ha.
Qed.

Lemma find_unique n (l : list Mock.record) a :
  NoDup (map Mock.id l) -> In a l -> Mock.id a = Int n ->
  find (fun a => number_eqb (Mock.id a) (Int n)) l = Some a.
Proof.
  induction l as [|b l IH]; intros Hnd Ha Hi; [destruct Ha|].
  simpl in Hnd. apply NoDup_cons in Hnd as [Hb Hnd]. simpl.
  destruct (number_eqb (Mock.id b) (Int n)) eqn:E.
  - apply number_eqb_eq in E. destruct Ha as [->|Ha]; [done|].
    exfalso. apply Hb. rewrite E, <- Hi. apply list_elem_of_In.
    by apply in_map.
  - destruct Ha as [->|Ha]; [|by apply IH].
    apply number_eqb_eq in Hi. congruence.
Qed.

Lemma delete_eq id st :
  Mock.delete id st =
  match Mock.findIndex (parseInt id) (Mock.atendimentos st) with
  | None => (st, Ok Mock.not_found)
  | Some index =>
      ({| Mock.atendimentos := base.delete index (Mock.atendimentos st);
          Mock.nextId := Mock.nextId st |}, Ok mock_deleted)
  end.
Proof. run_handler. by destruct (Mock.findIndex _ _). Qed.

Lemma findIndex_absent i (l : list Mock.record) :
  (forall a, In a l -> Mock.id a <> i) -> Mock.findIndex i l = None.
Proof.
  induction l as [|b l IH]; intros Hl; [done|]. simpl.
  destruct (number_eqb (Mock.id b) i) eqn:E.
  - destruct i as [|n]; [by rewrite number_eqb_NaN in E|].
    apply number_eqb_eq in E. exfalso. apply (Hl b); [by left | done].
  - rewrite IH; [done|]. intros a Ha. apply Hl. by right.
Qed.

Lemma filter_keeps_all i (l : list Mock.record) :
  (forall a, In a l -> Mock.id a <> i) ->
  List.filter (fun a => negb (number_eqb (Mock.id a) i)) l = l.
Proof.
  induction l as [|b l IH]; intros Hl; [done|]. simpl.
  destruct (number_eqb (Mock.id b) i) eqn:E; simpl.
  - destruct i as [|n]; [by rewrite number_eqb_NaN in E|].
    apply number_eqb_eq in E. exfalso. apply (Hl b); [by left | done].
  - f_equal. apply IH. intros a Ha. apply Hl. by right.
Qed.

(** With distinct ids, [splice] at the index found removes every record
    of that id and no other. *)
Lemma findIndex_present n (l : list Mock.record) a :
  NoDup (map Mock.id l) -> In a l -> Mock.id a = Int n ->
  exists index,
    Mock.findIndex (Int n) l = Some index /\
    base.delete index l
    = List.filter (fun a => negb (number_eqb (Mock.id a) (Int n))) l.
Proof.
  induction l as [|b l IH]; intros Hnd Ha Hi; [destruct Ha|].
  simpl in Hnd. apply NoDup_cons in Hnd as [Hb Hnd]. simpl.
  destruct (number_eqb (Mock.id b) (Int n)) eqn:E; simpl.
  - exists 0%nat. split; [done|]. simpl.
    apply number_eqb_eq in E. symmetry. apply filter_keeps_all.
    intros c Hc Hci. apply Hb. rewrite E, <- Hci.
    apply list_elem_of_In. by apply in_map.
  - destruct Ha as [->|Ha].
    { apply number_eqb_eq in Hi. congruence. }
    destruct (IH Hnd Ha Hi) as (index & -> & Hd).
    exists (S index). split; [done|]. simpl. by rewrite Hd.
Qed.

Lemma find_NaN (l : list Mock.record) :
  find (fun a => number_eqb (Mock.id a) NaN) l = None.
Proof.
  destruct (find _ l) as [a|] eqn:E; [|done].
  apply find_some in E as [_ E]. by rewrite number_eqb_NaN in E.
Qed.

Lemma findIndex_NaN (l : list Mock.record) : Mock.findIndex NaN l = None.
Proof.
  induction l as [|b l IH]; [done|]. simpl.
  by rewrite number_eqb_NaN, IH.
Qed.

(** The handlers of the controller read the path parameter through
    [parseInt] alone. *)
Lemma show_ext a b :
  parseInt a = parseInt b -> Controller.show a = Controller.show b.
Proof.
  intros E. unfold Controller.show. by rewrite !invalid_id_isNaN, E.
Qed.

Lemma update_ext a b body :
  parseInt a = parseInt b ->
  Controller.update a body = Controller.update b body.
Proof.
  intros E. unfold Controller.update. by rewrite !invalid_id_isNaN, E.
Qed.

Lemma destroy_ext a b :
  parseInt a = parseInt b -> Controller.destroy a = Controller.destroy b.
Proof.
  intros E. unfold Controller.destroy. by rewrite !invalid_id_isNaN, E.
Qed.

Lemma update_bad_id id body :
  parseInt id = NaN -> Controller.update id body = Ret bad_id.
Proof.
  intros Hn. unfold Controller.update. rewrite invalid_id_isNaN, Hn.
  reflexivity.
Qed.

Lemma invalid_data_not_id e m :
  Controller.invalid_data e = Some m -> m <> msg_id_invalido.
Proof.
  destruct e as [|m0]; simpl; [discriminate|].
  destruct (includes m0 dados_invalidos) eqn:E; [|discriminate].
  intros [= <-] ->. vm_compute in E. discriminate E.
Qed.

Lemma show_number id n :
  parseInt id = Int n -> Controller.show id <> Ret bad_id.
Proof.
  intros Hn. unfold Controller.show. rewrite invalid_id_isNaN, Hn.
  unfold Service.findById. run_prog. discriminate.
Qed.

Lemma destroy_number id n :
  parseInt id = Int n -> Controller.destroy id <> Ret bad_id.
Proof.
  intros Hn. unfold Controller.destroy. rewrite invalid_id_isNaN, Hn.
  unfold Service.delete. run_prog. discriminate.
Qed.

Lemma update_number id n body :
  parseInt id = Int n -> Controller.update id body <> Ret bad_id.
Proof.
  intros Hn. unfold Controller.update. rewrite invalid_id_isNaN, Hn.
  unfold Service.update. destruct (Service.checked body) as [sane|e];
    run_prog; [discriminate|].
  destruct (Controller.invalid_data e) as [m|] eqn:E; [|discriminate].
  intros [= Hm]. by apply invalid_data_not_id in E.
Qed.

End WithHost.
End ByIdFacts.

(** ** The id of a request, in the controller and in the mock server *)
Module IdParameter.
Import JSFacts ById ParseIntFacts ByIdFacts Variants MockFacts.

(** C4, as stated, fails: the mock server answers a GET whose id is not a
    number with 404. *)
Lemma C4_counterexample :
  parseInt (str "abc") = NaN
  /\ Mock.get (H := ExampleHost.host) (str "abc") Mock.initial
     = (Mock.initial, Ok Mock.not_found)
  /\ status Mock.not_found = 404.
Proof. repeat split; vm_compute; reflexivity. Qed.

(** C4, amended: the controller answers 400 when the id parses to NaN;
    otherwise it issues the SELECT for the parsed id and answers 200 with
    the row, 404 when there is no row, 500 when the query is rejected.  The
    mock server answers 200 with the record of that id, formatted, and 404
    when no record has it, also when the id is not a number; it never
    answers 400.  When the record of that id cannot be formatted (the
    conversion of its dataISO throws), the handler of the mock server
    throws, outside any try. *)
Theorem C4_get_by_id `{Host} (id : jsstring) :
  (parseInt id = NaN -> Controller.show id = Ret bad_id)
  /\ (forall n S (exec : forall X, query X -> S -> S * (jsstring + X)) (s : S),
        parseInt id = Int n ->
        run exec (Controller.show id) s =
        let '(s', r) := exec _ (SelectById (Int n)) s in
        (s', Ok match r with
                | inl m => select_failed m
                | inr [] => Controller.not_found
                | inr (row :: _) => found row
                end))
  /\ (forall st n a shown,
        parseInt id = Int n ->
        NoDup (map Mock.id (Mock.atendimentos st)) ->
        In a (Mock.atendimentos st) -> Mock.id a = Int n ->
        Mock.formatted a = Ok shown ->
        Mock.get id st = (st, Ok (mock_found shown)))
  /\ (forall st,
        (forall a, In a (Mock.atendimentos st) -> Mock.id a <> parseInt id) ->
        Mock.get id st = (st, Ok Mock.not_found))
  /\ (forall st, parseInt id = NaN ->
        Mock.get id st = (st, Ok Mock.not_found))
  /\ (forall st n a e,
        parseInt id = Int n ->
        NoDup (map Mock.id (Mock.atendimentos st)) ->
        In a (Mock.atendimentos st) -> Mock.id a = Int n ->
        Mock.formatted a = Raise e ->
        Mock.get id st = (st, Raise e))
  /\ (forall a,
        (exists shown, Mock.formatted a = Ok shown)
        <-> converts (Mock.m_dataISO a)).
Proof.
  split; [|split; [|split; [|split; [|split; [|split]]]]].
  - apply show_bad_id.
  - intros n S exec s. apply show_run.
  - intros st n a shown Hn Hnd Ha Hi Hf.
    by rewrite get_eq, Hn, (find_unique n _ a), Hf.
  - intros st Hst. by rewrite get_eq, find_absent.
  - intros st Hn. by rewrite get_eq, Hn, find_NaN.
  - intros st n a e Hn Hnd Ha Hi Hf.
    by rewrite get_eq, Hn, (find_unique n _ a), Hf.
  - apply formatted_converts.
Qed.

Lemma C4_get_by_id_witness :
  exists shown,
    Mock.get (H := ExampleHost.host) (str "2") Mock.initial
    = (Mock.initial, Ok (mock_found shown)).
Proof.
  eexists.
  eapply (proj1 (proj2 (proj2 (C4_get_by_id (H := ExampleHost.host) (str "2"))))
            Mock.initial 2).
  - reflexivity.
  - vm_compute. distinct_ids.
  - right. left. reflexivity.
  - reflexivity.
  - vm_compute. reflexivity.
Defined.

(** C5, as stated, fails: the mock server answers a DELETE whose id is not
    a number with 404. *)
Lemma C5_counterexample :
  parseInt (str "abc") = NaN
  /\ Mock.delete (str "abc") Mock.initial
     = (Mock.initial, Ok Mock.not_found)
  /\ status Mock.not_found = 404.
Proof. repeat split; vm_compute; reflexivity. Qed.

(** C5, amended: the controller answers 400 when the id parses to NaN;
    otherwise it issues the DELETE for the parsed id and answers 200 when a
    row was deleted, 404 when none was, 500 when the statement is rejected.
    The mock server removes the record of that id and answers 200; it
    answers 404 and keeps its store when no record has the id, also when
    the id is not a number; it never answers 400. *)
Theorem C5_delete_by_id `{Host} (id : jsstring) :
  (parseInt id = NaN -> Controller.destroy id = Ret bad_id)
  /\ (forall n S (exec : forall X, query X -> S -> S * (jsstring + X)) (s : S),
        parseInt id = Int n ->
        run exec (Controller.destroy id) s =
        let '(s', r) := exec _ (Delete (Int n)) s in
        (s', Ok match r with
                | inl m => delete_failed m
                | inr [] => Controller.not_found
                | inr (_ :: _) => deleted
                end))
  /\ (forall st n a,
        parseInt id = Int n ->
        NoDup (map Mock.id (Mock.atendimentos st)) ->
        In a (Mock.atendimentos st) -> Mock.id a = Int n ->
        Mock.delete id st = (without (Int n) st, Ok mock_deleted)
        /\ ~ In a (Mock.atendimentos (without (Int n) st)))
  /\ (forall st,
        (forall a, In a (Mock.atendimentos st) -> Mock.id a <> parseInt id) ->
        Mock.delete id st = (st, Ok Mock.not_found))
  /\ (forall st, parseInt id = NaN ->
        Mock.delete id st = (st, Ok Mock.not_found)).
Proof.
  split; [|split; [|split; [|split]]].
  - apply destroy_bad_id.
  - intros n S exec s. apply destroy_run.
  - intros st n a Hn Hnd Ha Hi. split.
    + destruct (findIndex_present n _ a Hnd Ha Hi) as (index & Hf & Hd).
      rewrite delete_eq, Hn, Hf. unfold without. by rewrite Hd.
    + unfold without. simpl. intros [_ Hk]%filter_In.
      apply number_eqb_eq in Hi. by rewrite Hi in Hk.
  - intros st Hst. by rewrite delete_eq, findIndex_absent.
  - intros st Hn. by rewrite delete_eq, Hn, findIndex_NaN.
Qed.

Lemma C5_delete_by_id_witness :
  exists a,
    Mock.delete (str "2") Mock.initial
    = (without (Int 2) Mock.initial, Ok mock_deleted)
    /\ ~ In a (Mock.atendimentos (without (Int 2) Mock.initial)).
Proof.
  eexists.
  apply (proj1 (proj2 (proj2 (C5_delete_by_id (H := ExampleHost.host)
                                (str "2")))) Mock.initial 2 _).
  - reflexivity.
  - vm_compute. distinct_ids.
  - right. left. reflexivity.
  - reflexivity.
Defined.

(** C10, as stated, fails: a lone [0] followed by [x] is read as a
    hexadecimal prefix, so [0xA] is processed as 10, not as the leading
    integer 0, and [0xg] is rejected as a bad id. *)
Lemma C10_counterexample :
  stated_leading (str "0") (str "xA") = true
  /\ decimal_value (str "0") = 0
  /\ parseInt (str "0" ++ str "xA") = Int 10
  /\ stated_leading (str "0") (str "xg") = true
  /\ Controller.invalid_id (str "0" ++ str "xg") = true.
Proof. repeat split; vm_compute; reflexivity. Qed.

(** C10, amended: show, update and destroy answer with the 400 response of
    a bad id exactly when [parseInt] of the path parameter is NaN; an id
    that starts with decimal digits followed by something that is not a
    digit is processed as the number the digits write (a number that a
    double holds exactly), unless the id starts with [0x] or [0X], which
    [parseInt] reads as hexadecimal. *)
Theorem C10_id_parameter `{Host} (id : jsstring) (body : atendimento) :
  (Controller.show id = Ret bad_id <-> parseInt id = NaN)
  /\ (Controller.update id body = Ret bad_id <-> parseInt id = NaN)
  /\ (Controller.destroy id = Ret bad_id <-> parseInt id = NaN)
  /\ (forall ds rest,
        id = ds ++ rest -> leading_integer ds rest = true ->
        decimal_value ds <= 2 ^ 53 ->
        parseInt id = Int (decimal_value ds)
        /\ parseInt ds = Int (decimal_value ds)
        /\ Controller.show id = Controller.show ds
        /\ Controller.update id body = Controller.update ds body
        /\ Controller.destroy id = Controller.destroy ds).
Proof.
  split; [|split; [|split]].
  - split; [|apply show_bad_id].
    destruct (parseInt id) as [|n] eqn:E; [done|].
    intros Hs. by apply (show_number id n) in Hs.
  - split; [|apply update_bad_id].
    destruct (parseInt id) as [|n] eqn:E; [done|].
    intros Hs. by apply (update_number id n body) in Hs.
  - split; [|apply destroy_bad_id].
    destruct (parseInt id) as [|n] eqn:E; [done|].
    intros Hs. by apply (destroy_number id n) in Hs.
  - intros ds rest -> Hl _.
    assert (leading_integer ds [] = true) as Hl0.
    { unfold leading_integer in *.
      apply andb_prop in Hl as [Hl _]. apply andb_prop in Hl as [-> _].
      by destruct ds as [|? [|? ?]]. }
    pose proof (parseInt_leading ds rest Hl) as E.
    pose proof (parseInt_leading ds [] Hl0) as E0.
    rewrite app_nil_r in E0.
    assert (parseInt (ds ++ rest) = parseInt ds) as Ep by congruence.
    repeat split; try assumption.
    + by apply show_ext.
    + by apply update_ext.
    + by apply destroy_ext.
Qed.

Lemma C10_id_parameter_witness :
  parseInt (str "12abc") = Int (decimal_value (str "12"))
  /\ parseInt (str "12") = Int (decimal_value (str "12"))
  /\ Controller.show (H := ExampleHost.host) (str "12abc")
     = Controller.show (H := ExampleHost.host) (str "12")
  /\ Controller.update (H := ExampleHost.host) (str "12abc") Variants.in_order
     = Controller.update (H := ExampleHost.host) (str "12") Variants.in_order
  /\ Controller.destroy (str "12abc") = Controller.destroy (str "12").
Proof.
  apply (proj2 (proj2 (proj2
           (C10_id_parameter (H := ExampleHost.host) (str "12abc")
              Variants.in_order))) (str "12") (str "abc")).
  - reflexivity.
  - reflexivity.
  - vm_compute. discriminate.
Defined.

End IdParameter.

(** ** The store of the mock server across requests *)
Module StoreFacts.
Import JSFacts Validation ValidationFacts Variants MockFacts CreateFacts.
Import ById ByIdFacts Create MockInvariant.
Section WithHost.
Context `{Host}.

Lemma build_id i b r : Mock.build i b = Ok r -> Mock.id r = i.
Proof.
  unfold Mock.build. intros Hb.
  apply bind_Ok_inv in Hb as (n & _ & Hb).
  apply bind_Ok_inv in Hb as (p & _ & Hb).
  apply bind_Ok_inv in Hb as (t & _ & Hb).
  apply bind_Ok_inv in Hb as (o & _ & Hb).
  by injection Hb as <-.
Qed.

(** What PUT does, by the index found, the checks and the literal. *)
Lemma put_eq id b st :
  Mock.put id b st =
  match Mock.findIndex (parseInt id) (Mock.atendimentos st) with
  | None => (st, Ok Mock.not_found)
  | Some index =>
      match Mock.check b with
      | Raise _ => (st, Ok Mock.internal_error)
      | Ok (Some m) => (st, Ok (Mock.bad_request m))
      | Ok None =>
          match Mock.build (parseInt id) b with
          | Raise _ => (st, Ok Mock.internal_error)
          | Ok atualizado =>
              ({| Mock.atendimentos :=
                    <[index := atualizado]> (Mock.atendimentos st);
                  Mock.nextId := Mock.nextId st |},
               Ok match Mock.formatted atualizado with
                  | Ok shown =>
                      respond 200 true (Some shown)
                        (Some (str "Atendimento atualizado com sucesso"))
                        None
                  | Raise _ => Mock.internal_error
                  end)
          end
      end
  end.
Proof.
  run_handler.
  destruct (Mock.findIndex _ _) as [index|]; [|reflexivity].
  destruct (Mock.check b) as [[m|]|e]; try reflexivity.
  destruct (Mock.build _ b) as [atualizado|]; [|reflexivity].
  by destruct (Mock.formatted atualizado).
Qed.

(** Writing at the index found a record of the id sought keeps the ids. *)
Lemma ids_insert i (l : list Mock.record) index r :
  Mock.findIndex i l = Some index -> Mock.id r = i ->
  map Mock.id (<[index := r]> l) = map Mock.id l.
Proof.
  revert index. induction l as [|a l IH]; intros index Hf Hr; [done|].
  simpl in Hf. destruct (number_eqb (Mock.id a) i) eqn:E.
  - injection Hf as <-. simpl. f_equal. rewrite Hr.
    destruct i as [|n]; [by rewrite number_eqb_NaN in E|].
    symmetry. by apply number_eqb_eq.
  - destruct (Mock.findIndex i l) as [k|] eqn:Ek; [|discriminate].
    injection Hf as <-. simpl. f_equal. by apply IH.
Qed.

Lemma NoDup_delete {A} (l : list A) index :
  NoDup l -> NoDup (base.delete index l).
Proof. intros Hl. exact (sublist_NoDup _ _ Hl (sublist_delete l index)). Qed.

Lemma Forall_delete_index {A} (P : A -> Prop) (l : list A) index :
  Forall P l -> Forall P (base.delete index l).
Proof.
  rewrite !Forall_forall. intros Hl x Hx%list_elem_of_delete_inv. eauto.
Qed.

Lemma map_delete {A B} (f : A -> B) (l : list A) index :
  map f (base.delete index l) = base.delete index (map f l).
Proof.
  revert index. induction l as [|a l IH]; intros [|index]; simpl; try done.
  f_equal. apply IH.
Qed.

Lemma invariant_initial : invariant Mock.initial.
Proof.
  split.
  - vm_compute. distinct_ids.
  - unfold ids. simpl. repeat constructor; eexists; (split; [done|lia]).
Qed.

Lemma invariant_bumped st : invariant st -> invariant (mock_bumped st).
Proof.
  intros [Hnd Hlt]. split; [exact Hnd|].
  unfold ids in *. simpl. eapply Forall_impl; [exact Hlt|].
  intros i (z & -> & Hz). exists z. split; [done | lia].
Qed.

Lemma invariant_stored st novo :
  Mock.id novo = Int (Mock.nextId st) ->
  invariant st -> invariant (mock_stored st novo).
Proof.
  intros Hid [Hnd Hlt]. unfold invariant, ids in *. simpl.
  rewrite map_app. simpl. rewrite Hid. split.
  - apply NoDup_app. split; [exact Hnd|]. split; [|apply NoDup_singleton].
    intros i Hi Hin. apply list_elem_of_singleton in Hin as ->.
    rewrite Forall_forall in Hlt. destruct (Hlt _ Hi) as (z & [= <-] & Hz).
    lia.
  - apply Forall_app. split.
    + eapply Forall_impl; [exact Hlt|].
      intros i (z & -> & Hz). exists z. split; [done | lia].
    + apply Forall_singleton. eexists. split; [done | lia].
Qed.

Lemma invariant_post b st : invariant st -> invariant (Mock.post b st).1.
Proof.
  intros Hi. rewrite post_eq.
  destruct (Mock.check b) as [[m|]|e]; simpl; try exact Hi.
  destruct (Mock.build _ b) as [novo|e] eqn:Hb; simpl.
  - apply invariant_stored; [by apply build_id in Hb | exact Hi].
  - by apply invariant_bumped.
Qed.

Lemma invariant_put id b st : invariant st -> invariant (Mock.put id b st).1.
Proof.
  intros Hi. rewrite put_eq.
  destruct (Mock.findIndex _ _) as [index|] eqn:Hf; [|exact Hi].
  destruct (Mock.check b) as [[m|]|e]; simpl; try exact Hi.
  destruct (Mock.build _ b) as [r|e] eqn:Hb; simpl; [|exact Hi].
  unfold invariant, ids in *. simpl.
  by rewrite (ids_insert _ _ _ _ Hf (build_id _ _ _ Hb)).
Qed.

Lemma invariant_delete id st : invariant st -> invariant (Mock.delete id st).1.
Proof.
  intros [Hnd Hlt]. rewrite delete_eq.
  destruct (Mock.findIndex _ _) as [index|]; [|by split].
  unfold invariant, ids in *. simpl. rewrite map_delete. split.
  - by apply NoDup_delete.
  - by apply Forall_delete_index.
Qed.

Lemma post_400_unchanged b st st' r :
  Mock.post b st = (st', Ok r) -> status r = 400 -> st' = st.
Proof.
  rewrite post_eq.
  destruct (Mock.check b) as [[m|]|e].
  - by intros [= <- <-].
  - destruct (Mock.build _ b) as [novo|]; [destruct (Mock.formatted novo)|];
      intros [= <- <-]; discriminate.
  - intros [= <- <-]. discriminate.
Qed.

Lemma put_400_unchanged id b st st' r :
  Mock.put id b st = (st', Ok r) -> status r = 400 -> st' = st.
Proof.
  rewrite put_eq.
  destruct (Mock.findIndex _ _) as [index|]; [|intros [= <- <-]; discriminate].
  destruct (Mock.check b) as [[m|]|e].
  - by intros [= <- <-].
  - destruct (Mock.build _ b) as [novo|]; [destruct (Mock.formatted novo)|];
      intros [= <- <-]; discriminate.
  - intros [= <- <-]. discriminate.
Qed.

End WithHost.

(** C8: when validation fails, [create] and [update] of the service throw
    without issuing a statement, so running them leaves the tables as they
    were whatever the database is; and a POST or a PUT that the mock server
    answers with 400 leaves its array and [nextId] as they were. *)
Theorem C8_atomic_on_invalid `{Host} (body : atendimento) :
  (reported body = Ok false ->
   exists v,
     Service.create body = Throw (Error (Service.invalid_message v))
     /\ (forall id,
          Service.update id body = Throw (Error (Service.invalid_message v)))
     /\ (forall id S (exec : forall X, query X -> S -> S * (jsstring + X))
           (s : S),
          (run exec (Service.create body) s).1 = s
          /\ (run exec (Service.update id body) s).1 = s))
  /\ (forall st st' r,
        Mock.post body st = (st', Ok r) -> status r = 400 -> st' = st)
  /\ (forall id st st' r,
        Mock.put id body st = (st', Ok r) -> status r = 400 -> st' = st).
Proof.
  split; [|split].
  - intros [v Hv]%checked_invalid. exists v.
    unfold Service.create, Service.update. rewrite Hv. by repeat split.
  - apply post_400_unchanged.
  - intros id. apply put_400_unchanged.
Qed.

Lemma C8_atomic_on_invalid_witness :
  (exists v,
     Service.create (H := ExampleHost.host) empty_nome
     = Throw (Error (Service.invalid_message v)))
  /\ (Mock.post (H := ExampleHost.host) empty_nome Mock.initial).1
     = Mock.initial.
Proof.
  pose proof (C8_atomic_on_invalid (H := ExampleHost.host) empty_nome)
    as (Hs & Hm & _).
  split.
  - destruct Hs as (v & Hc & _); [vm_compute; reflexivity|].
    exists v. exact Hc.
  - apply (Hm Mock.initial _ (Mock.bad_request msg_nome));
      vm_compute; reflexivity.
Defined.

(** C9: in the mock server, [nextId] is greater than every id of the array
    and the ids of the array are pairwise distinct; this holds of the
    initial store and is kept by every request, the ones that fail
    included. *)
Theorem C9_mock_invariant `{Host} :
  invariant Mock.initial
  /\ (forall rq st, invariant st -> invariant (Mock.serve rq st).1).
Proof.
  split; [apply invariant_initial|].
  intros [|i|b|i b|i] st Hi; unfold Mock.serve; cbn [fst].
  - by rewrite list_all_eq.
  - by rewrite get_eq.
  - by apply invariant_post.
  - by apply invariant_put.
  - by apply invariant_delete.
Qed.

Lemma C9_mock_invariant_witness :
  invariant
    (Mock.serve (H := ExampleHost.host) (Mock.Post in_order) Mock.initial).1.
Proof.
  apply (proj2 (C9_mock_invariant (H := ExampleHost.host))).
  split.
  - vm_compute. distinct_ids.
  - vm_compute.
    repeat (constructor; [eexists; split; reflexivity|]). constructor.
Defined.

End StoreFacts.

(** ** The cache of the frontend *)
Module CacheFacts.
Import JSFacts APICache CacheTrace.
Section Cache.
Context {D : Type}.
Implicit Types (cache : gmap jsstring (item D)) (key : jsstring).

(** The loop of [invalidate] over any list of keys. *)
Lemma invalidate_loop pattern (ks : list jsstring) : forall cache key,
  foldl (fun c k => if includes k pattern then base.delete k c else c)
        cache ks !! key
  = if includes key pattern
    then (if decide (key ∈ ks) then None else cache !! key)
    else cache !! key.
Proof.
  induction ks as [|k ks IH]; intros cache key; simpl.
  - destruct (includes key pattern); [|done].
    destruct (decide (key ∈ [])) as [Hin|_]; [|done].
    by apply elem_of_nil in Hin.
  - rewrite IH. destruct (includes key pattern) eqn:Ek; [|].
    + destruct (decide (key ∈ ks)) as [Hin|Hout].
      * rewrite decide_True by (by right). done.
      * destruct (decide (key = k)) as [->|Hne].
        -- rewrite decide_True by (by left). rewrite Ek.
           apply lookup_delete_eq.
        -- rewrite decide_False.
           2:{ intros [?|?]%elem_of_cons; done. }
           destruct (includes k pattern); [|done].
           by apply lookup_delete_ne.
    + destruct (includes k pattern) eqn:Ekk; [|done].
      apply lookup_delete_ne. intros ->. congruence.
Qed.

Lemma in_keys cache key :
  key ∈ (map_to_list cache).*1 <-> is_Some (cache !! key).
Proof.
  rewrite list_elem_of_fmap. split.
  - intros ([k it] & -> & Hin). apply elem_of_map_to_list in Hin. eauto.
  - intros [it Hit]. exists (key, it). split; [done|].
    by apply elem_of_map_to_list.
Qed.

(** [invalidate] deletes the entries whose key contains the pattern and
    keeps every other entry. *)
Lemma lookup_invalidate pattern cache key :
  invalidate pattern cache !! key
  = if includes key pattern then None else cache !! key.
Proof.
  unfold invalidate. rewrite invalidate_loop.
  destruct (includes key pattern); [|done].
  destruct (decide _) as [Hin|Hout]; [done|].
  destruct (cache !! key) as [it|] eqn:E; [|done].
  exfalso. apply Hout, in_keys. by rewrite E.
Qed.

Lemma get_fresh t' key cache it :
  cache !! key = Some it -> t' <= expiry it ->
  get t' key cache = (cache, Some (item_data it)).
Proof.
  intros Hit Ht. unfold get. rewrite Hit.
  by rewrite (proj2 (Z.ltb_ge _ _) Ht).
Qed.

Lemma get_expired t' key cache it :
  cache !! key = Some it -> expiry it < t' ->
  get t' key cache = (base.delete key cache, None).
Proof.
  intros Hit Ht. unfold get. rewrite Hit.
  by rewrite (proj2 (Z.ltb_lt _ _) Ht).
Qed.

Lemma get_absent t' key cache :
  cache !! key = None -> get t' key cache = (cache, None).
Proof. intros Hit. unfold get. by rewrite Hit. Qed.

(** A [get] changes the cache at its own key only. *)
Lemma get_other t k key cache :
  k <> key -> (get t k cache).1 !! key = cache !! key.
Proof.
  intros Hne. unfold get. destruct (cache !! k) as [it|]; [|done].
  destruct (expiry it <? t); [|done]. simpl. by apply lookup_delete_ne.
Qed.

Lemma jsstring_eqb_false a b : jsstring_eqb a b = false <-> a <> b.
Proof. unfold jsstring_eqb. apply bool_decide_eq_false. Qed.

Lemma apply_keeps key it (o : op D) cache :
  keeps key (expiry it) o = true ->
  cache !! key = Some it -> apply o cache !! key = Some it.
Proof.
  intros Hk Hit. destruct o as [t k|t k d|pattern|]; simpl in *.
  - apply orb_prop in Hk as [Hk|Hk].
    + apply negb_true_iff, jsstring_eqb_false in Hk.
      by rewrite get_other.
    + apply Z.leb_le in Hk. destruct (decide (k = key)) as [->|Hne].
      * by rewrite (get_fresh _ _ _ it).
      * by rewrite get_other.
  - apply negb_true_iff, jsstring_eqb_false in Hk.
    unfold set. by rewrite lookup_insert_ne.
  - apply negb_true_iff in Hk. by rewrite lookup_invalidate, Hk.
  - discriminate.
Qed.

Lemma run_keeps key it (ops : list (op D)) : forall cache,
  forallb (keeps key (expiry it)) ops = true ->
  cache !! key = Some it -> run ops cache !! key = Some it.
Proof.
  induction ops as [|o ops IH]; intros cache Hk Hit; [done|].
  simpl in Hk. apply andb_prop in Hk as [Ho Hk].
  unfold run. simpl. apply IH; [exact Hk|]. by apply apply_keeps.
Qed.

Lemma apply_sets_not key (o : op D) cache :
  sets_not key o = true ->
  cache !! key = None -> apply o cache !! key = None.
Proof.
  intros Hk Hit. destruct o as [t k|t k d|pattern|]; simpl in *.
  - unfold get. destruct (cache !! k) as [it|]; [|done].
    destruct (expiry it <? t); [|done]. simpl.
    destruct (decide (k = key)) as [->|Hne].
    + apply lookup_delete_eq.
    + by rewrite lookup_delete_ne.
  - apply negb_true_iff, jsstring_eqb_false in Hk.
    unfold set. by rewrite lookup_insert_ne.
  - rewrite lookup_invalidate. by destruct (includes key pattern).
  - apply lookup_empty.
Qed.

Lemma run_sets_not key (ops : list (op D)) : forall cache,
  forallb (sets_not key) ops = true ->
  cache !! key = None -> run ops cache !! key = None.
Proof.
  induction ops as [|o ops IH]; intros cache Hk Hit; [done|].
  simpl in Hk. apply andb_prop in Hk as [Ho Hk].
  unfold run. simpl. apply IH; [exact Hk|]. by apply apply_sets_not.
Qed.

End Cache.

(** C6: [get(k)] returns the data of the latest [set(k, d)] while the clock
    has not passed the expiry of that set, five minutes after it, whatever
    was done in between to other keys; once the clock has passed the expiry
    it returns null and deletes the entry; it returns null for a key that
    was never set; [invalidate(p)] deletes the entries whose key contains
    [p] as a substring and keeps every other entry as it was. *)
Theorem C6_cache {D} (cache : gmap jsstring (item D)) (key : jsstring)
    (d : D) (t : Z) :
  (forall ops t',
     forallb (keeps key (t + ttl)) ops = true -> t' <= t + ttl ->
     get t' key (run ops (set t key d cache))
     = (run ops (set t key d cache), Some d))
  /\ (forall ops t',
        forallb (keeps key (t + ttl)) ops = true -> t + ttl < t' ->
        get t' key (run ops (set t key d cache))
        = (base.delete key (run ops (set t key d cache)), None))
  /\ (forall (ops : list (op D)) t',
        forallb (sets_not key) ops = true ->
        get t' key (run ops ∅) = (run ops ∅, None))
  /\ (forall pattern k,
        (exists a b, k = a ++ pattern ++ b) ->
        invalidate pattern cache !! k = None)
  /\ (forall pattern k,
        ~ (exists a b, k = a ++ pattern ++ b) ->
        invalidate pattern cache !! k = cache !! k)
  /\ ttl = 300000.
Proof.
  set (it := {| item_data := d; expiry := t + ttl |}).
  assert (set t key d cache !! key = Some it) as Hset
    by apply lookup_insert_eq.
  split; [|split; [|split; [|split; [|split]]]].
  - intros ops t' Hk Ht.
    by rewrite (get_fresh t' key _ it (run_keeps key it ops _ Hk Hset)).
  - intros ops t' Hk Ht.
    by rewrite (get_expired t' key _ it (run_keeps key it ops _ Hk Hset)).
  - intros ops t' Hk. apply get_absent.
    apply run_sets_not; [exact Hk | apply lookup_empty].
  - intros pattern k Hsub%includes_spec.
    by rewrite lookup_invalidate, Hsub.
  - intros pattern k Hsub. rewrite lookup_invalidate.
    destruct (includes k pattern) eqn:E; [|done].
    by apply includes_spec in E.
  - reflexivity.
Qed.

Lemma C6_cache_witness :
  let key := str "get_atendimentos" in
  let ops := [DoGet 2000 key; DoSet 2500 (str "get_atendimento/7") 1%nat;
              DoInvalidate (str "atendimento/")] in
  get 301000 key (run ops (set 1000 key 0%nat ∅))
  = (run ops (set 1000 key 0%nat ∅), Some 0%nat).
Proof.
  intros key ops.
  apply (proj1 (C6_cache ∅ key 0%nat 1000) ops 301000).
  - vm_compute. reflexivity.
  - vm_compute. discriminate.
Defined.

End CacheFacts.

(** ** The filters of the frontend *)
Module FilterFacts.
Import JSFacts Service StringUtils AtendimentoFilters ById FilterSpec.
Section WithHost.
Context `{Host}.

Lemma truthy_nonempty s : truthy (VString s) = nonempty s.
Proof. by destruct s. Qed.

Lemma filter_twice {A} (f g : A -> bool) (l : list A) :
  List.filter g (List.filter f l) = List.filter (fun x => g x && f x) l.
Proof.
  induction l as [|x l IH]; [done|]. simpl.
  destruct (f x); simpl; [|by rewrite andb_false_r].
  rewrite andb_true_r. destruct (g x); by rewrite IH.
Qed.

Lemma filter_true {A} (l : list A) : List.filter (fun _ => true) l = l.
Proof. induction l as [|x l IH]; [done|]. simpl. by rewrite IH. Qed.

(** [sanitizeForSearch] on a string is [clean]. *)
Lemma sanitizeForSearch_clean v : sanitizeForSearch v = cleaned v.
Proof.
  destruct v as [| | | |s|]; try reflexivity.
  unfold sanitizeForSearch, cleaned, clean, not_a_text.
  rewrite truthy_nonempty, orb_false_r.
  destruct (nonempty s); [|reflexivity]. simpl.
  unfold removeAccents, not_a_text.
  rewrite truthy_nonempty, orb_false_r.
  by destruct (nonempty (trim (toLowerCase s))).
Qed.

Lemma containsSearchTerm_matches v term :
  nonempty term = true ->
  containsSearchTerm v (VString term) = matches v term.
Proof.
  intros Ht. unfold containsSearchTerm, matches.
  rewrite (truthy_nonempty term), Ht, orb_false_r.
  rewrite !sanitizeForSearch_clean.
  by destruct (truthy v).
Qed.

(** A missing observacoes is searched as the empty string, which never
    matches. *)
Lemma observacoes_matches v term :
  nonempty term = true ->
  containsSearchTerm (or_empty v) (VString term) = matches v term.
Proof.
  intros Ht. unfold or_empty. destruct (truthy v) eqn:Tv.
  - by apply containsSearchTerm_matches.
  - rewrite containsSearchTerm_matches by done.
    unfold matches. by rewrite Tv.
Qed.

Lemma search_kept l term :
  nonempty term = true ->
  filterBySearch l term
  = List.filter (fun a => matches (r_nome a) term
                          || matches (r_profissional a) term
                          || matches (r_observacoes a) term) l.
Proof.
  intros Ht. unfold filterBySearch. rewrite truthy_nonempty, Ht. simpl.
  apply filter_ext. intros a.
  by rewrite observacoes_matches, !containsSearchTerm_matches.
Qed.

Lemma tipo_kept l tipo :
  nonempty tipo = true ->
  filterByTipo l tipo
  = List.filter (fun a => strict_eq_string (r_tipo a) tipo) l.
Proof. intros Ht. unfold filterByTipo. by rewrite truthy_nonempty, Ht. Qed.

End WithHost.

(** C7, as stated, fails: the term is trimmed before the comparison, so a
    search for "ana " keeps the record of Ana, whose fields do not contain
    the term with its space. *)
Lemma C7_counterexample :
  applyFilters (H := ExampleHost.host) [ana] ana_space = [ana]
  /\ List.filter (stated_keep (H := ExampleHost.host) ana_space) [ana] = [].
Proof. split; vm_compute; reflexivity. Qed.

(** C7, amended: applyFilters returns, in their original order, the records
    whose tipo equals the tipo filter (when that filter is not empty) and
    of which nome, profissional or observacoes is not empty and contains
    the search term, both put in lower case, trimmed of the white space
    around them and stripped of accents (when the search term is not
    empty); with both filters empty the list is returned as it is. *)
Theorem C7_applyFilters `{Host} (l : list api_record) (f : filters) :
  applyFilters l f = List.filter (keep f) l
  /\ applyFilters l {| search := []; f_tipo := [] |} = l.
Proof.
  split; [|reflexivity].
  unfold applyFilters, keep. rewrite !truthy_nonempty.
  destruct (nonempty (search f)) eqn:Es;
    destruct (nonempty (f_tipo f)) eqn:Et; simpl.
  - rewrite tipo_kept, search_kept by done. apply filter_twice.
  - rewrite search_kept by done. apply filter_ext. intros a.
    by destruct (matches _ _ || _ || _).
  - rewrite tipo_kept by done. apply filter_ext. intros a.
    by rewrite andb_true_r.
  - symmetry. apply filter_true.
Qed.

End FilterFacts.

(** ** The mock server: stored records, round trips, ids *)
Module MockStoreFacts.
Import JSFacts Validation ValidationFacts Variants MockFacts CreateFacts.
Import ById ByIdFacts Create MockInvariant StoreFacts MockStore VariantFacts.
Section WithHost.
Context `{Host}.

Lemma long_enough_text v :
  long_enough v ->
  (2 <= length (trim (text v)))%nat /\ trim (trim (text v)) = trim (text v).
Proof. intros (s & -> & Hs). split; [exact Hs | apply trim_idem]. Qed.

(** The literal built after the checks is a well-formed record. *)
Lemma build_well_formed i b r :
  Mock.check b = Ok None -> Mock.build i b = Ok r -> well_formed r.
Proof.
  intros Hc Hb. rewrite (build_checked _ _ Hc) in Hb.
  apply check_None in Hc as (Hn & Hp & Hd & (s & Es & Hs)).
  apply bind_Ok_inv in Hb as (o & Ho & Hb). injection Hb as <-.
  destruct (long_enough_text _ Hn) as [Hn1 Hn2].
  destruct (long_enough_text _ Hp) as [Hp1 Hp2].
  unfold well_formed. simpl. repeat split; try assumption.
  - rewrite Es. simpl. by rewrite (tipos_trimmed s Hs).
  - destruct (truthy (observacoes b)).
    + destruct (observacoes b); try discriminate.
      injection Ho as <-. apply trim_idem.
    + by injection Ho as <-.
Qed.

Lemma well_formed_initial : Forall well_formed (Mock.atendimentos Mock.initial).
Proof.
  repeat (apply List.Forall_cons;
          [unfold well_formed; repeat split;
           try reflexivity; try (vm_compute; lia);
           try (simpl; tauto) |]).
  apply List.Forall_nil.
Qed.

Lemma well_formed_serve rq st :
  Forall well_formed (Mock.atendimentos st) ->
  Forall well_formed (Mock.atendimentos (Mock.serve rq st).1).
Proof.
  intros Hst. destruct rq as [|i|b|i b|i]; unfold Mock.serve; cbn [fst].
  - by rewrite list_all_eq.
  - by rewrite get_eq.
  - rewrite post_eq. destruct (Mock.check b) as [[m|]|e] eqn:Hc; try exact Hst.
    destruct (Mock.build _ b) as [novo|e] eqn:Hb; simpl; [|exact Hst].
    apply Forall_app. split; [exact Hst|].
    apply Forall_singleton. exact (build_well_formed _ _ _ Hc Hb).
  - rewrite put_eq.
    destruct (Mock.findIndex _ _) as [index|]; [|exact Hst].
    destruct (Mock.check b) as [[m|]|e] eqn:Hc; try exact Hst.
    destruct (Mock.build _ b) as [r|e] eqn:Hb; simpl; [|exact Hst].
    apply Forall_insert; [exact Hst|]. exact (build_well_formed _ _ _ Hc Hb).
  - rewrite delete_eq.
    destruct (Mock.findIndex _ _) as [index|]; [|exact Hst].
    simpl. by apply Forall_delete_index.
Qed.

Lemma serve_all_snoc rqs rq st :
  serve_all (rqs ++ [rq]) st = (Mock.serve rq (serve_all rqs st)).1.
Proof. unfold serve_all. by rewrite foldl_snoc. Qed.

End WithHost.

(** X1: every record the mock server ever holds is well formed: whatever
    requests were served since it started, nome, profissional, tipo and
    observacoes of each record are trimmed, nome and profissional have two
    code units at least, tipo is one of the three, data is present and
    equal to dataISO. *)
Theorem records_well_formed `{Host} (rqs : list Mock.request) :
  Forall well_formed (Mock.atendimentos (serve_all rqs Mock.initial)).
Proof.
  induction rqs as [|rq rqs IH] using rev_ind.
  - apply well_formed_initial.
  - rewrite serve_all_snoc. by apply well_formed_serve.
Qed.

(** Computes the invariant of the initial store. *)
Ltac initial_invariant :=
  split;
  [vm_compute; distinct_ids
  |vm_compute; repeat (constructor; [eexists; split; reflexivity|]);
   constructor].

Section RoundTrips.
Context `{Host}.

Lemma post_201_inv b st st' r :
  Mock.post b st = (st', Ok r) -> status r = 201 ->
  exists novo shown,
    Mock.check b = Ok None
    /\ Mock.build (Int (Mock.nextId st)) b = Ok novo
    /\ Mock.formatted novo = Ok shown
    /\ st' = mock_stored st novo /\ r = mock_created shown.
Proof.
  rewrite post_eq. destruct (Mock.check b) as [[m|]|e].
  - intros [= <- <-]. discriminate.
  - destruct (Mock.build _ b) as [novo|e]; [|intros [= <- <-]; discriminate].
    destruct (Mock.formatted novo) as [shown|e] eqn:Hf;
      intros [= <- <-]; [|discriminate].
    intros _. by exists novo, shown.
  - intros [= <- <-]. discriminate.
Qed.

(** The ids of the store are below [nextId], so none is the next id. *)
Lemma next_id_fresh st a :
  invariant st -> In a (Mock.atendimentos st) ->
  Mock.id a <> Int (Mock.nextId st).
Proof.
  intros [_ Hlt] Ha Hid. rewrite Forall_forall in Hlt.
  destruct (Hlt (Mock.id a)) as (z & Ez & Hz).
  - apply list_elem_of_In. unfold ids. by apply in_map.
  - rewrite Hid in Ez. injection Ez as <-. lia.
Qed.

(** X2: in the mock server, a GET of the id that a POST has just assigned
    answers 200 with the very record of the 201 response. *)
Theorem mock_get_after_post b st st' r idp :
  invariant st ->
  Mock.post b st = (st', Ok r) -> status r = 201 ->
  parseInt idp = Int (Mock.nextId st) ->
  exists r',
    Mock.get idp st' = (st', Ok r')
    /\ status r' = 200 /\ payload r' = payload r.
Proof.
  intros Hi Hp Hs Hn.
  destruct (post_201_inv _ _ _ _ Hp Hs)
    as (novo & shown & Hc & Hb & Hf & -> & ->).
  exists (mock_found shown). repeat split.
  rewrite get_eq, Hn. rewrite (find_unique _ _ novo); [by rewrite Hf| | |].
  - apply (invariant_stored st novo (build_id _ _ _ Hb) Hi).
  - simpl. apply in_or_app. right. by left.
  - by apply build_id in Hb.
Qed.

(** X3: in the mock server, a DELETE of the id that a POST has just
    assigned gives back the array as it was before the POST; only [nextId]
    has moved on. *)
Theorem mock_delete_after_post b st st' r idp :
  invariant st ->
  Mock.post b st = (st', Ok r) -> status r = 201 ->
  parseInt idp = Int (Mock.nextId st) ->
  Mock.delete idp st' = (mock_bumped st, Ok mock_deleted).
Proof.
  intros Hi Hp Hs Hn.
  destruct (post_201_inv _ _ _ _ Hp Hs)
    as (novo & shown & Hc & Hb & _ & -> & ->).
  pose proof (build_id _ _ _ Hb) as Hid.
  destruct (findIndex_present (Mock.nextId st)
              (Mock.atendimentos (mock_stored st novo)) novo)
    as (index & Hf & Hd).
  - apply (invariant_stored st novo Hid Hi).
  - simpl. apply in_or_app. right. by left.
  - exact Hid.
  - rewrite delete_eq, Hn, Hf, Hd. unfold mock_stored, mock_bumped.
    cbn [Mock.atendimentos Mock.nextId]. rewrite List.filter_app.
    cbn [List.filter]. rewrite Hid. cbn [number_eqb].
    rewrite Z.eqb_refl. cbn [negb]. rewrite app_nil_r.
    rewrite filter_keeps_all; [done|].
    intros a Ha. by apply next_id_fresh.
Qed.

Lemma findIndex_Some_inv i (l : list Mock.record) index :
  Mock.findIndex i l = Some index ->
  exists n a, i = Int n /\ In a l /\ Mock.id a = Int n.
Proof.
  revert index. induction l as [|b l IH]; intros index Hf; [discriminate|].
  simpl in Hf. destruct (number_eqb (Mock.id b) i) eqn:E.
  - destruct i as [|n]; [by rewrite number_eqb_NaN in E|].
    apply number_eqb_eq in E. exists n, b. repeat split; [by left | done].
  - destruct (Mock.findIndex i l) as [k|] eqn:Ek; [|discriminate].
    destruct (IH k eq_refl) as (n & a & -> & Ha & Hid).
    exists n, a. repeat split; [by right | done].
Qed.

Lemma delete_200_inv idp st st' r :
  NoDup (ids st) ->
  Mock.delete idp st = (st', Ok r) -> status r = 200 ->
  exists n, parseInt idp = Int n /\ st' = without (Int n) st.
Proof.
  intros Hnd. rewrite delete_eq.
  destruct (Mock.findIndex _ _) as [index|] eqn:Hf;
    intros [= <- <-]; [|discriminate]. intros _.
  destruct (findIndex_Some_inv _ _ _ Hf) as (n & a & Hn & Ha & Hid).
  exists n. split; [exact Hn|].
  destruct (findIndex_present n _ a Hnd Ha Hid) as (index' & Hf' & Hd).
  rewrite Hn in Hf. rewrite Hf in Hf'. injection Hf' as <-.
  unfold without. by rewrite Hd.
Qed.

Lemma without_absent n st a :
  In a (Mock.atendimentos (without (Int n) st)) -> Mock.id a <> Int n.
Proof.
  unfold without. simpl. intros [_ Hk]%filter_In Hid.
  apply number_eqb_eq in Hid. by rewrite Hid in Hk.
Qed.

Lemma length_delete_found i (l : list Mock.record) : forall index,
  Mock.findIndex i l = Some index ->
  S (length (base.delete index l)) = length l.
Proof.
  induction l as [|b l IH]; intros index Hf; [discriminate|].
  simpl in Hf. destruct (number_eqb (Mock.id b) i).
  - by injection Hf as <-.
  - destruct (Mock.findIndex i l) as [k|]; [|discriminate].
    injection Hf as <-. simpl. f_equal. by apply IH.
Qed.

(** X4: in the mock server with distinct ids, once a DELETE is answered
    200 the array is one record shorter, and a GET or a second DELETE of
    the same id is answered 404. *)
Theorem mock_gone_after_delete idp st st' r :
  NoDup (ids st) ->
  Mock.delete idp st = (st', Ok r) -> status r = 200 ->
  Mock.get idp st' = (st', Ok Mock.not_found)
  /\ Mock.delete idp st' = (st', Ok Mock.not_found)
  /\ S (length (Mock.atendimentos st')) = length (Mock.atendimentos st).
Proof.
  intros Hnd Hd Hs.
  assert (S (length (Mock.atendimentos st')) = length (Mock.atendimentos st))
    as Hlen.
  { rewrite delete_eq in Hd.
    destruct (Mock.findIndex _ _) as [index|] eqn:Hf.
    - injection Hd as <- _. by apply (length_delete_found (parseInt idp)).
    - injection Hd as _ <-. discriminate. }
  destruct (delete_200_inv _ _ _ _ Hnd Hd Hs) as (n & Hn & ->).
  split; [|split; [|exact Hlen]].
  - rewrite get_eq, Hn, find_absent; [done|]. apply without_absent.
  - rewrite delete_eq, Hn, findIndex_absent; [done|]. apply without_absent.
Qed.

End RoundTrips.

Section Ids.
Context `{Host}.

Lemma invariant_serve rq st : invariant st -> invariant (Mock.serve rq st).1.
Proof.
  intros Hi. destruct rq as [|i|b|i b|i]; unfold Mock.serve; cbn [fst].
  - by rewrite list_all_eq.
  - by rewrite get_eq.
  - by apply invariant_post.
  - by apply invariant_put.
  - by apply invariant_delete.
Qed.

(** One request neither lowers [nextId] nor brings back an id below it. *)
Lemma serve_keeps_out rq st z bound :
  invariant st -> z < bound -> bound <= Mock.nextId st ->
  ~ In (Int z) (ids st) ->
  bound <= Mock.nextId (Mock.serve rq st).1
  /\ ~ In (Int z) (ids (Mock.serve rq st).1).
Proof.
  intros Hi Hz Hb Hout.
  destruct rq as [|i|b|i b|i]; unfold Mock.serve; cbn [fst].
  - rewrite list_all_eq. by split.
  - rewrite get_eq. by split.
  - rewrite post_eq. destruct (Mock.check b) as [[m|]|e]; try by split.
    destruct (Mock.build _ b) as [novo|e] eqn:Hbd; simpl.
    + split; [lia|]. unfold ids. simpl. rewrite map_app.
      intros [Hin|Hin]%in_app_or; [by apply Hout|].
      simpl in Hin. destruct Hin as [Hin|[]].
      rewrite (build_id _ _ _ Hbd) in Hin. injection Hin as Hin. lia.
    + split; [lia | exact Hout].
  - rewrite put_eq.
    destruct (Mock.findIndex _ _) as [index|] eqn:Hf; [|by split].
    destruct (Mock.check b) as [[m|]|e]; try by split.
    destruct (Mock.build _ b) as [r|e] eqn:Hbd; simpl; [|by split].
    split; [exact Hb|]. unfold ids in *. simpl.
    by rewrite (ids_insert _ _ _ _ Hf (build_id _ _ _ Hbd)).
  - rewrite delete_eq.
    destruct (Mock.findIndex _ _) as [index|]; [|by split].
    simpl. split; [exact Hb|]. unfold ids in *. simpl. rewrite map_delete.
    intros Hin%list_elem_of_In%list_elem_of_delete_inv.
    by apply Hout, list_elem_of_In.
Qed.

(** X5: the mock server never reuses an id: an id below [nextId] that is
    not in the array, for instance the id of a deleted record, is in the
    array after no sequence of requests, and [nextId] never goes down. *)
Theorem mock_ids_never_reused (rqs : list Mock.request) (st : Mock.store)
    (z : Z) :
  invariant st -> z < Mock.nextId st -> ~ In (Int z) (ids st) ->
  Mock.nextId st <= Mock.nextId (serve_all rqs st)
  /\ ~ In (Int z) (ids (serve_all rqs st)).
Proof.
  intros Hi Hz Hout.
  assert (invariant (serve_all rqs st)
          /\ Mock.nextId st <= Mock.nextId (serve_all rqs st)
          /\ ~ In (Int z) (ids (serve_all rqs st))) as (_ & Hn & Ho);
    [|by split].
  induction rqs as [|rq rqs IH] using rev_ind.
  - repeat split; [apply Hi | apply Hi | simpl; lia | exact Hout].
  - destruct IH as (Hi' & Hn' & Ho'). rewrite serve_all_snoc.
    split; [by apply invariant_serve|].
    by apply serve_keeps_out.
Qed.

Lemma findIndex_lookup i (l : list Mock.record) : forall index,
  Mock.findIndex i l = Some index ->
  exists a, l !! index = Some a /\ Mock.id a = i.
Proof.
  induction l as [|b l IH]; intros index Hf; [discriminate|].
  simpl in Hf. destruct (number_eqb (Mock.id b) i) eqn:E.
  - injection Hf as <-. exists b. split; [done|].
    destruct i as [|n]; [by rewrite number_eqb_NaN in E|].
    by apply number_eqb_eq.
  - destruct (Mock.findIndex i l) as [k|]; [|discriminate].
    injection Hf as <-. simpl. by apply IH.
Qed.

(** No record before the index found has the id sought. *)
Lemma findIndex_first i (l : list Mock.record) : forall index,
  Mock.findIndex i l = Some index ->
  forall j a, (j < index)%nat -> l !! j = Some a -> Mock.id a <> i.
Proof.
  induction l as [|b l IH]; intros index Hf j a Hj Ha; [discriminate|].
  destruct (findIndex_Some_inv _ _ _ Hf) as (n & _ & -> & _).
  simpl in Hf. destruct (number_eqb (Mock.id b) (Int n)) eqn:E.
  - injection Hf as <-. lia.
  - destruct (Mock.findIndex (Int n) l) as [k|] eqn:Ek; [|discriminate].
    injection Hf as <-. destruct j as [|j].
    + injection Ha as <-. intros Hid. apply number_eqb_eq in Hid. congruence.
    + simpl in Ha. apply (IH k eq_refl j a); [lia | exact Ha].
Qed.

(** X6: a PUT that the mock server answers 200 replaces one record, the
    first of the id of the request (no record before it in the array has
    that id), by a well-formed record of the same id made of the trimmed
    fields of the body; the other records, their order, the ids and
    [nextId] stay as they were, and the response carries the new record as
    it is formatted. *)
Theorem mock_put_replaces_one (idp : jsstring) (b : atendimento)
    (st st' : Mock.store) (r : response Mock.record) :
  Mock.put idp b st = (st', Ok r) -> status r = 200 ->
  exists index old novo shown,
    Mock.atendimentos st !! index = Some old
    /\ Mock.id old = parseInt idp
    /\ (forall j a,
          (j < index)%nat -> Mock.atendimentos st !! j = Some a ->
          Mock.id a <> parseInt idp)
    /\ Mock.atendimentos st' = <[index := novo]> (Mock.atendimentos st)
    /\ Mock.id novo = Mock.id old
    /\ Mock.m_nome novo = trim (text (nome b))
    /\ Mock.m_profissional novo = trim (text (profissional b))
    /\ Mock.m_tipo novo = trim (text (tipo b))
    /\ Mock.m_data novo = data b
    /\ well_formed novo
    /\ ids st' = ids st
    /\ Mock.nextId st' = Mock.nextId st
    /\ Mock.formatted novo = Ok shown
    /\ r = mock_updated shown.
Proof.
  rewrite put_eq.
  destruct (Mock.findIndex _ _) as [index|] eqn:Hf;
    [|intros [= <- <-]; discriminate].
  destruct (Mock.check b) as [[m|]|e] eqn:Hc;
    try (intros [= <- <-]; discriminate).
  destruct (Mock.build _ b) as [novo|e] eqn:Hb;
    [|intros [= <- <-]; discriminate].
  destruct (Mock.formatted novo) as [shown|e] eqn:Hs;
    intros [= <- <-]; [|discriminate]. intros _.
  destruct (findIndex_lookup _ _ _ Hf) as (old & Hold & Hid).
  exists index, old, novo, shown.
  pose proof (build_id _ _ _ Hb) as Hnid.
  pose proof (build_well_formed _ _ _ Hc Hb) as Hwf.
  pose proof Hb as Hb'. rewrite (build_checked _ _ Hc) in Hb'.
  apply bind_Ok_inv in Hb' as (o & _ & Hb'). injection Hb' as <-.
  split; [exact Hold|]. split; [exact Hid|].
  split; [exact (findIndex_first _ _ _ Hf)|]. split; [reflexivity|].
  split; [simpl; congruence|]. do 4 (split; [reflexivity|]).
  split; [exact Hwf|]. split; [|by repeat split].
  unfold ids. simpl. by apply (ids_insert (parseInt idp)).
Qed.

(** X7: the two servers order the checks of a PUT differently.  The mock
    server looks the id up first and answers 404 for an id that no record
    has, whatever the body; the controller validates the body first and
    answers 400 for a body that fails validation, without a statement sent
    to the database, whether a row of that id exists or not. *)
Theorem put_unknown_id_invalid_body (idp : jsstring) (b : atendimento)
    (st : Mock.store) (n : Z) :
  (forall a, In a (Mock.atendimentos st) -> Mock.id a <> parseInt idp) ->
  reported b = Ok false ->
  parseInt idp = Int n ->
  Mock.put idp b st = (st, Ok Mock.not_found)
  /\ exists m, Controller.update idp b = Ret (Controller.bad_request m)
               /\ m <> msg_id_invalido.
Proof.
  intros Hst Hr Hn. split.
  - by rewrite put_eq, findIndex_absent.
  - destruct (checked_invalid _ Hr) as [v Hv].
    exists (Service.invalid_message v). split.
    + unfold Controller.update. rewrite invalid_id_isNaN, Hn.
      unfold Service.update. rewrite Hv. run_prog.
      by rewrite invalid_message_marked.
    + apply (invalid_data_not_id (Error (Service.invalid_message v))).
      apply invalid_message_marked.
Qed.

(** The records are formatted in order: one more record at the end is
    formatted after the others. *)
Lemma formatted_all_snoc (l : list Mock.record) a :
  Mock.formatted_all (l ++ [a]) =
  match Mock.formatted_all l with
  | Ok shown =>
      match Mock.formatted a with
      | Ok x => Ok (shown ++ [x])
      | Raise e => Raise e
      end
  | Raise e => Raise e
  end.
Proof.
  induction l as [|c l IH]; cbn [app Mock.formatted_all].
  - by destruct (Mock.formatted a).
  - destruct (Mock.formatted c) as [c'|e]; [|reflexivity].
    cbn [mbind outcome_bind]. rewrite IH.
    destruct (Mock.formatted_all l) as [shown|e]; [|reflexivity].
    by destruct (Mock.formatted a).
Qed.

(** X8: after a POST answered 201, the listing of the mock server follows
    the listing of before: if that was answered 200, the listing is now
    answered 200 with the same records followed by the record of the 201
    response; if it threw, because a stored record cannot be formatted, it
    still throws.  The listing changes nothing in the store. *)
Theorem mock_list_after_post (b : atendimento) (st st' : Mock.store)
    (r : response Mock.record) :
  Mock.post b st = (st', Ok r) -> status r = 201 ->
  exists x,
    payload r = Some x
    /\ (forall shown,
          Mock.list_all st = (st, Ok (mock_listed shown)) ->
          Mock.list_all st' = (st', Ok (mock_listed (shown ++ [x]))))
    /\ (forall e,
          Mock.list_all st = (st, Raise e) ->
          Mock.list_all st' = (st', Raise e))
    /\ (Mock.list_all st).1 = st /\ (Mock.list_all st').1 = st'.
Proof.
  intros Hp Hs.
  destruct (post_201_inv _ _ _ _ Hp Hs)
    as (novo & x & _ & _ & Hf & -> & ->).
  exists x. split; [reflexivity|].
  rewrite !list_all_eq. cbn [mock_stored Mock.atendimentos fst].
  rewrite formatted_all_snoc, Hf.
  destruct (Mock.formatted_all (Mock.atendimentos st)) as [l|e0].
  - split; [|split; [|by split]].
    + by intros shown [= <-].
    + intros e [=].
  - split; [|split; [|by split]].
    + intros shown [=].
    + by intros e [= <-].
Qed.

End Ids.

Lemma mock_ids_never_reused_witness :
  let rqs := [Mock.Delete (str "2"); Mock.Post in_order;
              Mock.Put (str "1") in_order; Mock.Post in_order] in
  Mock.nextId Mock.initial
  <= Mock.nextId (serve_all (H := ExampleHost.host) rqs
                    (Mock.delete (str "2") Mock.initial).1)
  /\ ~ In (Int 2)
        (ids (serve_all (H := ExampleHost.host) rqs
                (Mock.delete (str "2") Mock.initial).1)).
Proof.
  intros rqs.
  apply (mock_ids_never_reused (H := ExampleHost.host) rqs
           (Mock.delete (str "2") Mock.initial).1 2).
  - initial_invariant.
  - vm_compute. reflexivity.
  - vm_compute. intuition discriminate.
Defined.

Lemma mock_put_replaces_one_witness :
  exists index old novo,
    Mock.atendimentos Mock.initial !! index = Some old
    /\ Mock.id old = parseInt (str "2")
    /\ (forall j a,
          (j < index)%nat -> Mock.atendimentos Mock.initial !! j = Some a ->
          Mock.id a <> parseInt (str "2"))
    /\ Mock.atendimentos
         (Mock.put (H := ExampleHost.host) (str "2") in_order Mock.initial).1
       = <[index := novo]> (Mock.atendimentos Mock.initial)
    /\ Mock.m_nome novo = str "Maria Silva".
Proof.
  destruct (mock_put_replaces_one (H := ExampleHost.host) (str "2") in_order
              Mock.initial _ _
              ltac:(vm_compute; reflexivity) ltac:(reflexivity))
    as (index & old & novo & shown & H1 & H2 & H3 & H4 & _ & H6 & _).
  exists index, old, novo. repeat split; assumption.
Defined.

Lemma put_unknown_id_invalid_body_witness :
  Mock.put (H := ExampleHost.host) (str "99") empty_nome Mock.initial
  = (Mock.initial, Ok Mock.not_found)
  /\ exists m,
       Controller.update (H := ExampleHost.host) (str "99") empty_nome
       = Ret (Controller.bad_request m)
       /\ m <> msg_id_invalido.
Proof.
  apply (put_unknown_id_invalid_body (H := ExampleHost.host) (str "99")
           empty_nome Mock.initial 99).
  - intros a Ha. simpl in Ha.
    destruct Ha as [<-|[<-|[<-|[]]]]; vm_compute; discriminate.
  - vm_compute. reflexivity.
  - reflexivity.
Defined.

Lemma mock_list_after_post_witness :
  exists x st' r shown,
    Mock.post (H := ExampleHost.host) in_order Mock.initial = (st', Ok r)
    /\ payload r = Some x
    /\ Mock.list_all (H := ExampleHost.host) Mock.initial
       = (Mock.initial, Ok (mock_listed shown))
    /\ Mock.list_all (H := ExampleHost.host) st'
       = (st', Ok (mock_listed (shown ++ [x]))).
Proof.
  destruct (mock_list_after_post (H := ExampleHost.host) in_order
              Mock.initial _ _
              ltac:(vm_compute; reflexivity) ltac:(reflexivity))
    as (x & Hx & Hl & _).
  eexists x, _, _, _. split; [vm_compute; reflexivity|].
  split; [exact Hx|].
  assert (forall l,
            Mock.list_all (H := ExampleHost.host) Mock.initial
            = (Mock.initial, Ok (mock_listed l)) ->
            Mock.list_all (H := ExampleHost.host) Mock.initial
            = (Mock.initial, Ok (mock_listed l))
            /\ Mock.list_all (H := ExampleHost.host)
                 (Mock.post (H := ExampleHost.host) in_order Mock.initial).1
               = ((Mock.post (H := ExampleHost.host) in_order Mock.initial).1,
                  Ok (mock_listed (l ++ [x])))) as Hboth.
  { intros l E. split; [exact E | exact (Hl l E)]. }
  apply Hboth. vm_compute. reflexivity.
Defined.

Lemma mock_get_after_post_witness :
  exists st' r r',
    Mock.post (H := ExampleHost.host) in_order Mock.initial = (st', Ok r)
    /\ Mock.get (H := ExampleHost.host) (str "4") st' = (st', Ok r')
    /\ status r' = 200 /\ payload r' = payload r.
Proof.
  eexists _, _.
  destruct (mock_get_after_post (H := ExampleHost.host) in_order Mock.initial
              _ _ (str "4")
              ltac:(initial_invariant)
              ltac:(vm_compute; reflexivity)
              ltac:(reflexivity)
              ltac:(reflexivity)) as (r' & Hg & Hs & Hp).
  exists r'. split; [vm_compute; reflexivity|]. by repeat split.
Defined.

Lemma mock_delete_after_post_witness :
  Mock.delete (str "4")
    (Mock.post (H := ExampleHost.host) in_order Mock.initial).1
  = (mock_bumped Mock.initial, Ok mock_deleted).
Proof.
  apply (mock_delete_after_post (H := ExampleHost.host) in_order Mock.initial
           _ (mock_created
                {| Mock.id := Int 4;
                   Mock.m_nome := str "Maria Silva";
                   Mock.m_profissional := str "Ana Costa";
                   Mock.m_data := VString (str "15/01/2024");
                   Mock.m_dataISO := VString (str "2024-01-15");
                   Mock.m_tipo := Psicologico;
                   Mock.m_observacoes := [] |}) (str "4")).
  - initial_invariant.
  - vm_compute. reflexivity.
  - reflexivity.
  - reflexivity.
Defined.

Lemma mock_gone_after_delete_witness :
  let st' := (Mock.delete (str "2") Mock.initial).1 in
  Mock.get (H := ExampleHost.host) (str "2") st' = (st', Ok Mock.not_found)
  /\ Mock.delete (str "2") st' = (st', Ok Mock.not_found)
  /\ S (length (Mock.atendimentos st'))
     = length (Mock.atendimentos Mock.initial).
Proof.
  intros st'.
  apply (mock_gone_after_delete (H := ExampleHost.host) (str "2")
           Mock.initial st' mock_deleted).
  - vm_compute. distinct_ids.
  - vm_compute. reflexivity.
  - reflexivity.
Defined.

End MockStoreFacts.

(** ** The layered server: sanitization, statements, PUT *)
Module LayeredFacts.
Import JSFacts Validation ValidationFacts Variants MockFacts CreateFacts.
Import ById ByIdFacts Create VariantFacts Layered.
Section WithHost.
Context `{Host}.

Lemma optcall_trim_clean v v' :
  optcall_trim v = Ok v' -> clean_field v' /\ optcall_trim v' = Ok v'.
Proof.
  intros [[-> _]|(s & -> & ->)]%optcall_trim_inv.
  - split; [by left | reflexivity].
  - split; [right; exists (trim s); split; [done | apply trim_idem]|].
    simpl. by rewrite trim_idem.
Qed.

Lemma optcall_trim_Raise v e : optcall_trim v = Raise e -> e = TypeError.
Proof. destruct v; simpl; intros [=]; done. Qed.

Lemma sanitize_Ok_shape a a' :
  Service.sanitizeAtendimento a = Ok a' ->
  Service.sanitizeAtendimento a' = Ok a'
  /\ clean_field (nome a') /\ clean_field (profissional a')
  /\ clean_field (tipo a') /\ data a' = data a
  /\ exists o, observacoes a' = VString o /\ trim o = o.
Proof.
  unfold Service.sanitizeAtendimento. intros Ha.
  apply bind_Ok_inv in Ha as (n & Hn & Ha).
  apply bind_Ok_inv in Ha as (p & Hp & Ha).
  apply bind_Ok_inv in Ha as (t & Ht & Ha).
  apply bind_Ok_inv in Ha as (o & Ho & Ha).
  injection Ha as <-. cbn [nome profissional data tipo observacoes].
  destruct (optcall_trim_clean _ _ Hn) as [Cn ->].
  destruct (optcall_trim_clean _ _ Hp) as [Cp ->].
  destruct (optcall_trim_clean _ _ Ht) as [Ct ->].
  assert (exists x, (if truthy o then o else VString []) = VString x
                    /\ trim x = x) as (x & Ex & Hx).
  { apply optcall_trim_inv in Ho as [[-> _]|(s & _ & ->)].
    - by exists [].
    - destruct (truthy (VString (trim s)));
        [exists (trim s); split; [done | apply trim_idem] | by exists []]. }
  rewrite Ex. split; [|by eauto 10].
  simpl. rewrite Hx. simpl.
  by destruct (negb (jsstring_eqb x [])) eqn:E;
    [|apply negb_false_iff, jsstring_eqb_eq in E; subst x].
Qed.

Lemma sanitize_Raise a e :
  Service.sanitizeAtendimento a = Raise e -> e = TypeError.
Proof.
  unfold Service.sanitizeAtendimento.
  destruct (optcall_trim (nome a)) as [n|e1] eqn:Hn; simpl;
    [|intros [= <-]; by apply optcall_trim_Raise in Hn].
  destruct (optcall_trim (profissional a)) as [p|e1] eqn:Hp; simpl;
    [|intros [= <-]; by apply optcall_trim_Raise in Hp].
  destruct (optcall_trim (tipo a)) as [t|e1] eqn:Ht; simpl;
    [|intros [= <-]; by apply optcall_trim_Raise in Ht].
  destruct (optcall_trim (observacoes a)) as [o|e1] eqn:Ho; simpl;
    [discriminate|intros [= <-]; by apply optcall_trim_Raise in Ho].
Qed.

(** X9: [sanitizeAtendimento] is idempotent, and what it returns has nome,
    profissional and tipo undefined or trimmed, the data it was given, and
    a trimmed string as observacoes, never null or undefined; when it
    throws, it throws a TypeError. *)
Theorem sanitize_idempotent (a : atendimento) :
  (forall a',
     Service.sanitizeAtendimento a = Ok a' ->
     Service.sanitizeAtendimento a' = Ok a'
     /\ clean_field (nome a') /\ clean_field (profissional a')
     /\ clean_field (tipo a') /\ data a' = data a
     /\ exists o, observacoes a' = VString o /\ trim o = o)
  /\ (forall e, Service.sanitizeAtendimento a = Raise e -> e = TypeError).
Proof.
  split.
  - intros a'. apply sanitize_Ok_shape.
  - intros e. apply sanitize_Raise.
Qed.

Lemma checked_sanitized a sane :
  Service.checked a = Ok sane -> Service.sanitizeAtendimento a = Ok sane.
Proof.
  unfold Service.checked.
  destruct (Service.sanitizeAtendimento a) as [s|e]; simpl; [|discriminate].
  destruct (Service.validateAtendimento s) as [v|e]; simpl; [|discriminate].
  destruct (Service.isValid v); simpl; [|discriminate]. by intros [= <-].
Qed.

(** The sanitized record of an accepted body, field by field. *)
Lemma checked_fields a sane :
  Service.checked a = Ok sane ->
  exists s1 s2 s3 o,
    nome a = VString s1 /\ profissional a = VString s2
    /\ tipo a = VString s3
    /\ sane = {| nome := VString (trim s1);
                 profissional := VString (trim s2);
                 data := data a;
                 tipo := VString (trim s3);
                 observacoes := VString o |}
    /\ (2 <= length (trim s1))%nat /\ (2 <= length (trim s2))%nat
    /\ In (trim s3) tiposValidos /\ trim o = o.
Proof.
  intros Hc. pose proof (checked_sanitized _ _ Hc) as Hs.
  apply checked_valid, reported_accepted in Hc
    as ((s1 & E1 & L1) & (s2 & E2 & L2) & _ & (s3 & E3 & L3) & _).
  destruct (sanitize_Ok_shape a sane Hs)
    as (_ & _ & _ & _ & _ & o & Eo & Ho).
  exists s1, s2, s3, o. repeat split; try assumption.
  unfold Service.sanitizeAtendimento in Hs. rewrite E1, E2, E3 in Hs.
  simpl in Hs.
  destruct (optcall_trim (observacoes a)) as [o'|]; [|discriminate].
  simpl in Hs. injection Hs as <-. simpl in Eo. by rewrite Eo.
Qed.

(** X10: when a body passes validation, what [create] sends to the
    database is the trimmed nome, profissional and tipo, the data as given
    and a trimmed string for observacoes: the tipo written is one of the
    three and no field is null; the result is the inserted row, and a
    rejection is thrown again with the prefix of [create]. *)
Theorem create_sends_sanitized (a sane : atendimento) :
  Service.checked a = Ok sane ->
  exists s1 s2 s3 o,
    nome a = VString s1 /\ profissional a = VString s2
    /\ tipo a = VString s3
    /\ (2 <= length (trim s1))%nat /\ (2 <= length (trim s2))%nat
    /\ In (trim s3) tiposValidos /\ trim o = o
    /\ forall S (exec : forall X, query X -> S -> S * (jsstring + X)) (s : S),
         run exec (Service.create a) s =
         let '(s', r) :=
           exec _ (Insert (VString (trim s1)) (VString (trim s2)) (data a)
                     (VString (trim s3)) (VString o)) s in
         (s', match r with
              | inr row => Ok (Service.mapAtendimentoToResponse row)
              | inl m =>
                  Raise (Error (str "Erro ao criar atendimento: " ++ m))
              end).
Proof.
  intros Hc.
  destruct (checked_fields _ _ Hc)
    as (s1 & s2 & s3 & o & E1 & E2 & E3 & -> & L1 & L2 & L3 & Ho).
  exists s1, s2, s3, o. do 7 (split; [assumption|]).
  intros S exec s. unfold Service.create. rewrite Hc. run_prog.
  cbn [nome profissional data tipo observacoes].
  by destruct (exec _ _ s) as [s' [m|row]].
Qed.

(** X11: a PUT of the layered server whose id is a number and whose body
    passes validation sends one UPDATE, with the parsed id and the
    sanitized record, and answers 200 with the first row returned, 404
    when no row is returned and 500 when the statement is rejected (400 if
    the message of the database carries the marker of invalid data). *)
Theorem controller_update_runs (id : jsstring) (n : Z)
    (a sane : atendimento) :
  parseInt id = Int n -> Service.checked a = Ok sane ->
  forall S (exec : forall X, query X -> S -> S * (jsstring + X)) (s : S),
    run exec (Controller.update id a) s =
    let '(s', r) := exec _ (update_of sane (Int n)) s in
    (s', Ok match r with
            | inl m => update_failed m
            | inr [] => Controller.not_found
            | inr (row :: _) => updated row
            end).
Proof.
  intros Hn Hc S exec s. unfold Controller.update.
  rewrite invalid_id_isNaN, Hn. unfold Service.update. rewrite Hc.
  run_prog. unfold update_of.
  destruct (exec _ _ s) as [s' [m|[|row rows]]]; run_prog; try reflexivity.
  unfold update_failed. by destruct (Controller.invalid_data _).
Qed.

Lemma quiet_one_statement {A} (p : prog A) :
  no_query p = true -> one_statement p.
Proof. by destruct p. Qed.

Lemma one_statement_bind {A B} (p : prog A) (f : A -> prog B) :
  one_statement p -> (forall a, no_query (f a) = true) ->
  one_statement (bind p f).
Proof.
  destruct p as [a|e|X q k]; simpl; [|done|].
  - intros _ Hf. by apply quiet_one_statement.
  - intros Hk Hf r. specialize (Hk r).
    destruct (k r) as [a|e|]; simpl; [apply Hf|done|discriminate].
Qed.

Lemma one_statement_catch {A} (p : prog A) (h : exn -> prog A) :
  one_statement p -> (forall e, no_query (h e) = true) ->
  one_statement (catch p h).
Proof.
  destruct p as [a|e|X q k]; simpl; [done| |].
  - intros _ Hh. by apply quiet_one_statement.
  - intros Hk Hh r. specialize (Hk r).
    destruct (k r) as [a|e|]; simpl; [done|apply Hh|discriminate].
Qed.

Lemma reads_only_one {A} (p : prog A) : reads_only p -> one_statement p.
Proof. destruct p; simpl; [done|done|]. by intros [_ Hk]. Qed.

Lemma store_handler_quiet e :
  no_query
    (match Controller.invalid_data e with
     | Some m => Ret (Controller.bad_request (D := Service.api_record) m)
     | None => Ret (Controller.internal_error e)
     end) = true.
Proof. by destruct (Controller.invalid_data e). Qed.

(** X12: every handler of the controller sends one statement at most to
    the database for a request, and the two GET handlers send nothing but
    a SELECT. *)
Theorem controller_one_statement (id : jsstring) (a : atendimento) :
  reads_only Controller.index
  /\ reads_only (Controller.show id)
  /\ one_statement (Controller.store a)
  /\ one_statement (Controller.update id a)
  /\ one_statement (Controller.destroy id).
Proof.
  split; [|split; [|split; [|split]]].
  - unfold Controller.index, Service.findAll. run_prog. split; [done|].
    by intros [m|rows].
  - unfold Controller.show. destruct (Controller.invalid_id id); [done|].
    unfold Service.findById. run_prog. split; [done|].
    by intros [m|[|row rows]].
  - unfold Controller.store. apply one_statement_catch.
    + apply one_statement_bind; [|done].
      unfold Service.create. destruct (Service.checked a); [|done].
      by intros [m|row].
    + apply store_handler_quiet.
  - unfold Controller.update. destruct (Controller.invalid_id id); [done|].
    apply one_statement_catch.
    + apply one_statement_bind; [|by intros [?|]].
      unfold Service.update. destruct (Service.checked a); [|done].
      by intros [m|[|row rows]].
    + apply store_handler_quiet.
  - unfold Controller.destroy. destruct (Controller.invalid_id id); [done|].
    unfold Service.delete. run_prog. by intros [m|[|row rows]].
Qed.

(** X13: the PUT handler of server-postgres.js validates nothing: for every
    id and body it sends one UPDATE with the fields as received (an empty
    string for a falsy observacoes) and whatever [parseInt] made of the id,
    NaN included; it answers 200, 404 or 500 by the answer of the
    database, and never 400. *)
Theorem raw_put_forwards (id : jsstring) (a : atendimento) :
  forall S (exec : forall X, query X -> S -> S * (jsstring + X)) (s : S),
    exists r s' ans,
      exec _ (Update (nome a) (profissional a) (data a) (tipo a)
                (if truthy (observacoes a) then observacoes a
                 else VString []) (parseInt id)) s = (s', ans)
      /\ run exec (RawPgPut.put id a) s = (s', Ok r)
      /\ status r = match ans with
                    | inl _ => 500
                    | inr [] => 404
                    | inr (_ :: _) => 200
                    end
      /\ status r <> 400.
Proof.
  intros S exec s. unfold RawPgPut.put. run_prog.
  destruct (exec _ _ s) as [s' [m|[|row rows]]] eqn:E; run_prog;
    eexists _, s', _; (split; [reflexivity|]); (split; [reflexivity|]);
    by split.
Qed.

End WithHost.

Lemma sanitize_idempotent_witness :
  (exists a',
     Service.sanitizeAtendimento padded = Ok a'
     /\ Service.sanitizeAtendimento a' = Ok a'
     /\ observacoes a' = VString [])
  /\ Service.sanitizeAtendimento numeric_nome = Raise TypeError.
Proof.
  split.
  - eexists. split; [vm_compute; reflexivity|].
    destruct (proj1 (sanitize_idempotent padded) _
                ltac:(vm_compute; reflexivity))
      as (Hi & _). split; [exact Hi | reflexivity].
  - destruct (Service.sanitizeAtendimento numeric_nome) as [a'|e] eqn:E;
      [vm_compute in E; discriminate E|].
    by rewrite (proj2 (sanitize_idempotent numeric_nome) e E).
Defined.

Lemma create_sends_sanitized_witness :
  exists o,
    forall S (exec : forall X, query X -> S -> S * (jsstring + X)) (s : S),
      run exec (Service.create (H := ExampleHost.host) padded) s =
      let '(s', r) :=
        exec _ (Insert (VString (str "Maria Silva"))
                  (VString (str "Ana Costa")) (VString (str "2024-01-15"))
                  (VString Psicologico) (VString o)) s in
      (s', match r with
           | inr row =>
               Ok (Service.mapAtendimentoToResponse (H := ExampleHost.host)
                     row)
           | inl m => Raise (Error (str "Erro ao criar atendimento: " ++ m))
           end).
Proof.
  destruct (create_sends_sanitized (H := ExampleHost.host) padded _
              ltac:(vm_compute; reflexivity))
    as (s1 & s2 & s3 & o & E1 & E2 & E3 & _ & _ & _ & _ & Hrun).
  injection E1 as <-. injection E2 as <-. injection E3 as <-.
  exists o. exact Hrun.
Defined.

Lemma controller_update_runs_witness :
  exists sane,
    forall S (exec : forall X, query X -> S -> S * (jsstring + X)) (s : S),
      run exec (Controller.update (H := ExampleHost.host) (str "7") in_order) s
      = let '(s', r) := exec _ (update_of sane (Int 7)) s in
        (s', Ok match r with
                | inl m => update_failed m
                | inr [] => Controller.not_found
                | inr (row :: _) => updated (H := ExampleHost.host) row
                end).
Proof.
  eexists.
  apply (controller_update_runs (H := ExampleHost.host) (str "7") 7 in_order).
  - reflexivity.
  - vm_compute. reflexivity.
Defined.

End LayeredFacts.

(** ** The API behind the cache *)
Module CachedAPIFacts.
Import JSFacts APICache CacheFacts CachedAPI ById.
Section WithHost.
Context `{Host} {D : Type} (truthyD : D -> bool).
Implicit Types (cache : gmap jsstring (item D)) (key : jsstring).

Lemma through_cache_hit key c t cache it :
  cache !! key = Some it -> t <= expiry it ->
  truthyD (item_data it) = true ->
  through_cache truthyD key c t cache = Done cache (Ok (item_data it)).
Proof.
  intros Hit Ht Hd. unfold through_cache.
  rewrite (get_fresh _ _ _ _ Hit Ht). by rewrite Hd.
Qed.

(** The wrapper returns without a call only for an entry that is there,
    has not expired and holds a truthy value. *)
Lemma through_cache_Done key c t cache cache' r :
  through_cache truthyD key c t cache = Done cache' r ->
  exists it,
    cache !! key = Some it /\ t <= expiry it
    /\ truthyD (item_data it) = true
    /\ cache' = cache /\ r = Ok (item_data it).
Proof.
  unfold through_cache, get.
  destruct (cache !! key) as [it|] eqn:Hit; [|discriminate].
  destruct (expiry it <? t) eqn:Ht; [discriminate|].
  destruct (truthyD (item_data it)) eqn:Hd; [|discriminate].
  intros [= <- <-]. exists it. apply Z.ltb_ge in Ht. by repeat split.
Qed.

Lemma through_cache_resume key c t cache d cache2 t2 :
  without_call (through_cache truthyD key c t cache) = false ->
  resume (through_cache truthyD key c t cache) (Ok d) cache2 t2
  = (set t2 key d cache2, Ok d).
Proof.
  unfold through_cache. destruct (get t key cache) as [cache1 [x|]]; [|done].
  by destruct (truthyD x).
Qed.

Lemma through_cache_failed key c t cache e cache2 t2 :
  without_call (through_cache truthyD key c t cache) = false ->
  resume (through_cache truthyD key c t cache) (Raise e) cache2 t2
  = (cache2, Raise e).
Proof.
  unfold through_cache. destruct (get t key cache) as [cache1 [x|]]; [|done].
  by destruct (truthyD x).
Qed.

Lemma through_cache_again key c t cache d cache2 t2 t3 :
  without_call (through_cache truthyD key c t cache) = false ->
  truthyD d = true -> t3 <= t2 + ttl ->
  let after := (resume (through_cache truthyD key c t cache)
                  (Ok d) cache2 t2).1 in
  through_cache truthyD key c t3 after = Done after (Ok d).
Proof.
  intros Hm Hd Ht. rewrite (through_cache_resume _ _ _ _ _ _ _ Hm).
  cbn [fst].
  by apply (through_cache_hit key c t3 _
              {| item_data := d; expiry := t2 + ttl |});
    [apply lookup_insert_eq| |].
Qed.

(** X14: a list or a record fetched through the cache is served from the
    cache afterwards: once [getAll] (or [getById]) has awaited the API and
    stored a truthy answer, the next call within five minutes of that
    moment returns the same data without a call to the API and leaves the
    cache as it is. *)
Theorem cached_then_served (id : jsstring) (d : D)
    (cache cache2 : gmap jsstring (item D)) (t t2 t3 : Z) :
  truthyD d = true -> t3 <= t2 + ttl ->
  (without_call (getAll truthyD t cache) = false ->
   let after := (resume (getAll truthyD t cache) (Ok d) cache2 t2).1 in
   getAll truthyD t3 after = Done after (Ok d))
  /\ (without_call (getById truthyD id t cache) = false ->
      let after := (resume (getById truthyD id t cache) (Ok d) cache2 t2).1 in
      getById truthyD id t3 after = Done after (Ok d)).
Proof.
  intros Hd Ht. split; intros Hm; by apply through_cache_again.
Qed.

(** X15: the cache never serves what it should not: [getAll] and [getById]
    return without a call to the API only when the entry of their key is
    there, has not expired and holds a truthy value, and they return that
    value and leave the cache as it is; an entry whose value is falsy is
    fetched again every time. *)
Theorem cache_serves_fresh_only (id : jsstring)
    (cache cache' : gmap jsstring (item D)) (t : Z) (r : outcome D) :
  (getAll truthyD t cache = Done cache' r ->
   exists it,
     cache !! generateKey (str "GET") (str "atendimentos") = Some it
     /\ t <= expiry it /\ truthyD (item_data it) = true
     /\ cache' = cache /\ r = Ok (item_data it))
  /\ (getById truthyD id t cache = Done cache' r ->
      exists it,
        cache !! generateKey (str "GET") (str "atendimento/" ++ id) = Some it
        /\ t <= expiry it /\ truthyD (item_data it) = true
        /\ cache' = cache /\ r = Ok (item_data it)).
Proof. split; apply through_cache_Done. Qed.

(** X16: a call of the API that fails leaves the cache alone: nothing is
    stored by [getAll] or [getById], nothing is invalidated by [create],
    [update] or [delete], and the error is thrown on. *)
Theorem failed_call_keeps_cache (id : jsstring) (a : atendimento) (e : exn)
    (cache cache2 : gmap jsstring (item D)) (t t2 : Z) :
  (without_call (getAll truthyD t cache) = false ->
   resume (getAll truthyD t cache) (Raise e) cache2 t2 = (cache2, Raise e))
  /\ (without_call (getById truthyD id t cache) = false ->
      resume (getById truthyD id t cache) (Raise e) cache2 t2
      = (cache2, Raise e))
  /\ resume (create a cache) (Raise e) cache2 t2 = (cache2, Raise e)
  /\ resume (update id a cache) (Raise e) cache2 t2 = (cache2, Raise e)
  /\ resume (delete id cache) (Raise e) cache2 t2 = (cache2, Raise e).
Proof.
  split; [apply through_cache_failed|].
  split; [apply through_cache_failed|]. by repeat split.
Qed.

Lemma key_includes method url pattern :
  includes url pattern = true ->
  includes (generateKey method url) pattern = true.
Proof.
  intros (a & b & ->)%includes_spec. apply includes_spec.
  exists (toLowerCase method ++ str "_" ++ a), b.
  unfold generateKey. by rewrite <- !app_assoc.
Qed.

Lemma digits_exclude (ds : jsstring) :
  forallb isDigit ds = true -> includes ds (str "atendimentos") = false.
Proof.
  induction ds as [|c ds IH]; [reflexivity|].
  cbn [forallb]. intros [Hc Hds]%andb_prop.
  change (includes (c :: ds) (str "atendimentos"))
    with ((97 =? c)%N && startsWith ds (str "tendimentos")
          || includes ds (str "atendimentos")).
  rewrite (IH Hds), orb_false_r.
  unfold isDigit in Hc. apply andb_prop in Hc as [_ Hc%N.leb_le].
  replace (97 =? c)%N with false; [done|].
  symmetry. apply N.eqb_neq. lia.
Qed.

Lemma by_id_key_spared (ds : jsstring) :
  forallb isDigit ds = true ->
  includes (str "get" ++ str "_" ++ str "atendimento/" ++ ds)
    (str "atendimentos") = false.
Proof.
  intros Hds.
  change (includes (str "get" ++ str "_" ++ str "atendimento/" ++ ds)
            (str "atendimentos"))
    with (includes ds (str "atendimentos")).
  by apply digits_exclude.
Qed.

(** X17: what a write invalidates.  After an [update] or a [delete] that
    succeeded, the cache holds no entry of the list or of a record, for
    any method; after a [create] that succeeded, it holds no entry of the
    list, and the entry of a record of a numeric id is as it was (where
    the host puts GET in lower case as get). *)
Theorem write_invalidates (id i : jsstring) (a : atendimento) (d : D)
    (method : jsstring) (cache cache2 : gmap jsstring (item D)) (t2 : Z) :
  let after_update := (resume (update id a cache) (Ok d) cache2 t2).1 in
  let after_delete := (resume (delete id cache) (Ok d) cache2 t2).1 in
  let after_create := (resume (create a cache) (Ok d) cache2 t2).1 in
  after_update !! generateKey method (str "atendimentos") = None
  /\ after_update !! generateKey method (str "atendimento/" ++ i) = None
  /\ after_delete !! generateKey method (str "atendimentos") = None
  /\ after_delete !! generateKey method (str "atendimento/" ++ i) = None
  /\ after_create !! generateKey method (str "atendimentos") = None
  /\ (toLowerCase (str "GET") = str "get" -> forallb isDigit i = true ->
      after_create !! generateKey (str "GET") (str "atendimento/" ++ i)
      = cache2 !! generateKey (str "GET") (str "atendimento/" ++ i)).
Proof.
  cbn [resume update delete create then_invalidate fst].
  assert (includes (str "atendimentos") (str "atendimento") = true)
    as H1 by reflexivity.
  assert (includes (str "atendimento/" ++ i) (str "atendimento") = true)
    as H2.
  { apply includes_spec. by exists [], (str "/" ++ i). }
  assert (includes (str "atendimentos") (str "atendimentos") = true)
    as H3 by reflexivity.
  rewrite !lookup_invalidate.
  rewrite !(key_includes _ _ _ H1), !(key_includes _ _ _ H2),
    !(key_includes _ _ _ H3).
  do 5 (split; [reflexivity|]).
  intros Hlow Hi. unfold generateKey. rewrite Hlow.
  by rewrite (by_id_key_spared i Hi).
Qed.

End WithHost.

(** A cache of numbers, where 0 is the falsy value. *)
Lemma cached_then_served_witness :
  let truthyD := fun n : nat => negb (n =? 0)%nat in
  let after :=
    (resume (getAll (H := ExampleHost.host) truthyD 0 ∅) (Ok 5%nat) ∅ 10).1 in
  getAll (H := ExampleHost.host) truthyD 20 after = Done after (Ok 5%nat).
Proof.
  intros truthyD after.
  apply (proj1 (cached_then_served (H := ExampleHost.host) truthyD
                  (str "7") 5%nat ∅ ∅ 0 10 20 eq_refl
                  ltac:(vm_compute; discriminate))).
  vm_compute. reflexivity.
Defined.

Lemma cache_serves_fresh_only_witness :
  let truthyD := fun n : nat => negb (n =? 0)%nat in
  let key := generateKey (H := ExampleHost.host) (str "GET")
               (str "atendimentos") in
  let cache := set 0 key 5%nat ∅ in
  exists it,
    cache !! key = Some it /\ 10 <= expiry it
    /\ truthyD (item_data it) = true.
Proof.
  intros truthyD key cache.
  destruct (proj1 (cache_serves_fresh_only (H := ExampleHost.host) truthyD
                     (str "7") cache cache 10 (Ok 5%nat)))
    as (it & Hit & Ht & Hd & _).
  - unfold getAll. fold key.
    apply (through_cache_hit truthyD key GetAll 10 cache
             {| item_data := 5%nat; expiry := 0 + ttl |}).
    + apply lookup_insert_eq.
    + vm_compute. discriminate.
    + reflexivity.
  - by exists it.
Defined.

Lemma failed_call_keeps_cache_witness :
  let truthyD := fun n : nat => negb (n =? 0)%nat in
  resume (getAll (H := ExampleHost.host) truthyD 0 ∅)
    (Raise (Error (str "Erro de rede"))) ∅ 10
  = (∅, Raise (Error (str "Erro de rede"))).
Proof.
  intros truthyD.
  apply (proj1 (failed_call_keeps_cache (H := ExampleHost.host) truthyD
                  (str "7") Variants.in_order (Error (str "Erro de rede"))
                  ∅ ∅ 0 10)).
  vm_compute. reflexivity.
Defined.

Lemma write_invalidates_witness :
  let key := generateKey (H := ExampleHost.host) (str "GET")
               (str "atendimento/" ++ str "7") in
  let cache := set 0 key 5%nat ∅ in
  (resume (create Variants.in_order cache) (Ok 1%nat) cache 10).1 !! key
  = cache !! key.
Proof.
  intros key cache.
  apply (proj2 (proj2 (proj2 (proj2 (proj2
           (write_invalidates (H := ExampleHost.host) (str "1") (str "7")
              Variants.in_order 1%nat (str "GET") cache cache 10)))))).
  - reflexivity.
  - reflexivity.
Defined.

End CachedAPIFacts.

(** ** The frontend validation against the servers *)
Module ValidationUtilsFacts.
Import JSFacts Validation ValidationFacts Variants MockFacts VariantFacts.
Import CacheFacts DateUtils ValidationUtils.
Section WithHost.
Context `{Host}.
Variable today : Z.

Lemma name_valid (s : jsstring) (m1 m2 m3 : jsstring) :
  valid (if negb (truthy (VString s)) then failed m1
         else
           let trimmed := trim s in
           if jslength trimmed <? 2 then failed m2
           else if 100 <? jslength trimmed then failed m3
           else passed) = true
  <-> 2 <= jslength (trim s) <= 100.
Proof.
  destruct s as [|c s]; [simpl; split; [done|]; unfold jslength; simpl; lia|].
  change (truthy (VString (c :: s))) with true. cbn [negb]. cbv zeta.
  destruct (jslength (trim (c :: s)) <? 2) eqn:E1.
  { apply Z.ltb_lt in E1. simpl. split; [done | lia]. }
  apply Z.ltb_ge in E1.
  destruct (100 <? jslength (trim (c :: s))) eqn:E2.
  { apply Z.ltb_lt in E2. simpl. split; [done | lia]. }
  apply Z.ltb_ge in E2. simpl. split; [lia | done].
Qed.

Lemma validateNome_valid v :
  valid (validateNome v) = true <-> name_in_order v.
Proof.
  unfold validateNome, name_in_order. destruct v as [s|].
  - rewrite name_valid. split; [by exists s|]. by intros (? & [= <-] & Hs).
  - split; [done|]. by intros (? & [=] & _).
Qed.

Lemma validateProfissional_valid v :
  valid (validateProfissional v) = true <-> name_in_order v.
Proof.
  unfold validateProfissional, name_in_order. destruct v as [s|].
  - rewrite name_valid. split; [by exists s|]. by intros (? & [= <-] & Hs).
  - split; [done|]. by intros (? & [=] & _).
Qed.

Lemma validateData_valid v :
  valid (validateData today v) = true
  <-> exists s z, v = Some s /\ s <> []
        /\ timeValue (VString s) = Int z /\ z <= today.
Proof.
  unfold validateData, isFutureDate, isValidDate. destruct v as [s|].
  - cbn [field]. rewrite truthy_string.
    destruct (jsstring_eqb s []) eqn:Es; cbn [negb].
    + apply jsstring_eqb_eq in Es. split; [done|].
      by intros (? & ? & [= <-] & Hs & _).
    + apply jsstring_eqb_false in Es.
      destruct (timeValue (VString s)) as [|z] eqn:Hz; cbn [isNaN negb].
      * split; [done|]. by intros (? & ? & [= <-] & _ & Hn & _); congruence.
      * cbn [number_gtb]. destruct (today <? z) eqn:Ht.
        -- apply Z.ltb_lt in Ht. split; [done|].
           intros (? & z' & [= <-] & _ & Hn & Hle).
           rewrite Hz in Hn. injection Hn as ->. lia.
        -- apply Z.ltb_ge in Ht. split; [|done]. intros _.
           by exists s, z.
  - split; [done|]. by intros (? & ? & [=] & _).
Qed.

Lemma validateTipo_valid v :
  valid (validateTipo v) = true <-> exists s, v = Some s /\ In s tiposValidos.
Proof.
  unfold validateTipo. destruct v as [s|].
  - cbn [field]. destruct (truthy (VString s)) eqn:Ts; cbn [negb].
    + destruct (array_includes tiposValidos (VString s)) eqn:Ei; cbn [negb].
      * apply array_includes_In in Ei. split; [by exists s | done].
      * split; [done|]. intros (? & [= <-] & Hs%array_includes_In).
        congruence.
    + apply truthy_string_false in Ts as ->. split; [done|].
      by intros (? & [= <-] & Hs%tipos_nonempty).
  - split; [done|]. by intros (? & [=] & _).
Qed.

Lemma validateObservacoes_valid v :
  valid (validateObservacoes v) = true
  <-> forall s, v = Some s -> jslength s <= 500.
Proof.
  unfold validateObservacoes. destruct v as [s|].
  - destruct s as [|c s].
    + split; [|done]. intros _ ? [= <-]. unfold jslength. simpl. lia.
    + change (truthy (VString (c :: s))) with true. cbn [andb].
      destruct (500 <? jslength (c :: s)) eqn:E.
      * apply Z.ltb_lt in E. split; [done|]. intros Hs.
        specialize (Hs _ eq_refl). lia.
      * apply Z.ltb_ge in E. split; [|done]. by intros _ ? [= <-].
  - split; [|done]. by intros _ ? [=].
Qed.

Lemma noted_isValid key r acc :
  isValid (noted key r acc) = valid r && isValid acc.
Proof. unfold noted. by destruct (valid r). Qed.

Lemma noted_errors key r acc :
  errors (noted key r acc) = [] <-> valid r = true /\ errors acc = [].
Proof.
  unfold noted. destruct (valid r); simpl.
  - split; [done | by intros [_ ?]].
  - split; [by intros [_ [=]]%app_eq_nil | by intros [[=] _]].
Qed.

Lemma validateForm_in_order f :
  isValid (validateForm today f) = true <-> form_in_order today f.
Proof.
  unfold validateForm, form_in_order. rewrite !noted_isValid.
  cbn [isValid]. rewrite andb_true_r, !andb_true_iff.
  rewrite validateNome_valid, validateProfissional_valid,
    validateData_valid, validateTipo_valid, validateObservacoes_valid.
  tauto.
Qed.

Lemma in_order_accepted f :
  today <= now -> form_in_order today f -> accepted (request_body f).
Proof.
  intros Hnow ((n & En & Hn) & (p & Ep & Hp) & (d & z & Ed & Hd & Hz & Hle)
               & (t & Et & Ht) & Ho).
  unfold accepted, request_body. cbn [nome profissional data tipo observacoes].
  rewrite En, Ep, Ed, Et. cbn [field].
  split; [exists n; split; [done | unfold jslength in Hn; lia]|].
  split; [exists p; split; [done | unfold jslength in Hp; lia]|].
  split.
  { split.
    - rewrite truthy_string. by apply negb_true_iff, jsstring_eqb_false.
    - exists (VString d). split; [reflexivity|].
      rewrite Hz. cbn [number_gtb]. apply Z.ltb_ge. lia. }
  split; [exists t; split; [done | by rewrite tipos_trimmed]|].
  destruct (form_observacoes f) as [o|]; [right; right; by exists o | by left].
Qed.

(** X18: what the form validation of the frontend accepts.
    [validateForm] answers [isValid] exactly for a form whose nome and
    profissional are strings of 2 to 100 code units once trimmed, whose
    data is a non-empty string read as a date not later than the start of
    the current day, whose tipo is one of the three tipos, and whose
    observacoes, when there, has at most 500 code units; and [isValid]
    holds exactly when [errors] has no key. *)
Theorem form_validation_rules (f : form) :
  (isValid (validateForm today f) = true <-> form_in_order today f)
  /\ (isValid (validateForm today f) = true
      <-> errors (validateForm today f) = []).
Proof.
  split; [apply validateForm_in_order|].
  unfold validateForm. rewrite !noted_isValid, !noted_errors.
  cbn [isValid errors]. rewrite andb_true_r, !andb_true_iff. tauto.
Qed.

(** X19: a form that passes the validation of the frontend is accepted by
    the servers that validate.  When the start of the day on the browser is
    not later than the clock of the server, and both read dates alike, the
    body sent for a form that [validateForm] finds valid passes the
    validation of the pooled service, which goes on to the INSERT, and of
    the mock server, which answers 201. *)
Theorem valid_form_accepted (f : form) (st : Mock.store) :
  today <= now ->
  isValid (validateForm today f) = true ->
  service_accepts (request_body f) = true
  /\ mock_accepts st (request_body f) = true.
Proof.
  intros Hnow Hv%validateForm_in_order.
  pose proof (in_order_accepted f Hnow Hv) as Ha.
  split.
  - by apply service_accepts_reported, reported_accepted.
  - apply mock_accepts_accepted.
    pose proof Ha as (_ & _ & Hf%present_is_not_future & _ & Ho).
    destruct Hv as (_ & _ & _ & (t & Et & Ht) & _).
    refine (proj1 (accepted_mock_accepted _ Hf _ Ho) Ha).
    unfold request_body. cbn [tipo]. rewrite Et. cbn [field].
    intros ? [= <-]. by apply tipos_trimmed.
Qed.

End WithHost.

Lemma form_validation_rules_witness :
  form_in_order (H := ExampleHost.host) 1767225600000 filled
  /\ errors (validateForm (H := ExampleHost.host) 1767225600000 filled) = [].
Proof.
  pose proof (form_validation_rules (H := ExampleHost.host) 1767225600000
                filled) as [H1 H2].
  split; [apply H1 | apply H2]; vm_compute; reflexivity.
Defined.

Lemma valid_form_accepted_witness :
  service_accepts (H := ExampleHost.host) (request_body filled) = true
  /\ mock_accepts (H := ExampleHost.host) Mock.initial (request_body filled)
     = true.
Proof.
  apply (valid_form_accepted (H := ExampleHost.host) 1767225600000 filled
           Mock.initial).
  - vm_compute. discriminate.
  - vm_compute. reflexivity.
Defined.

End ValidationUtilsFacts.

(** ** The text of a card *)
Module CardsFacts.
Import JSFacts StringUtils Cards.

Lemma length_trimStart s : (length (trimStart s) <= length s)%nat.
Proof.
  induction s as [|c s IH]; simpl; [lia|].
  destruct (isWhiteSpace c); simpl; lia.
Qed.

Lemma length_trim s : (length (trim s) <= length s)%nat.
Proof.
  unfold trim, trimEnd. rewrite length_rev.
  etrans; [apply length_trimStart|]. rewrite length_rev.
  apply length_trimStart.
Qed.

(** X20: the text of a card is bounded.  [truncate] never returns more
    than [length] code units and the three dots, whatever it is given; a
    string of at most [length] code units is returned as it is. *)
Theorem truncate_bounded (v : value) (len : Z) :
  jslength (truncate v len) <= Z.max 0 len + 3
  /\ (forall s, v = VString s -> jslength s <= len -> truncate v len = s).
Proof.
  split.
  - destruct v as [| | | |s|]; try (unfold jslength; simpl; lia).
    unfold truncate, not_a_text. rewrite orb_false_r.
    destruct (truthy (VString s)); cbn [negb]; [|unfold jslength; simpl; lia].
    destruct (jslength s <=? len) eqn:E.
    + apply Z.leb_le in E. lia.
    + unfold jslength, substring_to. rewrite length_app.
      pose proof (length_trim (firstn (Z.to_nat len) s)) as Ht.
      rewrite length_firstn in Ht.
      change (length (str "...")) with 3%nat. lia.
  - intros s -> Hs. unfold truncate, not_a_text. rewrite orb_false_r.
    destruct s as [|c s]; [reflexivity|].
    change (truthy (VString (c :: s))) with true. cbn [negb].
    by apply Z.leb_le in Hs as ->.
Qed.

Lemma truncate_bounded_witness :
  truncate (VString (str "Ana")) 30 = str "Ana".
Proof.
  apply (proj2 (truncate_bounded (VString (str "Ana")) 30) (str "Ana")).
  - reflexivity.
  - vm_compute. discriminate.
Defined.

End CardsFacts.

(** ** The filters composed *)
Module FilterComposition.
Import JSFacts Service StringUtils AtendimentoFilters ById FilterSpec.
Import FilterFacts.
Section WithHost.
Context `{Host}.

Lemma applyFilters_keep l f : applyFilters l f = List.filter (keep f) l.
Proof.
  unfold applyFilters, keep. rewrite !truthy_nonempty.
  destruct (nonempty (search f)) eqn:Es;
    destruct (nonempty (f_tipo f)) eqn:Et; simpl.
  - rewrite tipo_kept, search_kept by done. apply filter_twice.
  - rewrite search_kept by done. apply filter_ext. intros a.
    by destruct (matches _ _ || _ || _).
  - rewrite tipo_kept by done. apply filter_ext. intros a.
    by rewrite andb_true_r.
  - symmetry. apply filter_true.
Qed.

Lemma includes_nil s : includes s [] = true.
Proof. by destruct s. Qed.

Lemma clean_blank term : trim (toLowerCase term) = [] -> clean term = [].
Proof. intros E. unfold clean. rewrite E. by rewrite andb_false_r. Qed.

(** X21: the filters compose.  Applying one setting of the filters and
    then another keeps the same records as the other way round; applying
    the same setting twice keeps what applying it once keeps; and the
    search and the tipo filter can be exchanged. *)
Theorem filters_compose (l : list api_record) (f g : filters) :
  applyFilters (applyFilters l f) g = applyFilters (applyFilters l g) f
  /\ applyFilters (applyFilters l f) f = applyFilters l f
  /\ applyFilters l f
     = filterBySearch (filterByTipo l (f_tipo f)) (search f).
Proof.
  split; [|split].
  - rewrite !applyFilters_keep, !filter_twice. apply filter_ext. intros a.
    apply andb_comm.
  - rewrite !applyFilters_keep, filter_twice. apply filter_ext. intros a.
    by destruct (keep f a).
  - unfold applyFilters, filterBySearch, filterByTipo.
    destruct (truthy (VString (search f))),
      (truthy (VString (f_tipo f))); cbn [negb]; try reflexivity.
    rewrite !filter_twice. apply filter_ext. intros a. apply andb_comm.
Qed.

(** X22: a search for white space alone.  A term that is not empty but
    whose lower case trims to nothing is contained in every text: the
    search keeps each record of which nome, profissional or observacoes is
    truthy, and drops the others. *)
Theorem blank_search_keeps (l : list api_record) (term : jsstring) :
  nonempty term = true -> trim (toLowerCase term) = [] ->
  filterBySearch l term
  = List.filter (fun a => truthy (r_nome a) || truthy (r_profissional a)
                          || truthy (r_observacoes a)) l.
Proof.
  intros Hn Hb. rewrite search_kept by done. apply filter_ext. intros a.
  unfold matches. by rewrite (clean_blank term Hb), !includes_nil, !andb_true_r.
Qed.

End WithHost.

Lemma blank_search_keeps_witness :
  filterBySearch (H := ExampleHost.host) [ana] (str " ")
  = List.filter (fun a => truthy (r_nome a) || truthy (r_profissional a)
                          || truthy (r_observacoes a)) [ana].
Proof.
  apply (blank_search_keeps (H := ExampleHost.host) [ana] (str " "));
    reflexivity.
Defined.

End FilterComposition.
